(** * chat_feishu: the event ingestion and gating pipeline, embedded in Rocq

    A shallow embedding of the TypeScript sources of the Feishu channel
    plugin (dedupe.ts, history.ts, webhook.ts, context.ts, inbound.ts,
    websocket.ts, api.ts, dispatch.ts) together with the properties of the
    specification that are settled against them.

    Conventions of the embedding.
    - A JavaScript string is a Rocq [string], one [ascii] per code unit; the
      embedding is exact on strings whose code units are below 256.
    - [undefined] is [None]; a value that may be absent is an [option].
    - A JavaScript [Map]/[Set] iterates in insertion order, so both are
      association lists / lists kept free of duplicate keys.
    - A closure over mutable variables becomes explicit state passing.
    - Asynchronous collaborators (network calls, the agent runtime) are
      arguments: the outcome of the call is passed in. *)

From Stdlib Require Import List String Ascii Bool Arith ZArith Lia.
From Stdlib Require Import DecimalString FinFun.
Import ListNotations.
Set Warnings "-register-all".
Open Scope string_scope.
Open Scope list_scope.

(* ================================================================== *)
(** * Part I: the embedding *)
(* ================================================================== *)

(** ** JavaScript primitives used by the sources *)

Module JS.

(** [if (s)] on a string: only the empty string is falsy. *)
Definition truthy (s : string) : bool :=
  match s with
  | EmptyString => false
  | String _ _ => true
  end.

(** [!s]. *)
Definition falsy (s : string) : bool := negb (truthy s).

(** [if (o)] on [string | undefined]. *)
Definition truthy_opt (o : option string) : bool :=
  match o with
  | None => false
  | Some s => truthy s
  end.

(** [a || b] on [string | undefined] operands. *)
Definition or_else (a b : option string) : option string :=
  if truthy_opt a then a else b.

(** [a ?? b]. *)
Definition nullish {A : Type} (a : option A) (b : A) : A :=
  match a with
  | Some x => x
  | None => b
  end.

(** [arr.includes(x)] on an array of strings. *)
Fixpoint includes (x : string) (arr : list string) : bool :=
  match arr with
  | [] => false
  | y :: rest => if String.eqb y x then true else includes x rest
  end.

(** Decimal rendering of a number, as in a template literal. *)
Definition show_nat (n : nat) : string :=
  NilZero.string_of_uint (Nat.to_uint n).

(** White space and line terminators below 256: TAB, LF, VT, FF, CR, SP and
    NBSP.  This is the set [String.prototype.trim] strips and [\s] matches. *)
Definition is_space (c : ascii) : bool :=
  match nat_of_ascii c with
  | 9 | 10 | 11 | 12 | 13 | 32 | 160 => true
  | _ => false
  end.

Fixpoint drop_spaces (l : list ascii) : list ascii :=
  match l with
  | [] => []
  | c :: rest => if is_space c then drop_spaces rest else l
  end.

(** [s.trim()]. *)
Definition trim (s : string) : string :=
  string_of_list_ascii
    (rev (drop_spaces (rev (drop_spaces (list_ascii_of_string s))))).

(** Lower-casing of one code unit below 256: A-Z and the accented capitals
    0xC0-0xDE (the multiplication sign 0xD7 apart) move up by 32. *)
Definition lower_unit (c : ascii) : ascii :=
  let n := nat_of_ascii c in
  if ((65 <=? n) && (n <=? 90))%nat then ascii_of_nat (n + 32)
  else if ((192 <=? n) && (n <=? 222) && negb (n =? 215))%nat
       then ascii_of_nat (n + 32)
       else c.

(** [s.toLowerCase()]. *)
Fixpoint toLowerCase (s : string) : string :=
  match s with
  | EmptyString => EmptyString
  | String c rest => String (lower_unit c) (toLowerCase rest)
  end.

(** [s.includes(needle)]. *)
Fixpoint str_includes (needle s : string) : bool :=
  if String.prefix needle s then true
  else match s with
       | EmptyString => false
       | String _ rest => str_includes needle rest
       end.

End JS.

(** ** An insertion-ordered [Map<string, V>] *)

Module JSMap.

Section Ops.
Context {V : Type}.

Definition t := list (string * V).

Definition empty : t := [].

Definition size (m : t) : nat := List.length m.

(** [m.keys()], in insertion order. *)
Definition keys (m : t) : list string := List.map fst m.

Fixpoint get (k : string) (m : t) : option V :=
  match m with
  | [] => None
  | (k', v) :: rest => if String.eqb k' k then Some v else get k rest
  end.

Definition has (k : string) (m : t) : bool :=
  match get k m with
  | Some _ => true
  | None => false
  end.

(** [m.delete(k)]. *)
Fixpoint delete (k : string) (m : t) : t :=
  match m with
  | [] => []
  | (k', v) :: rest =>
      if String.eqb k' k then delete k rest else (k', v) :: delete k rest
  end.

(** [m.set(k, v)]: an existing key keeps its position, a new key goes last. *)
Fixpoint set (k : string) (v : V) (m : t) : t :=
  match m with
  | [] => [(k, v)]
  | (k', v') :: rest =>
      if String.eqb k' k then (k', v) :: rest else (k', v') :: set k v rest
  end.

End Ops.

Arguments t V : clear implicits.

End JSMap.

(** ** An insertion-ordered [Set<string>] *)

Module JSSet.

Definition t := list string.

Definition empty : t := [].

Definition size (s : t) : nat := List.length s.

Definition has (x : string) (s : t) : bool := JS.includes x s.

(** [s.delete(x)]. *)
Fixpoint delete (x : string) (s : t) : t :=
  match s with
  | [] => []
  | y :: rest => if String.eqb y x then delete x rest else y :: delete x rest
  end.

(** [s.add(x)]: a value already present keeps its position. *)
Definition add (x : string) (s : t) : t :=
  if has x s then s else s ++ [x].

End JSSet.

(** ** dedupe.ts: [createFeishuDedupeCache] *)

Module Dedupe.

(** Both options are counts, hence natural numbers. *)
Record DedupeCacheOptions := {
  maxSize : nat;
  cleanupThreshold : nat
}.

Definition DEFAULT_DEDUPE_MAX_SIZE : nat := 1000.
Definition DEFAULT_DEDUPE_CLEANUP_THRESHOLD : nat := 800.

Definition defaults : DedupeCacheOptions :=
  {| maxSize := DEFAULT_DEDUPE_MAX_SIZE;
     cleanupThreshold := DEFAULT_DEDUPE_CLEANUP_THRESHOLD |}.

(** The closure variable [processedMessages]. *)
Definition cache := JSSet.t.

Definition create : cache := JSSet.empty.

Definition isProcessed (messageId : string) (c : cache) : bool :=
  JSSet.has messageId c.

(** The body of the [for] loop, run over the values the iterator yields:
    [if (value) processedMessages.delete(value)]. *)
Fixpoint cleanup_loop (yielded : list string) (c : cache) : cache :=
  match yielded with
  | [] => c
  | value :: rest =>
      cleanup_loop rest (if JS.truthy value then JSSet.delete value c else c)
  end.

(** [for (let i = 0; i < toDelete; i++)] over [processedMessages.values()]:
    the iterator yields the first [toDelete] values in insertion order (the
    loop deletes only values it has already passed). *)
Definition cleanup (toDelete : nat) (c : cache) : cache :=
  cleanup_loop (firstn toDelete c) c.

Definition markProcessed (o : DedupeCacheOptions) (messageId : string)
    (c : cache) : cache :=
  let c1 :=
    if (maxSize o <=? JSSet.size c)%nat
    then cleanup (JSSet.size c - cleanupThreshold o) c
    else c in
  JSSet.add messageId c1.

Definition size (c : cache) : nat := JSSet.size c.

Definition clear (c : cache) : cache := JSSet.empty.

(** A run of [markProcessed] calls, first call first. *)
Definition markAll (o : DedupeCacheOptions) (ids : list string) (c : cache)
    : cache :=
  fold_left (fun acc id => markProcessed o id acc) ids c.

End Dedupe.

(** ** history.ts: [createGroupHistoryManager] *)

Module History.

Record HistoryEntry := {
  sender : string;
  body : string;
  (** Unix milliseconds; [None] is [NaN] *)
  timestamp : option Z;
  messageId : string
}.

(** Both options are counts, hence natural numbers. *)
Record GroupHistoryManagerOptions := {
  historyLimit : nat;
  maxGroups : nat
}.

Definition DEFAULT_GROUP_HISTORY_LIMIT : nat := 10.
Definition DEFAULT_MAX_GROUPS : nat := 100.

Definition defaults : GroupHistoryManagerOptions :=
  {| historyLimit := DEFAULT_GROUP_HISTORY_LIMIT;
     maxGroups := DEFAULT_MAX_GROUPS |}.

(** The closure variable [groupHistories]. *)
Definition manager := JSMap.t (list HistoryEntry).

Definition create : manager := JSMap.empty.

(** [if (key) groupHistories.delete(key)] for each yielded key. *)
Fixpoint evict_loop (yielded : list string) (m : manager) : manager :=
  match yielded with
  | [] => m
  | key :: rest =>
      evict_loop rest (if JS.truthy key then JSMap.delete key m else m)
  end.

(** The eviction loop over [groupHistories.keys()]. *)
Definition evict (keysToDelete : nat) (m : manager) : manager :=
  evict_loop (firstn keysToDelete (JSMap.keys m)) m.

(** [while (history.length > historyLimit) history.shift()]. *)
Fixpoint trim (limit : nat) (history : list HistoryEntry)
    : list HistoryEntry :=
  match history with
  | [] => []
  | _ :: rest =>
      if (limit <? List.length history)%nat then trim limit rest else history
  end.

Definition record (o : GroupHistoryManagerOptions) (chatId : string)
    (entry : HistoryEntry) (m : manager) : manager :=
  (* LRU eviction: remove oldest groups when exceeding limit *)
  let m1 :=
    if (maxGroups o <? JSMap.size m)%nat
    then evict (JSMap.size m - maxGroups o) m
    else m in
  (* Get or create history for this chat *)
  let '(history, m2) :=
    match JSMap.get chatId m1 with
    | Some h => (h, m1)
    | None => ([], JSMap.set chatId [] m1)
    end in
  (* Add entry and trim to limit; the array is the one stored in the map *)
  let history' := trim (historyLimit o) (history ++ [entry]) in
  let m3 := JSMap.set chatId history' m2 in
  (* Refresh insertion order (move to end) *)
  if JSMap.has chatId m3
  then JSMap.set chatId history' (JSMap.delete chatId m3)
  else m3.

Definition get (chatId : string) (m : manager) : list HistoryEntry :=
  JS.nullish (JSMap.get chatId m) [].

Definition clear (chatId : string) (m : manager) : manager :=
  JSMap.set chatId [] m.

Definition groupCount (m : manager) : nat := JSMap.size m.

Definition clearAll (m : manager) : manager := JSMap.empty.

(** A run of [record] calls, first call first. *)
Definition recordAll (o : GroupHistoryManagerOptions)
    (calls : list (string * HistoryEntry)) (m : manager) : manager :=
  fold_left (fun acc c => record o (fst c) (snd c) acc) calls m.

(** A run of [clear] calls, first call first. *)
Definition clearEach (ids : list string) (m : manager) : manager :=
  fold_left (fun acc id => clear id acc) ids m.

End History.

(** ** types.ts: configuration and account types *)

Module Types.

(** [FeishuDmPolicy].  types.ts declares "open" | "pairing" | "allowlist";
    the configuration is read from an untyped file, the README documents
    "disabled" as a fourth value and context.ts compares against it, so it
    is a value of the embedding too. *)
Inductive FeishuDmPolicy := DmOpen | DmPairing | DmAllowlist | DmDisabled.

(** [FeishuGroupPolicy]. *)
Inductive FeishuGroupPolicy := GroupOpen | GroupAllowlist | GroupDisabled.

(** [FeishuRenderMode]. *)
Inductive FeishuRenderMode := RenderAuto | RenderRaw | RenderCard.

Definition FeishuDmPolicy_eqb (a b : FeishuDmPolicy) : bool :=
  match a, b with
  | DmOpen, DmOpen | DmPairing, DmPairing
  | DmAllowlist, DmAllowlist | DmDisabled, DmDisabled => true
  | _, _ => false
  end.

Definition FeishuGroupPolicy_eqb (a b : FeishuGroupPolicy) : bool :=
  match a, b with
  | GroupOpen, GroupOpen | GroupAllowlist, GroupAllowlist
  | GroupDisabled, GroupDisabled => true
  | _, _ => false
  end.

(** [FeishuAccountConfig]: the fields the embedded functions read. *)
Record FeishuAccountConfig := {
  dmPolicy : option FeishuDmPolicy;
  allowFrom : option (list string);
  groupPolicy : option FeishuGroupPolicy
}.

(** [ResolvedFeishuAccount]: the fields the embedded functions read. *)
Record ResolvedFeishuAccount := {
  accountId : string;
  verificationToken : option string;
  renderMode : FeishuRenderMode;
  requireMention : bool;
  config : FeishuAccountConfig
}.

End Types.

(** ** webhook.ts: the normalized inbound message *)

Module Message.

Inductive ChatType := Direct | Group.

Record Mention := {
  key : string;
  id : string;
  name : string
}.

Record FeishuInboundMessage := {
  messageId : string;
  chatId : string;
  chatType : ChatType;
  senderId : string;
  senderOpenId : option string;
  senderUserId : option string;
  senderUnionId : option string;
  messageType : string;
  content : string;
  text : option string;
  displayText : option string;
  mentions : option (list Mention);
  rootId : option string;
  parentId : option string;
  (** [parseInt] of the creation time; [None] is [NaN] *)
  createTime : option Z;
  tenantKey : string;
  replyToBody : option string;
  replyToSenderId : option string;
  replyToId : option string;
  imageKey : option string;
  fileKey : option string;
  fileName : option string;
  mediaPath : option string;
  mediaType : option string
}.

(** [!message.mentions || message.mentions.length === 0]. *)
Definition no_mentions (message : FeishuInboundMessage) : bool :=
  match mentions message with
  | None => true
  | Some [] => true
  | Some (_ :: _) => false
  end.

Definition mention_list (message : FeishuInboundMessage) : list Mention :=
  JS.nullish (mentions message) [].

End Message.

(** ** context.ts: the access gate of [buildFeishuMessageContext] *)

Module Context.
Import Types Message.

Definition normalizeMentionName (name : string) : string :=
  JS.toLowerCase (JS.trim name).

(** The [isBotMentioned] local to context.ts, the one the gate calls. *)
Definition isBotMentioned (message : FeishuInboundMessage)
    (botOpenId botName : option string) : bool :=
  if no_mentions message then false
  else
    let ms := mention_list message in
    if JS.truthy_opt botOpenId
       && existsb (fun m => String.eqb (id m) (JS.nullish botOpenId "")) ms
    then true
    else if JS.truthy_opt botName then
      let normalized := normalizeMentionName (JS.nullish botName "") in
      if existsb
           (fun m => JS.truthy (name m)
                     && String.eqb (normalizeMentionName (name m)) normalized)
           ms
      then true
      else
        let displayText :=
          JS.nullish (displayText message) (JS.nullish (text message) "") in
        JS.str_includes ("@" ++ normalized) (JS.toLowerCase displayText)
    else false.

(** Why the gate returned [null]. *)
Inductive BlockReason :=
| DmDisabledBlock
| UnauthorizedDmSender
| GroupDisabledBlock
| NoMention.

(** The outcome of the policy checks: [Blocked] is the early [return null],
    [Passed warned] lets the function go on, [warned] telling whether the
    fail-open warning was logged. *)
Inductive GateOutcome :=
| Blocked (reason : BlockReason)
| Passed (warned : bool).

(** The "DM policy check" block. *)
Definition dmGate (message : FeishuInboundMessage)
    (account : ResolvedFeishuAccount) : GateOutcome :=
  let dmPolicy := JS.nullish (dmPolicy (config account)) DmPairing in
  if FeishuDmPolicy_eqb dmPolicy DmDisabled then Blocked DmDisabledBlock
  else if negb (FeishuDmPolicy_eqb dmPolicy DmOpen) then
    let allowFrom := JS.nullish (allowFrom (config account)) [] in
    let senderId := JS.nullish (senderOpenId message) (senderId message) in
    let allowed :=
      (List.length allowFrom =? 0)%nat || JS.includes senderId allowFrom in
    if negb allowed && FeishuDmPolicy_eqb dmPolicy DmAllowlist
    then Blocked UnauthorizedDmSender
    else (* pairing mode would need additional handling *) Passed false
  else Passed false.

(** The "Group mention gating" block. *)
Definition groupGate (message : FeishuInboundMessage)
    (account : ResolvedFeishuAccount) (botOpenId botName : option string)
    : GateOutcome :=
  let groupPolicy := JS.nullish (groupPolicy (config account)) GroupAllowlist in
  if FeishuGroupPolicy_eqb groupPolicy GroupDisabled
  then Blocked GroupDisabledBlock
  else
    let requireMention := requireMention account in
    let wasMentioned := isBotMentioned message botOpenId botName in
    let canIdentifyBot := JS.truthy_opt (JS.or_else botOpenId botName) in
    if requireMention && negb wasMentioned then
      if negb canIdentifyBot
      then (* bot identity not resolved; allow, with a warning *) Passed true
      else Blocked NoMention
    else Passed false.

(** The policy prefix of [buildFeishuMessageContext]: [if (!isGroup)] the
    DM block, [if (isGroup)] the group block. *)
Definition gate (message : FeishuInboundMessage)
    (account : ResolvedFeishuAccount) (botOpenId botName : option string)
    : GateOutcome :=
  match chatType message with
  | Direct => dmGate message account
  | Group => groupGate message account botOpenId botName
  end.

Section Build.
(** The remainder of [buildFeishuMessageContext] only calls the agent
    runtime ([core.channel.*]); it is an argument. *)
Variable FeishuMessageContext : Type.
Variable assemble :
  FeishuInboundMessage -> ResolvedFeishuAccount -> option string ->
  option string -> list History.HistoryEntry -> FeishuMessageContext.

(** [null] is [None]. *)
Definition buildFeishuMessageContext (message : FeishuInboundMessage)
    (account : ResolvedFeishuAccount) (botOpenId botName : option string)
    (pendingHistory : list History.HistoryEntry)
    : option FeishuMessageContext :=
  match gate message account botOpenId botName with
  | Blocked _ => None
  | Passed _ =>
      Some (assemble message account botOpenId botName pendingHistory)
  end.

End Build.

(** The gate allows the event to reach the responder. *)
Definition allows (g : GateOutcome) : bool :=
  match g with
  | Passed _ => true
  | Blocked _ => false
  end.

End Context.

(** ** The specification's notion of a mention

    Following the words of the specification, not the code: the
    responder is mentioned when the "sender explicitly tagged the
    responder's identity, by id or by case-insensitive,
    whitespace-trimmed name match, or an "@everyone" token".  The second
    definition is the occurrence of the name in the text that the code
    accepts besides. *)

Module Tagging.
Import Message.

Definition byId (botOpenId : option string) (m : Mention) : bool :=
  match botOpenId with
  | Some bot => String.eqb (id m) bot
  | None => false
  end.

Definition byName (botName : option string) (m : Mention) : bool :=
  match botName with
  | Some bot =>
      String.eqb (Context.normalizeMentionName (name m))
        (Context.normalizeMentionName bot)
  | None => false
  end.

Definition everyone (m : Mention) : bool := String.eqb (key m) "@_all".

Definition mentioned (message : FeishuInboundMessage)
    (botOpenId botName : option string) : bool :=
  existsb (fun m => byId botOpenId m || byName botName m || everyone m)
    (mention_list message).

(** The text of the event holds "@" followed by the name of the
    responder, in lower case. *)
Definition namedInText (message : FeishuInboundMessage)
    (botName : option string) : bool :=
  match botName with
  | Some bot =>
      JS.str_includes ("@" ++ Context.normalizeMentionName bot)
        (JS.toLowerCase
           (JS.nullish (displayText message)
              (JS.nullish (text message) "")))
  | None => false
  end.

End Tagging.

(** ** websocket.ts: [createNativeWSClient] *)

Module Websocket.

Inductive WSConnectionState :=
| disconnected
| connecting
| connected
| reconnecting.

Definition maxReconnectAttempts : nat := 10.
Definition baseReconnectDelay : Z := 1000.

(** The mutable variables the closures of the client share.  [ws] tells
    whether the variable holds a socket, [heartbeatInterval] whether the
    heartbeat is armed, [reconnectTimeout] holds the delay of the pending
    reconnection timer. *)
Record client := {
  state : WSConnectionState;
  ws : bool;
  heartbeatInterval : bool;
  reconnectTimeout : option Z;
  reconnectAttempts : nat
}.

Definition create : client :=
  {| state := disconnected;
     ws := false;
     heartbeatInterval := false;
     reconnectTimeout := None;
     reconnectAttempts := 0 |}.

(** What the client does to the outside: a call of the state handler, a
    [setTimeout] with its delay. *)
Inductive action :=
| StateChange (s : WSConnectionState)
| SetTimeout (delay : Z).

Definition setState (newState : WSConnectionState) (c : client)
    : client * list action :=
  ({| state := newState;
      ws := ws c;
      heartbeatInterval := heartbeatInterval c;
      reconnectTimeout := reconnectTimeout c;
      reconnectAttempts := reconnectAttempts c |},
   [StateChange newState]).

Definition cleanup (c : client) : client :=
  {| state := state c;
     ws := false;
     heartbeatInterval := false;
     reconnectTimeout := None;
     reconnectAttempts := reconnectAttempts c |}.

(** How far a call of [connect] gets before the socket reports anything. *)
Inductive ConnectOutcome :=
| NoCredentials     (* thrown before [setState("connecting")] *)
| HandshakeFailed   (* the token or ticket request failed *)
| SocketFailed      (* [new WebSocket] threw *)
| SocketCreated.    (* the handlers are installed *)

Definition connect (o : ConnectOutcome) (c : client) : client * list action :=
  match o with
  | NoCredentials => (c, [])
  | HandshakeFailed => setState connecting c
  | SocketFailed =>
      let '(c1, a1) := setState connecting c in
      let '(c2, a2) := setState disconnected c1 in
      (c2, a1 ++ a2)
  | SocketCreated =>
      let '(c1, a1) := setState connecting c in
      ({| state := state c1;
          ws := true;
          heartbeatInterval := heartbeatInterval c1;
          reconnectTimeout := reconnectTimeout c1;
          reconnectAttempts := reconnectAttempts c1 |}, a1)
  end.

(** [ws.onopen]. *)
Definition onopen (c : client) : client * list action :=
  let '(c1, a1) := setState connected c in
  ({| state := state c1;
      ws := ws c1;
      heartbeatInterval := true;
      reconnectTimeout := reconnectTimeout c1;
      reconnectAttempts := 0 |}, a1).

(** [ws.onclose]. *)
Definition onclose (c : client) : client * list action :=
  let c0 := cleanup c in
  let '(c1, a1) := setState disconnected c0 in
  (* Attempt reconnection *)
  if (reconnectAttempts c1 <? maxReconnectAttempts)%nat then
    let '(c2, a2) := setState reconnecting c1 in
    let delay :=
      (baseReconnectDelay * 2 ^ Z.of_nat (reconnectAttempts c2))%Z in
    ({| state := state c2;
        ws := ws c2;
        heartbeatInterval := heartbeatInterval c2;
        reconnectTimeout := Some delay;
        reconnectAttempts := S (reconnectAttempts c2) |},
     a1 ++ a2 ++ [SetTimeout delay])
  else (c1, a1).

(** [client.stop()]. *)
Definition stop (c : client) : client * list action :=
  let c0 :=
    {| state := state c;
       ws := ws c;
       heartbeatInterval := heartbeatInterval c;
       reconnectTimeout := reconnectTimeout c;
       reconnectAttempts := maxReconnectAttempts |} in
  setState disconnected (cleanup c0).

(** What can happen to a client. *)
Inductive event :=
| Start (o : ConnectOutcome)        (* [client.start()] *)
| TimerFired (o : ConnectOutcome)   (* the reconnection timer expires *)
| OnOpen
| OnClose
| Stop.

(** One event.  A timer that was cleared does not fire; one that fires is
    no longer pending. *)
Definition step (e : event) (c : client) : client * list action :=
  match e with
  | Start o => connect o c
  | TimerFired o =>
      match reconnectTimeout c with
      | None => (c, [])
      | Some _ =>
          connect o
            {| state := state c;
               ws := ws c;
               heartbeatInterval := heartbeatInterval c;
               reconnectTimeout := None;
               reconnectAttempts := reconnectAttempts c |}
      end
  | OnOpen => onopen c
  | OnClose => onclose c
  | Stop => stop c
  end.

(** A run of events, oldest first, with the actions it causes. *)
Fixpoint run (evs : list event) (c : client) : client * list action :=
  match evs with
  | [] => (c, [])
  | e :: rest =>
      let '(c1, a1) := step e c in
      let '(c2, a2) := run rest c1 in
      (c2, a1 ++ a2)
  end.

Definition is_timeout (a : action) : bool :=
  match a with
  | SetTimeout _ => true
  | StateChange _ => false
  end.

(** The delays of the reconnections a run schedules, oldest first. *)
Fixpoint delays (acts : list action) : list Z :=
  match acts with
  | [] => []
  | SetTimeout d :: rest => d :: delays rest
  | StateChange _ :: rest => delays rest
  end.

Definition is_open (e : event) : bool :=
  match e with OnOpen => true | _ => false end.

Definition is_stop (e : event) : bool :=
  match e with Stop => true | _ => false end.



End Websocket.

(** ** Values produced by [JSON.parse], exceptions, and the engine *)

Module Json.

(** A parsed JSON value.  A number is an integer here: the sources only
    test numbers for truthiness. *)
Inductive json :=
| JNull
| JBool (b : bool)
| JNumber (n : Z)
| JString (s : string)
| JArray (items : list json)
| JObject (fields : list (string * json)).

(** A JavaScript value read out of parsed JSON: [None] is [undefined]. *)
Definition jsval := option json.

(** A computation that may throw; the payload of [Throw] is the message of
    the error. *)
Inductive Throws (A : Type) :=
| Ok (a : A)
| Throw (message : string).
Arguments Ok {A} a.
Arguments Throw {A} message.

Definition bind {A B : Type} (c : Throws A) (k : A -> Throws B) : Throws B :=
  match c with
  | Ok a => k a
  | Throw msg => Throw msg
  end.

Notation "x <- c ;; k" := (bind c (fun x => k))
  (at level 61, c at next level, right associativity).

(** [try { c } catch { h }]. *)
Definition try_catch {A : Type} (c : Throws A) (h : string -> A) : A :=
  match c with
  | Ok a => a
  | Throw msg => h msg
  end.

(** The message of the TypeError raised by a property read on [undefined]
    or [null]; its wording depends on the engine. *)
Definition TypeError_read (prop : string) : string :=
  "Cannot read properties of undefined (reading '" ++ prop ++ "')".

Fixpoint lookup (k : string) (fields : list (string * json)) : jsval :=
  match fields with
  | [] => None
  | (k', v) :: rest => if String.eqb k' k then Some v else lookup k rest
  end.

(** [v.k] for a property the prototypes of strings, numbers, booleans and
    arrays do not define. *)
Definition get (v : jsval) (k : string) : Throws jsval :=
  match v with
  | None | Some JNull => Throw (TypeError_read k)
  | Some (JObject fields) => Ok (lookup k fields)
  | Some _ => Ok None
  end.

(** [v?.k]; also [v.k] when [v] is known not to be [undefined] or [null]. *)
Definition get_opt (v : jsval) (k : string) : jsval :=
  match v with
  | Some (JObject fields) => lookup k fields
  | _ => None
  end.

Definition show_Z (n : Z) : string :=
  NilZero.string_of_int (Z.to_int n).

(** [String(v)] of a parsed value, as [join] and template literals apply
    it: an array is joined with commas, [null] inside it giving nothing. *)
Fixpoint toString (v : json) : string :=
  match v with
  | JNull => "null"
  | JBool true => "true"
  | JBool false => "false"
  | JNumber n => show_Z n
  | JString s => s
  | JArray items =>
      (fix commas (l : list json) : string :=
         match l with
         | [] => ""
         | x :: rest =>
             let sx := match x with JNull => "" | _ => toString x end in
             match rest with
             | [] => sx
             | _ :: _ => (sx ++ "," ++ commas rest)%string
             end
         end) items
  | JObject _ => "[object Object]"
  end.

(** [`${v}`]. *)
Definition template (v : jsval) : string :=
  match v with
  | None => "undefined"
  | Some j => toString j
  end.

(** [if (v)]. *)
Definition truthy (v : jsval) : bool :=
  match v with
  | None | Some JNull => false
  | Some (JBool b) => b
  | Some (JNumber n) => negb (n =? 0)%Z
  | Some (JString s) => JS.truthy s
  | Some (JArray _) | Some (JObject _) => true
  end.

(** [a || b]. *)
Definition or (a b : jsval) : jsval := if truthy a then a else b.

(** [typeof v !== "object" || v === null] is false. *)
Definition is_object (v : jsval) : bool :=
  match v with
  | Some (JArray _) | Some (JObject _) => true
  | _ => false
  end.

(** [Array.isArray(v)], with the elements. *)
Definition as_array (v : jsval) : option (list json) :=
  match v with
  | Some (JArray items) => Some items
  | _ => None
  end.

(** A value at the type [string | undefined] the typed records declare
    for it: the string when it is one, nothing otherwise. *)
Definition as_string (v : jsval) : option string :=
  match v with
  | Some (JString s) => Some s
  | _ => None
  end.

(** A string as a JavaScript value. *)
Definition str (s : string) : jsval := Some (JString s).

(** [v ?? d]. *)
Definition nullish_or (v : jsval) (d : json) : json :=
  match v with
  | None | Some JNull => d
  | Some j => j
  end.

(** The message of the TypeError raised by a call of something that is
    not a function; its wording depends on the engine. *)
Definition TypeError_call (callee : string) : string :=
  callee ++ " is not a function".

(** [v === s] for a string literal [s]. *)
Definition is_string (s : string) (v : jsval) : bool :=
  match v with
  | Some (JString s') => String.eqb s' s
  | _ => false
  end.

(** The services of the JavaScript engine the sources call and the
    embedding does not define: the parser of JSON, the compiler and the
    global replacement of regular expressions, and [parseInt(s, 10)]. *)
Record Engine := {
  RegExp : Type;
  (** [new RegExp(pattern, "g")]; [inl msg] is the SyntaxError *)
  RegExp_new : string -> string + RegExp;
  (** [subject.replace(re, replacement)] *)
  replace : string -> RegExp -> string -> string;
  (** [JSON.parse(s)]; [None] is the SyntaxError *)
  JSON_parse : string -> option json;
  (** [parseInt(s, 10)]; [None] is [NaN] *)
  parseInt : string -> option Z
}.

(** [texts.join(sep)]. *)
Fixpoint join (sep : string) (texts : list string) : string :=
  match texts with
  | [] => ""
  | [t] => t
  | t :: rest => (t ++ sep ++ join sep rest)%string
  end.

End Json.

(** ** types.ts: the events the platform delivers *)

Module Event.

Record IdSet := {
  union_id : option string;
  user_id : option string;
  open_id : option string
}.

Record Sender := {
  sender_id : IdSet;
  sender_type : string;
  tenant_key : string
}.

Record RawMention := {
  key : string;
  id : IdSet;
  name : string
}.

Record RawMessage := {
  message_id : string;
  root_id : option string;
  parent_id : option string;
  create_time : string;
  chat_id : string;
  chat_type : string;
  message_type : string;
  content : string;
  mentions : option (list RawMention)
}.

(** The [event] member of a [FeishuMessageReceiveEvent]. *)
Record MessageReceive := {
  sender : Sender;
  message : RawMessage
}.

(** The [event] member of an event callback: absent, that of a message
    event, or that of a bot added/removed event. *)
Inductive Payload :=
| NoPayload
| MessagePayload (e : MessageReceive)
| ChatPayload (chat_id : string).

Record FeishuEventHeader := {
  event_type : string
}.

Record FeishuUrlVerificationEvent := {
  challenge : string;
  token : string
}.

(** The [body: unknown] of [parseWebhookEvent], by the first the type guards
    accept: an object whose [type] is "url_verification"; an object with a
    [schema] and a [header] whose [typeof] is "object" ([None] is a [null]
    header); anything else. *)
Inductive Body :=
| UrlVerification (e : FeishuUrlVerificationEvent)
| EventCallback (header : option FeishuEventHeader) (event : Payload)
| OtherBody.

End Event.

(** ** webhook.ts: [parseWebhookEvent] *)

Module Webhook.
Import Json.

Inductive FeishuWebhookResult :=
| ChallengeResult (challenge : string)
| MessageResult (message : Message.FeishuInboundMessage)
| BotAddedResult (chatId : option string)
| BotRemovedResult (chatId : option string)
| UnknownResult
| ErrorResult (error : string).

(** [el.tag === "text" || el.tag === "a"] and so on, on one element of a
    line of a post. *)
Definition extractFromElement (element : json) : list string :=
  let el := Some element in
  if negb (is_object el) then []
  else if (is_string "text" (get_opt el "tag")
           || is_string "a" (get_opt el "tag"))
          && truthy (get_opt el "text")
  then [template (get_opt el "text")]
  else if is_string "at" (get_opt el "tag")
          && truthy (get_opt el "user_name")
  then [("@" ++ template (get_opt el "user_name"))%string]
  else [].

Definition extractFromElements (elements : list json) : list string :=
  flat_map extractFromElement elements.

(** [extractTextFromPost]. *)
Definition extractTextFromPost (content : jsval) : string :=
  if negb (is_object content) then ""
  else
    let obj := content in
    (* Format 1: { zh_cn/en_us: { title, content } } *)
    let langPost := or (get_opt obj "zh_cn") (get_opt obj "en_us") in
    let '(postContent1, title1) :=
      if truthy (get_opt langPost "content")
      then (get_opt langPost "content", get_opt langPost "title")
      else (None, None) in
    (* Format 2: { title, content } *)
    let '(postContent2, title2) :=
      if negb (truthy postContent1)
         && match as_array (get_opt obj "content") with
            | Some _ => true
            | None => false
            end
      then (get_opt obj "content", get_opt obj "title")
      else (postContent1, title1) in
    (* Format 3: { post: { zh_cn: { ... } } } *)
    let '(postContent, title) :=
      if negb (truthy postContent2) && truthy (get_opt obj "post") then
        let nested := get_opt obj "post" in
        let nestedLang :=
          or (get_opt nested "zh_cn") (get_opt nested "en_us") in
        if truthy (get_opt nestedLang "content")
        then (get_opt nestedLang "content", get_opt nestedLang "title")
        else (postContent2, title2)
      else (postContent2, title2) in
    let texts_title := if truthy title then [template title] else [] in
    let texts_lines :=
      match as_array postContent with
      | Some lines =>
          flat_map
            (fun line =>
               match as_array (Some line) with
               | Some elements => extractFromElements elements
               | None => []
               end)
            lines
      | None => []
      end in
    join " " (texts_title ++ texts_lines).

(** The loop over [card.elements]; [element.tag] throws on a [null]
    element. *)
Fixpoint extractCardElements (elements : list json)
    : Throws (list string) :=
  match elements with
  | [] => Ok []
  | element :: rest =>
      let el := Some element in
      tag <- get el "tag" ;;
      let here :=
        if is_string "markdown" tag && truthy (get_opt el "content")
        then [template (get_opt el "content")]
        else if is_string "div" tag
                && truthy (get_opt (get_opt el "text") "content")
        then [template (get_opt (get_opt el "text") "content")]
        else [] in
      more <- extractCardElements rest ;;
      Ok (here ++ more)
  end.

(** [extractTextFromCard]. *)
Definition extractTextFromCard (content : jsval) : Throws string :=
  if negb (is_object content) then Ok ""
  else
    let card := content in
    let headerTitle :=
      get_opt (get_opt (get_opt card "header") "title") "content" in
    let texts_header :=
      if truthy headerTitle then [template headerTitle] else [] in
    texts_elements <-
      match as_array (get_opt card "elements") with
      | Some elements => extractCardElements elements
      | None => Ok []
      end ;;
    Ok (join (String (ascii_of_nat 10) "") (texts_header ++ texts_elements)).

(** The variables the content parsing assigns.  They are declared
    [string | undefined]; what is read from the parsed content is assigned
    as it is, whatever JSON value it is. *)
Record Parsed := {
  p_text : jsval;
  p_imageKey : jsval;
  p_fileKey : jsval;
  p_fileName : jsval
}.

Definition parsed_text (t : jsval) : Parsed :=
  {| p_text := t; p_imageKey := None; p_fileKey := None; p_fileName := None |}.

(** [a || b || c || ""] over the three ids. *)
Definition pick_id (ids : Event.IdSet) : string :=
  if JS.truthy_opt (Event.open_id ids) then JS.nullish (Event.open_id ids) ""
  else if JS.truthy_opt (Event.user_id ids)
       then JS.nullish (Event.user_id ids) ""
       else if JS.truthy_opt (Event.union_id ids)
            then JS.nullish (Event.union_id ids) ""
            else "".

Definition mapMention (m : Event.RawMention) : Message.Mention :=
  {| Message.key := Event.key m;
     Message.id := pick_id (Event.id m);
     Message.name := Event.name m |}.

Section WithEngine.
Variable E : Engine.

(** The body of the [try] of [handleMessageReceive]. *)
Definition parseContent (message_type content : string) : Throws Parsed :=
  match JSON_parse E content with
  | None => Throw "SyntaxError"
  | Some parsed =>
      let contentObj := Some parsed in
      if String.eqb message_type "text" then
        t <- get contentObj "text" ;;
        Ok (parsed_text t)
      else if String.eqb message_type "post" then
        Ok (parsed_text (str (extractTextFromPost contentObj)))
      else if String.eqb message_type "image" then
        k <- get contentObj "image_key" ;;
        Ok {| p_text := str "<media:image>"; p_imageKey := k;
              p_fileKey := None; p_fileName := None |}
      else if String.eqb message_type "file" then
        fk <- get contentObj "file_key" ;;
        fn <- get contentObj "file_name" ;;
        Ok {| p_text :=
                str ("<media:file>"
                     ++ toString (nullish_or fn (JString "file")))%string;
              p_imageKey := None; p_fileKey := fk; p_fileName := fn |}
      else if String.eqb message_type "audio" then
        fk <- get contentObj "file_key" ;;
        Ok {| p_text := str "<media:audio>"; p_imageKey := None;
              p_fileKey := fk; p_fileName := None |}
      else if String.eqb message_type "media" then
        fk <- get contentObj "file_key" ;;
        ik <- get contentObj "image_key" ;;
        Ok {| p_text := str "<media:video>"; p_imageKey := ik;
              p_fileKey := fk; p_fileName := None |}
      else if String.eqb message_type "sticker" then
        fk <- get contentObj "file_key" ;;
        Ok {| p_text := str "<media:sticker>"; p_imageKey := None;
              p_fileKey := fk; p_fileName := None |}
      else if String.eqb message_type "interactive" then
        t <- extractTextFromCard contentObj ;;
        Ok (parsed_text (str t))
      else if String.eqb message_type "share_chat" then
        c <- get contentObj "chat_id" ;;
        Ok (parsed_text (str ("[Shared chat: " ++ template c ++ "]")%string))
      else if String.eqb message_type "share_user" then
        u <- get contentObj "user_id" ;;
        Ok (parsed_text (str ("[Shared user: " ++ template u ++ "]")%string))
      else
        (* Unknown message type - try to extract as text *)
        Ok (parsed_text (str content))
  end.

(** The [try]/[catch] around it: content that is not JSON, and any error
    while reading it, leave the raw content as the text. *)
Definition parseMessageContent (message : Event.RawMessage) : Parsed :=
  try_catch
    (parseContent (Event.message_type message) (Event.content message))
    (fun _ => parsed_text (str (Event.content message))).

(** The loop replacing the placeholders of the mentions in the display
    text; [new RegExp(mention.key, "g")] may throw. *)
Fixpoint replaceMentions (mentions : list Message.Mention)
    (displayText : string) : Throws string :=
  match mentions with
  | [] => Ok displayText
  | mention :: rest =>
      match RegExp_new E (Message.key mention) with
      | inl msg => Throw msg
      | inr re =>
          replaceMentions rest
            (replace E displayText re ("@" ++ Message.name mention)%string)
      end
  end.

(** The mention loop on a text that is not a string: the first turn
    compiles the placeholder and then calls [displayText?.replace], which
    is no function. *)
Definition replaceInNonString (mentions : list Message.Mention)
    : Throws jsval :=
  match mentions with
  | [] => Ok None
  | mention :: _ =>
      match RegExp_new E (Message.key mention) with
      | inl msg => Throw msg
      | inr _ => Throw (TypeError_call "displayText?.replace")
      end
  end.

(** [handleMessageReceive], given the [event] member.  The record of the
    result holds [text], [displayText] and the media keys at their
    declared type [string | undefined]; the values themselves are those
    of [parseMessageContent]. *)
Definition handleMessageReceive (event : Event.MessageReceive)
    : Throws FeishuWebhookResult :=
  let sender := Event.sender event in
  let message := Event.message event in
  let parsed := parseMessageContent message in
  let text := p_text parsed in
  (* Map mentions *)
  let mentions := option_map (List.map mapMention) (Event.mentions message) in
  (* Generate display text with mention placeholders replaced *)
  displayText <-
    match mentions with
    | Some (m :: ms) =>
        if truthy text then
          match text with
          | Some (JString t) =>
              d <- replaceMentions (m :: ms) t ;; Ok (str d)
          | _ => replaceInNonString (m :: ms)
          end
        else Ok text
    | _ => Ok text
    end ;;
  Ok (MessageResult
        {| Message.messageId := Event.message_id message;
           Message.chatId := Event.chat_id message;
           Message.chatType :=
             if String.eqb (Event.chat_type message) "p2p"
             then Message.Direct else Message.Group;
           Message.senderId := pick_id (Event.sender_id sender);
           Message.senderOpenId := Event.open_id (Event.sender_id sender);
           Message.senderUserId := Event.user_id (Event.sender_id sender);
           Message.senderUnionId := Event.union_id (Event.sender_id sender);
           Message.messageType := Event.message_type message;
           Message.content := Event.content message;
           Message.text := as_string text;
           Message.displayText := as_string displayText;
           Message.mentions := mentions;
           Message.rootId := Event.root_id message;
           Message.parentId := Event.parent_id message;
           Message.createTime := parseInt E (Event.create_time message);
           Message.tenantKey := Event.tenant_key sender;
           Message.replyToBody := None;
           Message.replyToSenderId := None;
           Message.replyToId := None;
           Message.imageKey := as_string (p_imageKey parsed);
           Message.fileKey := as_string (p_fileKey parsed);
           Message.fileName := as_string (p_fileName parsed);
           Message.mediaPath := None;
           Message.mediaType := None |}).

(** [handleUrlVerification]. *)
Definition handleUrlVerification (event : Event.FeishuUrlVerificationEvent)
    (account : Types.ResolvedFeishuAccount) : FeishuWebhookResult :=
  if JS.truthy_opt (Types.verificationToken account)
     && negb (String.eqb (Event.token event)
                (JS.nullish (Types.verificationToken account) ""))
  then ErrorResult "Invalid verification token"
  else ChallengeResult (Event.challenge event).

(** [handleBotAdded] and [handleBotRemoved] read [event.event.chat_id]. *)
Definition payload_chat_id (event : Event.Payload) : Throws (option string) :=
  match event with
  | Event.NoPayload => Throw (TypeError_read "chat_id")
  | Event.MessagePayload _ => Ok None
  | Event.ChatPayload c => Ok (Some c)
  end.

(** [body as FeishuMessageReceiveEvent]: without the members of a message
    event, reading [message.content] throws, in the [try] and again in its
    [catch]. *)
Definition payload_message (event : Event.Payload)
    : Throws Event.MessageReceive :=
  match event with
  | Event.NoPayload => Throw (TypeError_read "sender")
  | Event.ChatPayload _ => Throw (TypeError_read "content")
  | Event.MessagePayload e => Ok e
  end.

(** [handleEventCallback]. *)
Definition handleEventCallback (header : option Event.FeishuEventHeader)
    (event : Event.Payload) : Throws FeishuWebhookResult :=
  match header with
  | None => Throw (TypeError_read "event_type")
  | Some h =>
      let eventType := Event.event_type h in
      if String.eqb eventType "im.message.receive_v1" then
        e <- payload_message event ;; handleMessageReceive e
      else if String.eqb eventType "im.chat.member.bot.added_v1" then
        c <- payload_chat_id event ;; Ok (BotAddedResult c)
      else if String.eqb eventType "im.chat.member.bot.deleted_v1" then
        c <- payload_chat_id event ;; Ok (BotRemovedResult c)
      else Ok UnknownResult
  end.

(** The body of the [try] of [parseWebhookEvent]. *)
Definition parseWebhookEvent_try (body : Event.Body)
    (account : Types.ResolvedFeishuAccount) : Throws FeishuWebhookResult :=
  match body with
  | Event.UrlVerification e => Ok (handleUrlVerification e account)
  | Event.EventCallback header event => handleEventCallback header event
  | Event.OtherBody => Ok UnknownResult
  end.

(** [parseWebhookEvent]. *)
Definition parseWebhookEvent (body : Event.Body)
    (account : Types.ResolvedFeishuAccount) : FeishuWebhookResult :=
  try_catch (parseWebhookEvent_try body account) (fun msg => ErrorResult msg).

End WithEngine.


(** The [isBotMentioned] exported by webhook.ts. *)
Definition isBotMentioned (message : Message.FeishuInboundMessage)
    (botOpenId botName : option string) : bool :=
  if Message.no_mentions message then false
  else
    existsb
      (fun m =>
         if JS.truthy_opt botOpenId
            && String.eqb (Message.id m) (JS.nullish botOpenId "")
         then true
         else if JS.truthy_opt botName
                 && String.eqb (Message.name m) (JS.nullish botName "")
         then true
         else if String.eqb (Message.key m) "@_all" then true
         else false)
      (Message.mention_list message).

End Webhook.

(** ** The regular expressions of api.ts

    Every regular expression the embedded functions of api.ts use is a
    sequence of character classes, each taken once or repeated.  Matching
    backtracks as the engine does: a greedy repetition tries the longest
    run first, a lazy one the shortest. *)

Module Regex.

Inductive quantifier :=
| Once        (* c *)
| Plus        (* c+ *)
| Star        (* c* *)
| LazyStar.   (* c*? *)

Record item := {
  class : ascii -> bool;
  quant : quantifier
}.

Definition pattern := list item.

Section Repetition.
Variable cls : ascii -> bool.
Variable k : list ascii -> option (list ascii).

(** [c*] followed by the continuation [k]. *)
Fixpoint greedy (s : list ascii) : option (list ascii) :=
  match s with
  | [] => k []
  | c :: rest =>
      if cls c then
        match greedy rest with
        | Some r => Some r
        | None => k s
        end
      else k s
  end.

(** [c*?] followed by the continuation [k]. *)
Fixpoint lazy (s : list ascii) : option (list ascii) :=
  match k s with
  | Some r => Some r
  | None =>
      match s with
      | [] => None
      | c :: rest => if cls c then lazy rest else None
      end
  end.

End Repetition.

(** A match of [p] starting at the head of [s]: what is left of [s] after
    the match the engine finds. *)
Fixpoint match_here (p : pattern) : list ascii -> option (list ascii) :=
  match p with
  | [] => fun s => Some s
  | it :: p' =>
      let k := match_here p' in
      match quant it with
      | Once => fun s =>
          match s with
          | [] => None
          | c :: rest => if class it c then k rest else None
          end
      | Plus => fun s =>
          match s with
          | [] => None
          | c :: rest => if class it c then greedy (class it) k rest else None
          end
      | Star => greedy (class it) k
      | LazyStar => lazy (class it) k
      end
  end.

(** [re.test(s)]: a match starting anywhere. *)
Fixpoint test_from (p : pattern) (s : list ascii) : bool :=
  match match_here p s with
  | Some _ => true
  | None =>
      match s with
      | [] => false
      | _ :: rest => test_from p rest
      end
  end.

Definition test (p : pattern) (s : string) : bool :=
  test_from p (list_ascii_of_string s).

(** The scan of a global search over the code units of [s]: [skip] units
    still belong to the match found last.  The patterns of api.ts never
    match the empty string. *)
Fixpoint replace_from (p : pattern) (f : list ascii -> list ascii)
    (skip : nat) (s : list ascii) : list ascii :=
  match s with
  | [] => []
  | c :: rest =>
      match skip with
      | S n => replace_from p f n rest
      | O =>
          match match_here p s with
          | Some remaining =>
              let len := List.length s - List.length remaining in
              match len with
              | O => c :: replace_from p f O rest
              | S n => f (firstn len s) ++ replace_from p f n rest
              end
          | None => c :: replace_from p f O rest
          end
      end
  end.

(** [s.replace(re, f)] with the flag [g]. *)
Definition replace (p : pattern) (f : list ascii -> list ascii) (s : string)
    : string :=
  string_of_list_ascii (replace_from p f 0 (list_ascii_of_string s)).

(** [(s.match(re) || []).length] with the flag [g]. *)
Fixpoint count_from (p : pattern) (skip : nat) (s : list ascii) : nat :=
  match s with
  | [] => 0
  | c :: rest =>
      match skip with
      | S n => count_from p n rest
      | O =>
          match match_here p s with
          | Some remaining =>
              match List.length s - List.length remaining with
              | O => count_from p O rest
              | S n => S (count_from p n rest)
              end
          | None => count_from p O rest
          end
      end
  end.

Definition count (p : pattern) (s : string) : nat :=
  count_from p 0 (list_ascii_of_string s).

(** Character classes. *)
Definition chr (c : ascii) : ascii -> bool := fun x => Ascii.eqb x c.

Definition one_of (cs : string) : ascii -> bool :=
  fun x => existsb (Ascii.eqb x) (list_ascii_of_string cs).

Definition LF : ascii := ascii_of_nat 10.
Definition CR : ascii := ascii_of_nat 13.

(** [.]: any code unit but a line terminator. *)
Definition dot : ascii -> bool :=
  fun x => negb (Ascii.eqb x LF || Ascii.eqb x CR).

(** [[\s\S]]. *)
Definition any : ascii -> bool := fun _ => true.

(** [[\r\n]]. *)
Definition crlf : ascii -> bool :=
  fun x => Ascii.eqb x CR || Ascii.eqb x LF.

Definition once (cls : ascii -> bool) : item :=
  {| class := cls; quant := Once |}.
Definition plus (cls : ascii -> bool) : item :=
  {| class := cls; quant := Plus |}.
Definition lazy_star (cls : ascii -> bool) : item :=
  {| class := cls; quant := LazyStar |}.

End Regex.

(** ** api.ts: rendering of replies and retrieval of a message *)

Module Api.
Import Types Json.

(** The card of [createMarkdownCard]: [buildCardBase()] with one markdown
    element. *)
Record FeishuInteractiveContent := {
  wide_screen_mode : bool;
  header_title : option string;
  markdown : string
}.

Definition createMarkdownCard (content : string) : FeishuInteractiveContent :=
  {| wide_screen_mode := true; header_title := None; markdown := content |}.

(** [/```[\s\S]*?```/]. *)
Definition re_code_block : Regex.pattern :=
  [Regex.once (Regex.chr "`"); Regex.once (Regex.chr "`");
   Regex.once (Regex.chr "`"); Regex.lazy_star Regex.any;
   Regex.once (Regex.chr "`"); Regex.once (Regex.chr "`");
   Regex.once (Regex.chr "`")].

(** [/\|.+\|[\r\n]+\|[-:| ]+\|/]. *)
Definition re_table : Regex.pattern :=
  [Regex.once (Regex.chr "|"); Regex.plus Regex.dot;
   Regex.once (Regex.chr "|"); Regex.plus Regex.crlf;
   Regex.once (Regex.chr "|"); Regex.plus (Regex.one_of "-:| ");
   Regex.once (Regex.chr "|")].

(** [/\[.+\]\(.+\)/]. *)
Definition re_link : Regex.pattern :=
  [Regex.once (Regex.chr "["); Regex.plus Regex.dot;
   Regex.once (Regex.chr "]"); Regex.once (Regex.chr "(");
   Regex.plus Regex.dot; Regex.once (Regex.chr ")")].

(** [/\n\n/g]. *)
Definition re_blank_line : Regex.pattern :=
  [Regex.once (Regex.chr Regex.LF); Regex.once (Regex.chr Regex.LF)].

Definition shouldUseCardRendering (text : string) : bool :=
  (* Check for code blocks *)
  if Regex.test re_code_block text then true
  (* Check for tables (markdown table syntax) *)
  else if Regex.test re_table text then true
  (* Check for markdown links [text](url) *)
  else if Regex.test re_link text then true
  (* Check for long text (>500 chars) *)
  else if (500 <? String.length text)%nat then true
  (* Check for multiple paragraphs *)
  else if (3 <=? Regex.count re_blank_line text)%nat then true
  else false.

(** [/\|/g]. *)
Definition re_pipe : Regex.pattern := [Regex.once (Regex.chr "|")].

(** [/[-:]+\|[-:| ]+/g]. *)
Definition re_separator : Regex.pattern :=
  [Regex.plus (Regex.one_of "-:"); Regex.once (Regex.chr "|");
   Regex.plus (Regex.one_of "-:| ")].

(** [/[:|]/g]. *)
Definition re_colon_pipe : Regex.pattern := [Regex.once (Regex.one_of ":|")].

Definition markdownTableToAscii (markdown : string) : string :=
  Regex.replace re_separator
    (fun matched =>
       Regex.replace_from re_colon_pipe
         (fun _ => list_ascii_of_string "-") 0 matched)
    (Regex.replace re_pipe (fun _ => list_ascii_of_string " | ") markdown).

(** What the first replacement of [markdownTableToAscii] does to one code
    unit. *)
Definition pad_pipe (c : ascii) : list ascii :=
  if Ascii.eqb c "|" then list_ascii_of_string " | " else [c].

(** No "-" or ":" stands directly before a "|", and no line break directly
    after one. *)
Fixpoint pipes_spaced (l : list ascii) : bool :=
  match l with
  | [] => true
  | a :: rest =>
      match rest with
      | [] => true
      | b :: _ =>
          negb (Regex.one_of "-:" a && Regex.chr "|" b)
          && negb (Regex.chr "|" a && Regex.crlf b)
      end
      && pipes_spaced rest
  end.

(** What a send function hands to the platform: [sendText] and [sendCard]
    post a message of type "text" or "interactive" to a receiver,
    [replyMessage] posts either as a reply to a message. *)
Inductive Outbound :=
| SendText (receiveId : string) (text : string)
| SendCard (receiveId : string) (card : FeishuInteractiveContent)
| ReplyText (messageId : string) (text : string)
| ReplyCard (messageId : string) (card : FeishuInteractiveContent).

(** The message is an interactive card. *)
Definition is_card (o : Outbound) : bool :=
  match o with
  | SendCard _ _ | ReplyCard _ _ => true
  | SendText _ _ | ReplyText _ _ => false
  end.

(** The text or markdown that is sent. *)
Definition sent_text (o : Outbound) : string :=
  match o with
  | SendText _ t | ReplyText _ t => t
  | SendCard _ c | ReplyCard _ c => markdown c
  end.

(** Whether the message quotes another, and the chat or message it is
    addressed to. *)
Definition is_reply (o : Outbound) : bool :=
  match o with
  | ReplyText _ _ | ReplyCard _ _ => true
  | SendText _ _ | SendCard _ _ => false
  end.

Definition target (o : Outbound) : string :=
  match o with
  | SendText id _ | SendCard id _ | ReplyText id _ | ReplyCard id _ => id
  end.

(** [sendSmart]; [renderMode] is [options.renderMode]. *)
Definition sendSmart (account : ResolvedFeishuAccount) (receiveId : string)
    (text : string) (renderMode : option FeishuRenderMode) : Outbound :=
  let renderMode := JS.nullish renderMode (Types.renderMode account) in
  let '(useCard, processedText) :=
    match renderMode with
    | RenderCard => (true, text)
    | RenderRaw =>
        (* Convert tables to ASCII for raw mode *)
        (false, markdownTableToAscii text)
    | RenderAuto => (shouldUseCardRendering text, text)
    end in
  if useCard
  then SendCard receiveId (createMarkdownCard text)
  else SendText receiveId processedText.

(** [replyMessage]. *)
Definition replyMessage (account : ResolvedFeishuAccount) (messageId : string)
    (text : string) (renderMode : option FeishuRenderMode) : Outbound :=
  let renderMode := JS.nullish renderMode (Types.renderMode account) in
  let useCard :=
    match renderMode with
    | RenderCard => true
    | RenderAuto => shouldUseCardRendering text
    | RenderRaw => false
    end in
  if useCard
  then ReplyCard messageId (createMarkdownCard text)
  else ReplyText messageId text.

(** The item of the response of [GET /im/v1/messages/:id]; the response
    is cast, not checked, so that [sender] and [body] may be missing. *)
Module Item.

Record Sender := {
  id : string;
  sender_type : string
}.

Record Body := {
  content : string
}.

Record MessageItem := {
  message_id : string;
  msg_type : string;
  create_time : string;
  chat_id : string;
  sender : option Sender;
  body : option Body
}.

End Item.

Definition MessageItem : Type := Item.MessageItem.

(** [FeishuApiResponse]; [items] is [data?.items]. *)
Record FeishuApiResponse := {
  code : Z;
  msg : string;
  items : option (list MessageItem)
}.

Record ParentMessage := {
  messageId : string;
  msgType : string;
  content : string;
  senderId : string;
  senderType : string;
  chatId : string;
  createTime : string;
  body : option string
}.

(** The result of [getMessage]. *)
Record GetMessageResult := {
  ok : bool;
  message : option ParentMessage;
  error : option string
}.

(** The element loop of [extractTextFromPostContent]. *)
Definition extractFromElement (element : json) : list string :=
  let el := Some element in
  if negb (is_object el) then []
  else if is_string "text" (get_opt el "tag") && truthy (get_opt el "text")
  then [template (get_opt el "text")]
  else if is_string "a" (get_opt el "tag") && truthy (get_opt el "text")
  then [template (get_opt el "text")]
  else [].

Definition extractTextFromPostContent (content : jsval) : string :=
  let texts :=
    if is_object content then
      let postContent :=
        or (get_opt (get_opt content "zh_cn") "content")
           (get_opt (get_opt content "en_us") "content") in
      match as_array postContent with
      | Some lines =>
          flat_map
            (fun line =>
               match as_array (Some line) with
               | Some elements => flat_map extractFromElement elements
               | None => []
               end)
            lines
      | None => []
      end
    else [] in
  join " " texts.

Section WithEngine.
Variable E : Engine.

(** The [try] of [getMessage] that extracts the text of the parent;
    [content] is [msg.body.content]. *)
Definition parentText (item : MessageItem) (content : string)
    : Throws (option string) :=
  match JSON_parse E content with
  | None => Throw "SyntaxError"
  | Some parsed =>
      let contentObj := Some parsed in
      if String.eqb (Item.msg_type item) "text" then
        t <- get contentObj "text" ;; Ok (as_string t)
      else if String.eqb (Item.msg_type item) "post" then
        Ok (Some (extractTextFromPostContent contentObj))
      else Ok (Some content)
  end.

(** [getMessage], given what [feishuRequest] returned or threw.  On an
    item without [body] the read of [msg.body.content] throws in the
    [try] and again in its [catch]; on an item without [sender] the read
    of [msg.sender.id] throws while the result is built. *)
Definition getMessage (response : Throws FeishuApiResponse)
    : Throws GetMessageResult :=
  r <- response ;;
  if negb (code r =? 0)%Z then
    Ok {| ok := false; message := None;
          error := Some ("Failed to get message: " ++ show_Z (code r)
                         ++ " - " ++ msg r)%string |}
  else
    match JS.nullish (items r) [] with
    | [] => Ok {| ok := false; message := None;
                  error := Some "Message not found" |}
    | item :: _ =>
        match Item.body item with
        | None => Throw (TypeError_read "content")
        | Some b =>
            let textContent :=
              try_catch (parentText item (Item.content b))
                (fun _ => Some (Item.content b)) in
            match Item.sender item with
            | None => Throw (TypeError_read "id")
            | Some sd =>
                Ok {| ok := true;
                      message :=
                        Some {| messageId := Item.message_id item;
                                msgType := Item.msg_type item;
                                content := Item.content b;
                                senderId := Item.id sd;
                                senderType := Item.sender_type sd;
                                chatId := Item.chat_id item;
                                createTime := Item.create_time item;
                                body := textContent |};
                      error := None |}
            end
        end
    end.

End WithEngine.

End Api.

(** ** inbound.ts and channel.ts: [fetchReplyContext] *)

Module Inbound.
Import Json Message.

(** Both copies of [fetchReplyContext] (inbound.ts, channel.ts) read the
    same; [getMessage] is [api.getMessage] for the account.  The second
    component is what [log.warn] receives. *)
Definition fetchReplyContext
    (getMessage : string -> Throws Api.GetMessageResult)
    (inbound : FeishuInboundMessage) : FeishuInboundMessage * list string :=
  if negb (JS.truthy_opt (parentId inbound)) then (inbound, [])
  else
    let parent := JS.nullish (parentId inbound) "" in
    match getMessage parent with
    | Ok parentResult =>
        match Api.ok parentResult, Api.message parentResult with
        | true, Some parentMessage =>
            ({| messageId := messageId inbound;
                chatId := chatId inbound;
                chatType := chatType inbound;
                senderId := senderId inbound;
                senderOpenId := senderOpenId inbound;
                senderUserId := senderUserId inbound;
                senderUnionId := senderUnionId inbound;
                messageType := messageType inbound;
                content := content inbound;
                text := text inbound;
                displayText := displayText inbound;
                mentions := mentions inbound;
                rootId := rootId inbound;
                parentId := parentId inbound;
                createTime := createTime inbound;
                tenantKey := tenantKey inbound;
                replyToBody := Api.body parentMessage;
                replyToSenderId := Some (Api.senderId parentMessage);
                replyToId := parentId inbound;
                imageKey := imageKey inbound;
                fileKey := fileKey inbound;
                fileName := fileName inbound;
                mediaPath := mediaPath inbound;
                mediaType := mediaType inbound |}, [])
        | _, _ => (inbound, [])
        end
    | Throw err =>
        (inbound,
         [("failed to fetch parent message " ++ parent ++ ": " ++ err)%string])
    end.

(** [buildHistoryEntry]. *)
Definition buildHistoryEntry (inbound : FeishuInboundMessage)
    : History.HistoryEntry :=
  {| History.sender := JS.nullish (senderOpenId inbound) (senderId inbound);
     History.body :=
       JS.nullish (displayText inbound) (JS.nullish (text inbound) "");
     History.timestamp := createTime inbound;
     History.messageId := messageId inbound |}.

End Inbound.

(** ** dispatch.ts: delivery of a reply *)

Module Dispatch.
Import Types.

(** [createDefaultReplySender(account, chatId, isGroup)] applied to
    [{ text, replyToId, renderMode }]. *)
Definition defaultReplySender (account : ResolvedFeishuAccount)
    (chatId : string) (isGroup : bool) (text : string)
    (replyToId : option string) (renderMode : option FeishuRenderMode)
    : Api.Outbound :=
  if JS.truthy_opt replyToId && isGroup
  then Api.replyMessage account (JS.nullish replyToId "") text renderMode
  else Api.sendSmart account chatId text renderMode.

(** The render mode [deliver] passes on: "Determine render mode based on
    content". *)
Definition deliverRenderMode (account : ResolvedFeishuAccount) (text : string)
    : FeishuRenderMode :=
  if Api.shouldUseCardRendering text then RenderCard else renderMode account.

(** [createDefaultMediaSender(account, chatId, isGroup)] applied to
    [{ text, mediaUrl, replyToId }]. *)
Definition defaultMediaSender (account : ResolvedFeishuAccount)
    (chatId : string) (isGroup : bool) (text : option string)
    (mediaUrl : string) (replyToId : option string) : Api.Outbound :=
  (* For now, send media URL as text *)
  let text :=
    if JS.truthy_opt text
    then (JS.nullish text ""
          ++ String (ascii_of_nat 10) (String (ascii_of_nat 10) mediaUrl))%string
    else mediaUrl in
  if JS.truthy_opt replyToId && isGroup
  then Api.replyMessage account (JS.nullish replyToId "") text None
  else Api.sendSmart account chatId text None.

(** [deliver] in [dispatchFeishuMessage], with the default senders of
    channel.ts as [onSendReply] and [onSendMedia]: what is sent for the
    payload [{ text, mediaUrl }] the agent produced for the message
    [messageId] of the chat [chatId].  [None]: nothing is sent. *)
Definition deliverPayload (account : ResolvedFeishuAccount) (chatId : string)
    (isGroup : bool) (messageId : string)
    (payloadText payloadMediaUrl : option string) : option Api.Outbound :=
  let text := JS.nullish payloadText "" in
  let mediaUrl := payloadMediaUrl in
  (* Only use reply quote in group chats *)
  let replyToId := if isGroup then Some messageId else None in
  if JS.truthy_opt mediaUrl then
    Some (defaultMediaSender account chatId isGroup (Some text)
            (JS.nullish mediaUrl "") replyToId)
  else if JS.truthy text then
    let renderMode := deliverRenderMode account text in
    Some (defaultReplySender account chatId isGroup text replyToId
            (Some renderMode))
  else None.

(** [deliver] for a payload that holds a text and no [mediaUrl]. *)
Definition deliver (account : ResolvedFeishuAccount) (chatId : string)
    (isGroup : bool) (messageId : string) (text : string)
    : option Api.Outbound :=
  deliverPayload account chatId isGroup messageId (Some text) None.

End Dispatch.

(** ** Concrete inputs used by the examples below *)

Module Sample.
Import Types.

Definition LF : string := String (ascii_of_nat 10) "".

(** Conversation and message identifiers [oc_0], [oc_1], ... and [om_0],
    [om_1], ... *)
Definition chat (n : nat) : string := "oc_" ++ JS.show_nat n.
Definition msgid (n : nat) : string := "om_" ++ JS.show_nat n.

(** Identifiers [oc], [ocx], [ocxx], ...: one for every natural number. *)
Fixpoint tally (n : nat) : string :=
  match n with
  | O => ""
  | S k => String "x" (tally k)
  end.
Definition fresh (n : nat) : string := "oc" ++ tally n.

Definition entry (chatId : string) : History.HistoryEntry :=
  {| History.sender := "ou_member";
     History.body := "hello";
     History.timestamp := Some 1700000000000%Z;
     History.messageId := "om_in_" ++ chatId |}.

(** One [record] call into each of the first [n] conversations. *)
Definition distinct_records (n : nat) : list (string * History.HistoryEntry) :=
  List.map (fun i => (chat i, entry (chat i))) (seq 0 n).

(** The first [n] message identifiers. *)
Definition msgids (n : nat) : list string := List.map msgid (seq 0 n).

Definition policy (dm : option FeishuDmPolicy) (allow : option (list string))
    (grp : option FeishuGroupPolicy) (mention : bool)
    (mode : FeishuRenderMode) : ResolvedFeishuAccount :=
  {| accountId := "default";
     verificationToken := None;
     renderMode := mode;
     requireMention := mention;
     config := {| dmPolicy := dm; allowFrom := allow; groupPolicy := grp |} |}.

(** A text message of [sender] in the chat [chatId]. *)
Definition inbound (kind : Message.ChatType) (chatId sender body : string)
    (ms : option (list Message.Mention)) (parent : option string)
    : Message.FeishuInboundMessage :=
  {| Message.messageId := "om_1";
     Message.chatId := chatId;
     Message.chatType := kind;
     Message.senderId := sender;
     Message.senderOpenId := Some sender;
     Message.senderUserId := None;
     Message.senderUnionId := None;
     Message.messageType := "text";
     Message.content := "{}";
     Message.text := Some body;
     Message.displayText := Some body;
     Message.mentions := ms;
     Message.rootId := None;
     Message.parentId := parent;
     Message.createTime := Some 1700000000000%Z;
     Message.tenantKey := "tenant";
     Message.replyToBody := None;
     Message.replyToSenderId := None;
     Message.replyToId := None;
     Message.imageKey := None;
     Message.fileKey := None;
     Message.fileName := None;
     Message.mediaPath := None;
     Message.mediaType := None |}.

(** The mention the platform attaches to "@everyone". *)
Definition at_all : Message.Mention :=
  {| Message.key := "@_all"; Message.id := ""; Message.name := "everyone" |}.

(** A markdown table: header row, separator row, one data row. *)
Definition table : string :=
  "| a | b |" ++ LF ++ "|---|---|" ++ LF ++ "| 1 | 2 |".

(** An engine whose parser accepts nothing and whose regular expressions
    replace nothing; enough to run the functions on content that is not
    JSON. *)
Definition inertEngine : Json.Engine :=
  {| Json.RegExp := unit;
     Json.RegExp_new := fun _ => inr tt;
     Json.replace := fun subject _ _ => subject;
     Json.JSON_parse := fun _ => None;
     Json.parseInt := fun _ => None |}.

Definition rawMessage (kind content : string)
    (ms : option (list Event.RawMention)) : Event.RawMessage :=
  {| Event.message_id := "om_1";
     Event.root_id := None;
     Event.parent_id := None;
     Event.create_time := "1700000000000";
     Event.chat_id := "oc_1";
     Event.chat_type := "group";
     Event.message_type := kind;
     Event.content := content;
     Event.mentions := ms |}.

Definition messageReceive (kind content : string)
    (ms : option (list Event.RawMention)) : Event.MessageReceive :=
  {| Event.sender :=
       {| Event.sender_id :=
            {| Event.union_id := None; Event.user_id := None;
               Event.open_id := Some "ou_member" |};
          Event.sender_type := "user";
          Event.tenant_key := "tenant" |};
     Event.message := rawMessage kind content ms |}.

End Sample.

(* ================================================================== *)
(** ** auth.ts: the token cache *)

Module Auth.
Import Json.

(** [ResolvedFeishuAccount] with the fields auth.ts and the request layer
    of api.ts read besides those of [Types.ResolvedFeishuAccount]. *)
Record Account := {
  resolved : Types.ResolvedFeishuAccount;
  appId : option string;
  appSecret : option string;
  apiBase : string
}.

Definition accountId (account : Account) : string :=
  Types.accountId (resolved account).

Definition TOKEN_REFRESH_BUFFER_MS : Z := 5 * 60 * 1000.

Definition getApiBase (account : Account) : string :=
  if JS.truthy (apiBase account) then apiBase account
  else "https://open.feishu.cn/open-apis".

Record FeishuTokenCache := {
  token : string;
  expiresAt : Z
}.

Record FeishuTokenResponse := {
  code : Z;
  msg : string;
  tenant_access_token : option string;
  expire : option Z
}.

(** What [fetch] and [response.json()] give for a token request: [fetch]
    rejects, or there is a response whose body parses or does not. *)
Inductive TokenReply :=
| TokenRejected (err : string)
| TokenResponse (ok : bool) (status : Z) (statusText : string)
    (json : Throws FeishuTokenResponse).

(** The body of a message request; [replyMessage] sends no [receive_id]. *)
Record FeishuSendMessageRequest := {
  receive_id : option string;
  msg_type : string;
  content : string;
  uuid : string
}.

(** A request as it leaves the process.  [url] is the base and the
    endpoint, [query] the parameters appended to it. *)
Inductive Request :=
| TokenRequest (url app_id app_secret : string)
| ApiRequest (method url : string) (query : option (list (string * string)))
    (bearer : string) (body : option FeishuSendMessageRequest).

Definition is_api (rq : Request) : bool :=
  match rq with ApiRequest _ _ _ _ _ => true | TokenRequest _ _ _ => false end.

Definition is_token (rq : Request) : bool := negb (is_api rq).

(** [!n] negated, for a number that may be missing. *)
Definition truthy_num (n : option Z) : bool :=
  match n with
  | Some n => negb (n =? 0)%Z
  | None => false
  end.

Section Tokens.
(** What the API answers to a request; auth.ts does not look at it. *)
Variable R : Type.

(** The module-level [tokenCache], the clock [Date.now()] reads, what the
    network will answer to the token requests and to the API requests to
    come, each with the time that passes until the answer is there, and
    the requests made so far, oldest first. *)
Record World := {
  tokenCache : JSMap.t FeishuTokenCache;
  now : Z;
  tokenReplies : list (Z * TokenReply);
  apiReplies : list (Z * R);
  requests : list Request
}.

(** An asynchronous function: it changes the world and returns or throws. *)
Definition M (A : Type) : Type := World -> World * Throws A.

Definition ret {A : Type} (a : A) : M A := fun w => (w, Ok a).

Definition throw {A : Type} (message : string) : M A :=
  fun w => (w, Throw message).

Definition bind {A B : Type} (c : M A) (k : A -> M B) : M B :=
  fun w =>
    match c w with
    | (w1, Ok a) => k a w1
    | (w1, Throw message) => (w1, Throw message)
    end.

Definition Date_now : M Z := fun w => (w, Ok (now w)).

Definition cache_update (f : JSMap.t FeishuTokenCache -> JSMap.t FeishuTokenCache)
    : M unit :=
  fun w =>
    ({| tokenCache := f (tokenCache w);
        now := now w;
        tokenReplies := tokenReplies w;
        apiReplies := apiReplies w;
        requests := requests w |}, Ok tt).

(** [await fetch(url, ...)] of a token request: the request leaves, the
    head of the answers to come arrives; with none left [fetch] rejects. *)
Definition fetch_token (rq : Request) : M TokenReply :=
  fun w =>
    match tokenReplies w with
    | [] =>
        ({| tokenCache := tokenCache w;
            now := now w;
            tokenReplies := [];
            apiReplies := apiReplies w;
            requests := requests w ++ [rq] |},
         Ok (TokenRejected "fetch failed"))
    | (elapsed, reply) :: rest =>
        ({| tokenCache := tokenCache w;
            now := (now w + elapsed)%Z;
            tokenReplies := rest;
            apiReplies := apiReplies w;
            requests := requests w ++ [rq] |},
         Ok reply)
    end.

Notation "x <~ c ;; k" := (bind c (fun x => k))
  (at level 61, c at next level, right associativity).

(** [fetchTenantAccessToken]. *)
Definition fetchTenantAccessToken (account : Account) : M string :=
  if negb (JS.truthy_opt (appId account))
     || negb (JS.truthy_opt (appSecret account))
  then throw "Feishu appId and appSecret are required"
  else
    let url :=
      (getApiBase account ++ "/auth/v3/tenant_access_token/internal")%string in
    response <~ fetch_token
                  (TokenRequest url (JS.nullish (appId account) "")
                     (JS.nullish (appSecret account) "")) ;;
    match response with
    | TokenRejected err => throw err
    | TokenResponse ok status statusText json =>
        if negb ok
        then throw ("Failed to get Feishu access token: " ++ show_Z status
                    ++ " " ++ statusText)%string
        else
          match json with
          | Throw err => throw err
          | Ok data =>
              if negb (code data =? 0)%Z
              then throw ("Feishu API error: " ++ show_Z (code data)
                          ++ " - " ++ msg data)%string
              else if negb (JS.truthy_opt (tenant_access_token data))
                      || negb (truthy_num (expire data))
              then throw "Invalid token response from Feishu API"
              else
                (* Cache the token *)
                t <~ Date_now ;;
                let expiresAt := (t + JS.nullish (expire data) 0%Z * 1000)%Z in
                _ <~ cache_update
                       (JSMap.set (accountId account)
                          {| token := JS.nullish (tenant_access_token data) "";
                             expiresAt := expiresAt |}) ;;
                ret (JS.nullish (tenant_access_token data) "")
          end
    end.

(** [getTenantAccessToken]. *)
Definition getTenantAccessToken (account : Account) : M string :=
  fun w =>
    let cacheKey := accountId account in
    match JSMap.get cacheKey (tokenCache w) with
    | Some cached =>
        (* Return cached token if still valid *)
        if (now w <? expiresAt cached - TOKEN_REFRESH_BUFFER_MS)%Z
        then (w, Ok (token cached))
        else fetchTenantAccessToken account w
    | None => fetchTenantAccessToken account w
    end.

(** [invalidateToken]. *)
Definition invalidateToken (accountId : string) : M unit :=
  cache_update (JSMap.delete accountId).

(** [clearAllTokens]. *)
Definition clearAllTokens : M unit :=
  cache_update (fun _ => JSMap.empty).

End Tokens.

Arguments tokenCache {R} w.
Arguments now {R} w.
Arguments tokenReplies {R} w.
Arguments apiReplies {R} w.
Arguments requests {R} w.
Arguments ret {R A} a w.
Arguments throw {R A} message w.
Arguments bind {R A B} c k w.
Arguments fetchTenantAccessToken {R} account w.
Arguments getTenantAccessToken {R} account w.
Arguments invalidateToken {R} accountId w.
Arguments clearAllTokens {R} w.

(** [hasValidCredentials]. *)
Definition hasValidCredentials (account : Account) : bool :=
  JS.truthy_opt (appId account) && JS.truthy_opt (appSecret account).

End Auth.

(** ** api.ts: the request layer *)

Module Request.
Import Json.

Notation "x <~ c ;; k" := (Auth.bind c (fun x => k))
  (at level 61, c at next level, right associativity).

Record FeishuSendResult := {
  ok : bool;
  messageId : option string;
  error : option string
}.

(** The API requests among [rq] are the given one, whatever token they
    bear. *)
Definition carries (method url : string)
    (query : option (list (string * string)))
    (body : option Auth.FeishuSendMessageRequest) (rq : Auth.Request)
    : Prop :=
  match rq with
  | Auth.ApiRequest m u q _ b =>
      m = method /\ u = url /\ q = query /\ b = body
  | Auth.TokenRequest _ _ _ => True
  end.

Section Layer.
(** The type of [data] in [FeishuApiResponse<T>]. *)
Variable T : Type.

Record FeishuApiResponse := {
  code : Z;
  msg : string;
  data : option T
}.

(** What [fetch] and [response.json()] give for an API request. *)
Inductive ApiReply :=
| ApiRejected (err : string)
| ApiResponse (json : Throws FeishuApiResponse).

Definition IO : Type -> Type := Auth.M ApiReply.

(** [await fetch(url, ...)] followed by [await response.json()]. *)
Definition fetch_api (rq : Auth.Request) : IO FeishuApiResponse :=
  fun w =>
    let '(elapsed, reply, rest) :=
      match Auth.apiReplies w with
      | [] => (0%Z, ApiRejected "fetch failed", [])
      | (elapsed, reply) :: rest => (elapsed, reply, rest)
      end in
    ({| Auth.tokenCache := Auth.tokenCache w;
        Auth.now := (Auth.now w + elapsed)%Z;
        Auth.tokenReplies := Auth.tokenReplies w;
        Auth.apiReplies := rest;
        Auth.requests := Auth.requests w ++ [rq] |},
     match reply with
     | ApiRejected err => Throw err
     | ApiResponse json => json
     end).

(** [data.code === 99991663 || data.code === 99991664]. *)
Definition tokenExpired (data : FeishuApiResponse) : bool :=
  (code data =? 99991663)%Z || (code data =? 99991664)%Z.

(** One pass through the body of [feishuRequest]; [again] is the call the
    body makes of itself when [retryOnAuthError] holds. *)
Definition feishuRequest_pass (account : Auth.Account)
    (method endpoint : string) (body : option Auth.FeishuSendMessageRequest)
    (queryParams : option (list (string * string)))
    (again : option (IO FeishuApiResponse)) : IO FeishuApiResponse :=
  token <~ Auth.getTenantAccessToken account ;;
  let apiBase := Auth.getApiBase account in
  let url := (apiBase ++ endpoint)%string in
  data <~ fetch_api (Auth.ApiRequest method url queryParams token body) ;;
  (* Handle token expiration *)
  if tokenExpired data then
    match again with
    | Some retry =>
        _ <~ Auth.invalidateToken (Auth.accountId account) ;;
        retry
    | None => Auth.ret data
    end
  else Auth.ret data.

(** [feishuRequest]: the call with [retryOnAuthError] calls itself with
    [false], which calls nothing further. *)
Definition feishuRequest (account : Auth.Account)
    (method endpoint : string) (body : option Auth.FeishuSendMessageRequest)
    (queryParams : option (list (string * string)))
    (retryOnAuthError : bool) : IO FeishuApiResponse :=
  feishuRequest_pass account method endpoint body queryParams
    (if retryOnAuthError
     then Some (feishuRequest_pass account method endpoint body queryParams
                  None)
     else None).

(** [response.data?.message_id], [JSON.stringify({ text })] and
    [JSON.stringify(card)]. *)
Variable message_id : T -> option string.
Variable stringify_text : string -> string.
Variable stringify_card : Api.FeishuInteractiveContent -> string.

Definition data_message_id (response : FeishuApiResponse) : option string :=
  match data response with
  | Some d => message_id d
  | None => None
  end.

(** [sendMessage]; [uuid] is what [generateUuid()] returns. *)
Definition sendMessage (account : Auth.Account)
    (receiveId msgType content receiveIdType : string)
    (replyToId : option string) (uuid : string) : IO FeishuSendResult :=
  let body :=
    {| Auth.receive_id := Some receiveId;
       Auth.msg_type := msgType;
       Auth.content := content;
       Auth.uuid := uuid |} in
  let endpoint :=
    if JS.truthy_opt replyToId
    then ("/im/v1/messages/" ++ JS.nullish replyToId "" ++ "/reply")%string
    else "/im/v1/messages" in
  let queryParams :=
    if JS.truthy_opt replyToId then None
    else Some [("receive_id_type", receiveIdType)] in
  response <~ feishuRequest account "POST" endpoint (Some body) queryParams
                true ;;
  if negb (code response =? 0)%Z
  then Auth.ret
         {| ok := false; messageId := None;
            error := Some ("Feishu API error: " ++ show_Z (code response)
                           ++ " - " ++ msg response)%string |}
  else Auth.ret
         {| ok := true; messageId := data_message_id response;
            error := None |}.

(** [sendText] and [sendCard] with [options.receiveIdType] and
    [options.replyToId]. *)
Definition sendText (account : Auth.Account) (receiveId text : string)
    (receiveIdType replyToId : option string) (uuid : string)
    : IO FeishuSendResult :=
  sendMessage account receiveId "text" (stringify_text text)
    (JS.nullish receiveIdType "chat_id") replyToId uuid.

Definition sendCard (account : Auth.Account) (receiveId : string)
    (cardContent : Api.FeishuInteractiveContent)
    (receiveIdType replyToId : option string) (uuid : string)
    : IO FeishuSendResult :=
  sendMessage account receiveId "interactive" (stringify_card cardContent)
    (JS.nullish receiveIdType "chat_id") replyToId uuid.

(** The request [replyMessage] makes once it has chosen type and
    content. *)
Definition replyRequest (account : Auth.Account)
    (messageId msgType content uuid : string) : IO FeishuSendResult :=
  let body :=
    {| Auth.receive_id := None;
       Auth.msg_type := msgType;
       Auth.content := content;
       Auth.uuid := uuid |} in
  response <~ feishuRequest account "POST"
                ("/im/v1/messages/" ++ messageId ++ "/reply")%string
                (Some body) None true ;;
  if negb (code response =? 0)%Z
  then Auth.ret
         {| ok := false; messageId := None;
            error := Some (show_Z (code response) ++ ": " ++ msg response)%string |}
  else Auth.ret
         {| ok := true; messageId := data_message_id response;
            error := None |}.

(** What [sendSmart] and [replyMessage] do with their choice;
    [receiveIdType] is [options.receiveIdType] of [sendSmart], whose
    options hold no [replyToId]. *)
Definition transmit (account : Auth.Account) (receiveIdType : option string)
    (uuid : string) (o : Api.Outbound) : IO FeishuSendResult :=
  match o with
  | Api.SendCard receiveId card =>
      sendCard account receiveId card receiveIdType None uuid
  | Api.SendText receiveId text =>
      sendText account receiveId text receiveIdType None uuid
  | Api.ReplyCard messageId card =>
      replyRequest account messageId "interactive" (stringify_card card) uuid
  | Api.ReplyText messageId text =>
      replyRequest account messageId "text" (stringify_text text) uuid
  end.

(** The sender [createDefaultReplySender(account, chatId, isGroup)]
    returns, down to the network. *)
Definition defaultReplySender (account : Auth.Account) (chatId : string)
    (isGroup : bool) (text : string) (replyToId : option string)
    (renderMode : option Types.FeishuRenderMode) (uuid : string)
    : IO FeishuSendResult :=
  (* Determine receiveIdType based on chatId format *)
  let receiveIdType :=
    if String.prefix "ou_" chatId then "open_id" else "chat_id" in
  transmit account (Some receiveIdType) uuid
    (Dispatch.defaultReplySender (Auth.resolved account) chatId isGroup text
       replyToId renderMode).

End Layer.

Arguments code {T} f.
Arguments msg {T} f.
Arguments data {T} f.
Arguments ApiRejected {T} err.
Arguments ApiResponse {T} json.
Arguments feishuRequest {T} account method endpoint body queryParams
  retryOnAuthError w.
Arguments feishuRequest_pass {T} account method endpoint body queryParams
  again w.
Arguments tokenExpired {T} data.

End Request.

(** ** channel.ts: the inbound handler *)

Module Channel.
Import Json Message.

(** The closure variables [dedupe] and [history] of [startAccount]. *)
Record State := {
  dedupe : Dedupe.cache;
  history : History.manager
}.

(** How a call of [handleInboundMessage] ends: at the duplicate check, at
    [if (!context)], after [dispatchFeishuMessage] (with the history the
    context was built from), or in the [catch]. *)
Inductive Outcome :=
| Duplicate
| BlockedByPolicy
| Dispatched (pendingHistory : list History.HistoryEntry)
| HandlingFailed (err : string).

Section Handler.
Variable account : Types.ResolvedFeishuAccount.
Variable botOpenId botName : option string.

(** The agent runtime ([core.channel.*]): [resolveAgentRoute] for a peer
    kind and id, which [buildFeishuMessageContext] calls before the policy
    checks, the calls it makes after them, and [dispatchFeishuMessage]
    with the default senders.  Each may throw. *)
Variable FeishuMessageContext : Type.
Variable resolveAgentRoute : string -> string -> Throws unit.
Variable assemble :
  FeishuInboundMessage -> list History.HistoryEntry ->
  Throws FeishuMessageContext.
Variable dispatchFeishuMessage : FeishuMessageContext -> Throws unit.

(** [buildFeishuMessageContext] with what it may throw; [null] is
    [None]. *)
Definition buildFeishuMessageContext (message : FeishuInboundMessage)
    (pendingHistory : list History.HistoryEntry)
    : Throws (option FeishuMessageContext) :=
  let isGroup :=
    match chatType message with Group => true | Direct => false end in
  let peerId := chatId message in
  (* Resolve agent route using core API *)
  _ <- resolveAgentRoute (if isGroup then "group" else "dm") peerId ;;
  match Context.gate message account botOpenId botName with
  | Context.Blocked _ => Ok None
  | Context.Passed _ =>
      context <- assemble message pendingHistory ;;
      Ok (Some context)
  end.

(** [handleInboundMessage]; [getMessage] is [api.getMessage] for the
    account. *)
Definition handleInboundMessage
    (getMessage : string -> Throws Api.GetMessageResult)
    (inbound : FeishuInboundMessage) (s : State) : State * Outcome :=
  (* Deduplication check *)
  if Dedupe.isProcessed (messageId inbound) (dedupe s) then (s, Duplicate)
  else
    let dedupe1 :=
      Dedupe.markProcessed Dedupe.defaults (messageId inbound) (dedupe s) in
    (* Fetch reply context if this is a reply *)
    let messageWithContext :=
      fst (Inbound.fetchReplyContext getMessage inbound) in
    (* Prepare group history *)
    let isGroup :=
      match chatType inbound with Group => true | Direct => false end in
    let historyEntry :=
      if isGroup
      then Some {| History.sender :=
                     JS.nullish (senderOpenId inbound) (senderId inbound);
                   History.body :=
                     JS.nullish (displayText inbound)
                       (JS.nullish (text inbound) "");
                   History.timestamp := createTime inbound;
                   History.messageId := messageId inbound |}
      else None in
    (* Get pending history for context *)
    let pendingHistory :=
      if isGroup then History.get (chatId inbound) (history s) else [] in
    match buildFeishuMessageContext messageWithContext pendingHistory with
    | Ok None =>
        (* Not a direct message to bot - record to history *)
        ({| dedupe := dedupe1;
            history :=
              match historyEntry with
              | Some entry =>
                  History.record History.defaults (chatId inbound) entry
                    (history s)
              | None => history s
              end |},
         BlockedByPolicy)
    | Ok (Some context) =>
        match dispatchFeishuMessage context with
        | Ok _ =>
            (* Clear group history after bot replies *)
            ({| dedupe := dedupe1;
                history :=
                  if isGroup
                  then History.clear (chatId inbound) (history s)
                  else history s |},
             Dispatched pendingHistory)
        | Throw err =>
            ({| dedupe := dedupe1; history := history s |},
             HandlingFailed err)
        end
    | Throw err =>
        ({| dedupe := dedupe1; history := history s |}, HandlingFailed err)
    end.

(** A run of calls of the handler, first call first, each with the
    [getMessage] of its time. *)
Definition handleEach
    (calls : list ((string -> Throws Api.GetMessageResult)
                   * FeishuInboundMessage))
    (s : State) : State :=
  fold_left
    (fun acc call => fst (handleInboundMessage (fst call) (snd call) acc))
    calls s.

End Handler.

(** The id is in the cache with at most [j] ids inserted after it. *)
Definition recent (j : nat) (id : string) (c : Dedupe.cache) : Prop :=
  exists older newer,
    c = older ++ id :: newer /\ ~ In id older /\ List.length newer <= j.

End Channel.

(** ** Concrete accounts and worlds used by the examples below *)

Module Fixture.


(** [FeishuSendMessageResponse]. *)
Record FeishuSendMessageResponse := {
  message_id : option string
}.

Definition account : Auth.Account :=
  {| Auth.resolved := Sample.policy None None None true Types.RenderAuto;
     Auth.appId := Some "cli_a";
     Auth.appSecret := Some "secret";
     Auth.apiBase := "" |}.

Definition tokenData (token : string) (expire : Z) : Auth.TokenReply :=
  Auth.TokenResponse true 200 "OK"
    (Json.Ok {| Auth.code := 0; Auth.msg := "ok";
                Auth.tenant_access_token := Some token;
                Auth.expire := Some expire |}).

Definition apiData (code : Z) (id : option string)
    : Request.ApiReply FeishuSendMessageResponse :=
  Request.ApiResponse
    (Json.Ok {| Request.code := code; Request.msg := "";
                Request.data := Some {| message_id := id |} |}).

(** A text message with the given id. *)
Definition inbound (messageId : string) (kind : Message.ChatType)
    (chatId sender body : string) : Message.FeishuInboundMessage :=
  {| Message.messageId := messageId;
     Message.chatId := chatId;
     Message.chatType := kind;
     Message.senderId := sender;
     Message.senderOpenId := Some sender;
     Message.senderUserId := None;
     Message.senderUnionId := None;
     Message.messageType := "text";
     Message.content := "{}";
     Message.text := Some body;
     Message.displayText := Some body;
     Message.mentions := None;
     Message.rootId := None;
     Message.parentId := None;
     Message.createTime := Some 1700000000000%Z;
     Message.tenantKey := "tenant";
     Message.replyToBody := None;
     Message.replyToSenderId := None;
     Message.replyToId := None;
     Message.imageKey := None;
     Message.fileKey := None;
     Message.fileName := None;
     Message.mediaPath := None;
     Message.mediaType := None |}.

(** A world at time [now] with the given cache and answers to come. *)
Definition world (cache : JSMap.t Auth.FeishuTokenCache) (now : Z)
    (tokenReplies : list (Z * Auth.TokenReply))
    (apiReplies : list (Z * Request.ApiReply FeishuSendMessageResponse))
    : Auth.World (Request.ApiReply FeishuSendMessageResponse) :=
  {| Auth.tokenCache := cache;
     Auth.now := now;
     Auth.tokenReplies := tokenReplies;
     Auth.apiReplies := apiReplies;
     Auth.requests := [] |}.

End Fixture.

(** ** Traces of the native WebSocket client *)

Module Trace.

Definition is_close (e : Websocket.event) : bool :=
  match e with Websocket.OnClose => true | _ => false end.

(** The delays [onclose] computes from a counter at [a] over [k] closes,
    [baseReconnectDelay * Math.pow(2, reconnectAttempts)] while
    [reconnectAttempts < maxReconnectAttempts]. *)
Definition backoff (a k : nat) : list Z :=
  map (fun i => (1000 * 2 ^ Z.of_nat i)%Z) (seq a (Nat.min k (10 - a))).

End Trace.

(** * Part II: properties *)
(* ================================================================== *)

(** ** Insertion-ordered maps and sets *)

Lemma string_eqb_refl_true (k : string) : String.eqb k k = true.
Proof. apply String.eqb_refl. Qed.

Lemma JSMap_get_set_same {V : Type} (k : string) (v : V) (m : JSMap.t V) :
  JSMap.get k (JSMap.set k v m) = Some v.
Proof.
  induction m as [|[k' v'] rest IH]; simpl.
  - now rewrite String.eqb_refl.
  - destruct (String.eqb k' k) eqn:Hk; simpl; rewrite Hk; auto.
Qed.

Lemma JSMap_get_set_other {V : Type} (k k' : string) (v : V) (m : JSMap.t V) :
  k <> k' -> JSMap.get k' (JSMap.set k v m) = JSMap.get k' m.
Proof.
  intros Hne. induction m as [|[k0 v0] rest IH]; simpl.
  - destruct (String.eqb k k') eqn:Hk; auto.
    apply String.eqb_eq in Hk. contradiction.
  - destruct (String.eqb k0 k) eqn:Hk0; simpl.
    + apply String.eqb_eq in Hk0. subst k0.
      destruct (String.eqb k k') eqn:Hk; auto.
      apply String.eqb_eq in Hk. contradiction.
    + destruct (String.eqb k0 k'); auto.
Qed.

Lemma JSMap_has_set_other {V : Type} (k k' : string) (v : V) (m : JSMap.t V) :
  k <> k' -> JSMap.has k' (JSMap.set k v m) = JSMap.has k' m.
Proof.
  intros Hne. unfold JSMap.has. now rewrite JSMap_get_set_other.
Qed.

Lemma JSMap_size_set_new {V : Type} (k : string) (v : V) (m : JSMap.t V) :
  JSMap.has k m = false -> JSMap.size (JSMap.set k v m) = S (JSMap.size m).
Proof.
  unfold JSMap.has, JSMap.size.
  induction m as [|[k' v'] rest IH]; simpl; intros H.
  - reflexivity.
  - destruct (String.eqb k' k) eqn:Hk.
    + discriminate H.
    + simpl. f_equal. apply IH. exact H.
Qed.

Lemma JSMap_size_set_old {V : Type} (k : string) (v : V) (m : JSMap.t V) :
  JSMap.has k m = true -> JSMap.size (JSMap.set k v m) = JSMap.size m.
Proof.
  unfold JSMap.has, JSMap.size.
  induction m as [|[k' v'] rest IH]; simpl; intros H.
  - discriminate H.
  - destruct (String.eqb k' k) eqn:Hk; simpl; auto.
Qed.

(** ** history.ts *)

Lemma history_clear_untracked (chatId : string) (m : History.manager) :
  JSMap.has chatId m = false ->
  History.groupCount (History.clear chatId m) = S (History.groupCount m)
  /\ JSMap.has chatId (History.clear chatId m) = true
  /\ History.get chatId (History.clear chatId m) = [].
Proof.
  intros H. unfold History.groupCount, History.clear, History.get, JSMap.has.
  rewrite JSMap_get_set_same. simpl.
  split; [ now apply JSMap_size_set_new | split; reflexivity ].
Qed.

Lemma history_clearEach_untracked (ids : list string) :
  forall m : History.manager,
    NoDup ids ->
    (forall id, In id ids -> JSMap.has id m = false) ->
    History.groupCount (History.clearEach ids m)
    = History.groupCount m + List.length ids.
Proof.
  induction ids as [|id rest IH]; intros m Hnd Hnew; simpl.
  - unfold History.clearEach. simpl. lia.
  - unfold History.clearEach in *. simpl.
    inversion Hnd as [|? ? Hnotin Hnd']; subst.
    rewrite IH; auto.
    + destruct (history_clear_untracked id m) as [Hsize _];
        [ apply Hnew; now left | ].
      rewrite Hsize. lia.
    + intros id' Hin.
      unfold History.clear. rewrite JSMap_has_set_other.
      * apply Hnew. now right.
      * intros ->. contradiction.
Qed.

Lemma JSMap_set_new {V : Type} (k : string) (v : V) (m : JSMap.t V) :
  JSMap.has k m = false -> JSMap.set k v m = m ++ [(k, v)].
Proof.
  unfold JSMap.has.
  induction m as [|[k' v'] rest IH]; simpl; intros H; auto.
  destruct (String.eqb k' k); [ discriminate H | ].
  f_equal. now apply IH.
Qed.

Lemma JSMap_set_last {V : Type} (k : string) (v v' : V) (m : JSMap.t V) :
  JSMap.has k m = false ->
  JSMap.set k v' (m ++ [(k, v)]) = m ++ [(k, v')].
Proof.
  unfold JSMap.has.
  induction m as [|[k0 v0] rest IH]; simpl; intros H.
  - now rewrite String.eqb_refl.
  - destruct (String.eqb k0 k); [ discriminate H | ].
    f_equal. now apply IH.
Qed.

Lemma JSMap_delete_last {V : Type} (k : string) (v : V) (m : JSMap.t V) :
  JSMap.has k m = false -> JSMap.delete k (m ++ [(k, v)]) = m.
Proof.
  unfold JSMap.has.
  induction m as [|[k0 v0] rest IH]; simpl; intros H.
  - now rewrite String.eqb_refl.
  - destruct (String.eqb k0 k); [ discriminate H | ].
    f_equal. now apply IH.
Qed.

Lemma JSMap_get_last {V : Type} (k : string) (v : V) (m : JSMap.t V) :
  JSMap.has k m = false -> JSMap.get k (m ++ [(k, v)]) = Some v.
Proof.
  unfold JSMap.has.
  induction m as [|[k0 v0] rest IH]; simpl; intros H.
  - now rewrite String.eqb_refl.
  - destruct (String.eqb k0 k); [ discriminate H | ]. now apply IH.
Qed.

(** Recording into a conversation that is not tracked, while the count is
    at most [maxGroups], evicts nothing: the conversation is appended.  At
    [groupCount = maxGroups] the count therefore becomes [maxGroups + 1]. *)
Lemma history_record_untracked_below_cap
    (o : History.GroupHistoryManagerOptions) (chatId : string)
    (entry : History.HistoryEntry) (m : History.manager) :
  History.groupCount m <= History.maxGroups o ->
  JSMap.has chatId m = false ->
  History.record o chatId entry m
  = m ++ [(chatId, History.trim (History.historyLimit o) [entry])].
Proof.
  intros Hsize Hnew. unfold History.record, History.groupCount in *.
  apply Nat.ltb_ge in Hsize. rewrite Hsize.
  assert (Hget : JSMap.get chatId m = None).
  { unfold JSMap.has in Hnew. destruct (JSMap.get chatId m); congruence. }
  rewrite Hget. cbn [app].
  rewrite (JSMap_set_new chatId [] m Hnew).
  rewrite (JSMap_set_last chatId _ _ m Hnew).
  unfold JSMap.has at 1. rewrite (JSMap_get_last chatId _ m Hnew).
  rewrite (JSMap_delete_last chatId _ m Hnew).
  now apply JSMap_set_new.
Qed.

Lemma JSMap_has_keys {V : Type} (k : string) (m : JSMap.t V) :
  JSMap.has k m = true <-> In k (JSMap.keys m).
Proof.
  unfold JSMap.has, JSMap.keys.
  induction m as [|[k' v'] rest IH]; simpl.
  - split; [ discriminate | contradiction ].
  - destruct (String.eqb k' k) eqn:Hk.
    + apply String.eqb_eq in Hk. split; auto.
    + apply String.eqb_neq in Hk. rewrite IH. split; auto.
      intros [H|H]; [ contradiction | assumption ].
Qed.

Lemma JSMap_has_false_keys {V : Type} (k : string) (m : JSMap.t V) :
  JSMap.has k m = false <-> ~ In k (JSMap.keys m).
Proof.
  rewrite <- JSMap_has_keys.
  destruct (JSMap.has k m); split; intros H; try discriminate; auto.
  exfalso. now apply H.
Qed.

Lemma JSMap_delete_absent {V : Type} (k : string) (m : JSMap.t V) :
  JSMap.has k m = false -> JSMap.delete k m = m.
Proof.
  unfold JSMap.has.
  induction m as [|[k' v'] rest IH]; simpl; intros H; auto.
  destruct (String.eqb k' k); [ discriminate H | ].
  f_equal. now apply IH.
Qed.

Lemma JSMap_delete_app {V : Type} (k : string) (a b : JSMap.t V) :
  JSMap.delete k (a ++ b) = JSMap.delete k a ++ JSMap.delete k b.
Proof.
  induction a as [|[k' v'] rest IH]; simpl; auto.
  destruct (String.eqb k' k); simpl; now rewrite IH.
Qed.

Lemma JSMap_delete_set {V : Type} (k : string) (v : V) (m : JSMap.t V) :
  JSMap.has k m = true -> JSMap.delete k (JSMap.set k v m) = JSMap.delete k m.
Proof.
  unfold JSMap.has.
  induction m as [|[k' v'] rest IH]; simpl; intros H.
  - discriminate H.
  - destruct (String.eqb k' k) eqn:Hk; simpl; rewrite Hk; auto.
    f_equal. now apply IH.
Qed.

Lemma JSMap_keys_delete {V : Type} (k k' : string) (m : JSMap.t V) :
  In k' (JSMap.keys (JSMap.delete k m)) <-> k' <> k /\ In k' (JSMap.keys m).
Proof.
  unfold JSMap.keys.
  induction m as [|[k0 v0] rest IH]; simpl.
  - tauto.
  - destruct (String.eqb k0 k) eqn:Hk; simpl.
    + apply String.eqb_eq in Hk. subst k0. rewrite IH.
      split; [ tauto | intros [Hne [H|H]]; [ congruence | tauto ] ].
    + apply String.eqb_neq in Hk. rewrite IH.
      split; [ intros [H|H]; [ subst; tauto | tauto ] | tauto ].
Qed.

Lemma JSMap_delete_NoDup {V : Type} (k : string) (m : JSMap.t V) :
  NoDup (JSMap.keys m) -> NoDup (JSMap.keys (JSMap.delete k m)).
Proof.
  induction m as [|[k0 v0] rest IH]; simpl; intros H; [ constructor | ].
  inversion H as [|? ? Hnotin Hnd]; subst.
  destruct (String.eqb k0 k); simpl; auto.
  constructor; auto.
  intros Hin. apply Hnotin. now apply JSMap_keys_delete in Hin.
Qed.

Lemma JSMap_delete_size {V : Type} (k : string) (m : JSMap.t V) :
  JSMap.size (JSMap.delete k m) <= JSMap.size m.
Proof.
  unfold JSMap.size.
  induction m as [|[k0 v0] rest IH]; simpl; auto.
  destruct (String.eqb k0 k); simpl; lia.
Qed.

(** Recording into distinct untracked conversations evicts nothing as long
    as the count before each call is at most [maxGroups]: with any cap, the
    call that brings the count to [maxGroups + 1] keeps them all. *)
Lemma history_distinct_records_all_kept
    (o : History.GroupHistoryManagerOptions)
    (calls : list (string * History.HistoryEntry)) :
  forall m : History.manager,
    NoDup (JSMap.keys m ++ List.map fst calls) ->
    History.groupCount m + List.length calls <= S (History.maxGroups o) ->
    History.recordAll o calls m
    = m ++ List.map
             (fun c => (fst c, History.trim (History.historyLimit o) [snd c]))
             calls.
Proof.
  induction calls as [|[k e] rest IH]; intros m Hnd Hsize.
  - cbn. now rewrite app_nil_r.
  - cbn [History.recordAll fold_left fst snd List.map List.length] in *.
    assert (Hnew : JSMap.has k m = false).
    { apply JSMap_has_false_keys. intros Hin.
      apply NoDup_remove_2 in Hnd. apply Hnd. apply in_or_app. now left. }
    rewrite history_record_untracked_below_cap
      by (auto; unfold History.groupCount in *; lia).
    fold (History.recordAll o rest
            (m ++ [(k, History.trim (History.historyLimit o) [e])])).
    rewrite IH.
    + rewrite <- app_assoc. reflexivity.
    + unfold JSMap.keys in *. rewrite map_app. cbn [List.map fst].
      rewrite <- app_assoc. exact Hnd.
    + unfold History.groupCount, JSMap.size in *. rewrite length_app.
      cbn [List.length]. lia.
Qed.

(** [record] in one piece: after the eviction, the conversation moves to
    the end of the map, its entries extended by the new one and trimmed. *)
Lemma history_record_shape (o : History.GroupHistoryManagerOptions)
    (chatId : string) (entry : History.HistoryEntry) (m : History.manager) :
  let m1 :=
    if (History.maxGroups o <? JSMap.size m)%nat
    then History.evict (JSMap.size m - History.maxGroups o) m
    else m in
  History.record o chatId entry m
  = JSMap.delete chatId m1
    ++ [(chatId,
         History.trim (History.historyLimit o)
           (History.get chatId m1 ++ [entry]))].
Proof.
  intros m1. unfold History.record. fold m1. unfold History.get.
  destruct (JSMap.get chatId m1) as [h|] eqn:Hget; cbn [JS.nullish].
  - assert (Hhas : JSMap.has chatId m1 = true)
      by (unfold JSMap.has; now rewrite Hget).
    unfold JSMap.has at 1. rewrite JSMap_get_set_same.
    rewrite JSMap_delete_set by assumption.
    apply JSMap_set_new.
    apply JSMap_has_false_keys. intros Hin.
    apply JSMap_keys_delete in Hin. tauto.
  - assert (Hnew : JSMap.has chatId m1 = false)
      by (unfold JSMap.has; now rewrite Hget).
    rewrite (JSMap_set_new chatId [] m1 Hnew).
    rewrite (JSMap_set_last chatId _ _ m1 Hnew).
    unfold JSMap.has at 1. rewrite (JSMap_get_last chatId _ m1 Hnew).
    rewrite (JSMap_delete_last chatId _ m1 Hnew).
    rewrite (JSMap_delete_absent chatId m1 Hnew).
    now apply JSMap_set_new.
Qed.

(** What the eviction loop leaves of a map with distinct keys: of the
    first [n] conversations only those with a falsy key, and everything
    after them. *)
Lemma history_evict_loop_shape (n : nat) :
  forall pre m : History.manager,
    NoDup (JSMap.keys (pre ++ m)) ->
    History.evict_loop (firstn n (JSMap.keys m)) (pre ++ m)
    = pre ++ filter (fun kv => JS.falsy (fst kv)) (firstn n m) ++ skipn n m.
Proof.
  induction n as [|n IH]; intros pre m Hnd.
  - reflexivity.
  - destruct m as [|[k v] m']; [ reflexivity | ].
    cbn [JSMap.keys List.map fst firstn skipn History.evict_loop filter].
    fold (JSMap.keys m').
    unfold JS.falsy at 1. destruct (JS.truthy k) eqn:Hk; cbn [negb].
    + assert (Hnotin : ~ In k (JSMap.keys (pre ++ m'))).
      { unfold JSMap.keys in *. rewrite map_app in *. cbn [List.map fst] in Hnd.
        now apply NoDup_remove_2 in Hnd. }
      assert (Hfree : JSMap.has k (pre ++ m') = false)
        by now apply JSMap_has_false_keys.
      rewrite JSMap_delete_app. cbn [JSMap.delete].
      rewrite String.eqb_refl. rewrite <- JSMap_delete_app.
      rewrite (JSMap_delete_absent k _ Hfree).
      apply IH.
      unfold JSMap.keys in *. rewrite map_app in *. cbn [List.map fst] in Hnd.
      now apply NoDup_remove_1 in Hnd.
    + replace (pre ++ (k, v) :: m') with ((pre ++ [(k, v)]) ++ m')
        by (rewrite <- app_assoc; reflexivity).
      rewrite IH by (rewrite <- app_assoc; exact Hnd).
      rewrite <- app_assoc. reflexivity.
Qed.

Lemma history_evict_shape (n : nat) (m : History.manager) :
  NoDup (JSMap.keys m) ->
  History.evict n m
  = filter (fun kv => JS.falsy (fst kv)) (firstn n m) ++ skipn n m.
Proof.
  intros Hnd. exact (history_evict_loop_shape n [] m Hnd).
Qed.

Lemma history_evict_loop_NoDup (ys : list string) :
  forall m : History.manager,
    NoDup (JSMap.keys m) -> NoDup (JSMap.keys (History.evict_loop ys m)).
Proof.
  induction ys as [|y rest IH]; intros m Hnd; simpl; auto.
  apply IH. destruct (JS.truthy y); auto using JSMap_delete_NoDup.
Qed.

Lemma falsy_keys_at_most_one (m : History.manager) :
  NoDup (JSMap.keys m) ->
  List.length (filter (fun kv => JS.falsy (fst kv)) m) <= 1.
Proof.
  induction m as [|[k v] rest IH]; simpl; intros Hnd; auto.
  inversion Hnd as [|? ? Hnotin Hnd']; subst.
  unfold JS.falsy at 1. destruct (JS.truthy k) eqn:Hk; cbn [negb]; auto.
  destruct k; [ | discriminate Hk ].
  assert (Hnone : filter (fun kv => JS.falsy (fst kv)) rest = []).
  { clear IH Hnd Hnd'. induction rest as [|[k' v'] r IHr]; auto.
    simpl. unfold JS.falsy at 1. destruct (JS.truthy k') eqn:Hk'; cbn [negb].
    - apply IHr. intros Hin. apply Hnotin. now right.
    - destruct k'; [ | discriminate Hk' ]. exfalso. apply Hnotin. now left. }
  rewrite Hnone. simpl. lia.
Qed.

(** Every [record] keeps the keys distinct and leaves at most
    [maxGroups + 2] conversations: the eviction brings the count down to
    [maxGroups] (one more if the conversation with the empty id is among
    the oldest, for [if (key)] spares it) and the insertion adds one. *)
Lemma history_record_bounded (o : History.GroupHistoryManagerOptions)
    (chatId : string) (entry : History.HistoryEntry) (m : History.manager) :
  NoDup (JSMap.keys m) ->
  NoDup (JSMap.keys (History.record o chatId entry m))
  /\ History.groupCount (History.record o chatId entry m)
     <= History.maxGroups o + 2.
Proof.
  intros Hnd. rewrite history_record_shape.
  set (m1 := if (History.maxGroups o <? JSMap.size m)%nat
             then History.evict (JSMap.size m - History.maxGroups o) m
             else m).
  assert (Hnd1 : NoDup (JSMap.keys m1)).
  { subst m1. destruct (History.maxGroups o <? JSMap.size m)%nat; auto.
    now apply history_evict_loop_NoDup. }
  assert (Hsize1 : JSMap.size m1 <= History.maxGroups o + 1).
  { subst m1.
    destruct (History.maxGroups o <? JSMap.size m)%nat eqn:Hover.
    - apply Nat.ltb_lt in Hover.
      rewrite history_evict_shape by assumption.
      unfold JSMap.size in *. rewrite length_app, length_skipn.
      assert (Hfirst : NoDup (JSMap.keys
                (firstn (List.length m - History.maxGroups o) m))).
      { unfold JSMap.keys in *. rewrite <- firstn_map.
        rewrite <- (firstn_skipn (List.length m - History.maxGroups o)
                      (List.map fst m)) in Hnd.
        now apply NoDup_app_remove_r in Hnd. }
      pose proof (falsy_keys_at_most_one _ Hfirst). lia.
    - apply Nat.ltb_ge in Hover. lia. }
  split.
  - unfold JSMap.keys. rewrite map_app. cbn [List.map fst].
    apply NoDup_app.
    + now apply JSMap_delete_NoDup.
    + repeat constructor. simpl. tauto.
    + intros k Hin [Hk|[]]. subst k.
      apply JSMap_keys_delete in Hin. tauto.
  - unfold History.groupCount, JSMap.size in *. rewrite length_app.
    pose proof (JSMap_delete_size chatId m1) as Hdel.
    unfold JSMap.size in Hdel. cbn [List.length]. lia.
Qed.

(** X5.  From the empty manager, no run of [record] calls tracks more
    than [maxGroups + 2] conversations. *)
Lemma history_count_bounded (o : History.GroupHistoryManagerOptions)
    (calls : list (string * History.HistoryEntry)) :
  History.groupCount (History.recordAll o calls History.create)
  <= History.maxGroups o + 2.
Proof.
  assert (H : forall m, NoDup (JSMap.keys m) ->
                History.groupCount m <= History.maxGroups o + 2 ->
                History.groupCount (History.recordAll o calls m)
                <= History.maxGroups o + 2).
  { induction calls as [|[k e] rest IH]; intros m Hnd Hsize; auto.
    cbn [History.recordAll fold_left fst snd].
    apply IH; now apply history_record_bounded. }
  apply H; [ constructor | simpl; lia ].
Qed.

Lemma sample_tally_injective (i : nat) :
  forall j : nat, Sample.tally i = Sample.tally j -> i = j.
Proof.
  induction i as [|i IH]; intros [|j] H; simpl in H;
    try discriminate; auto.
  injection H as H. f_equal. now apply IH.
Qed.

Lemma sample_fresh_nodup (n : nat) : NoDup (List.map Sample.fresh (seq 0 n)).
Proof.
  apply Injective_map_NoDup.
  - intros i j H. unfold Sample.fresh in H. simpl in H.
    injection H as H. now apply sample_tally_injective.
  - apply seq_NoDup.
Qed.

(** C10.  [clear] on a conversation that is not tracked inserts it with an
    empty entry list, so [groupCount] grows by one; [clear] runs no
    eviction (it does not read [maxGroups]), so clearing [n] distinct
    untracked conversations grows the count by [n], past any bound. *)
Theorem history_clear_inserts_untracked :
  (forall (chatId : string) (m : History.manager),
      JSMap.has chatId m = false ->
      History.groupCount (History.clear chatId m) = S (History.groupCount m)
      /\ JSMap.has chatId (History.clear chatId m) = true
      /\ History.get chatId (History.clear chatId m) = [])
  /\ (forall (ids : list string) (m : History.manager),
         NoDup ids ->
         (forall id, In id ids -> JSMap.has id m = false) ->
         History.groupCount (History.clearEach ids m)
         = History.groupCount m + List.length ids)
  /\ (forall (o : History.GroupHistoryManagerOptions) (bound : nat),
         exists ids : list string,
           History.maxGroups o + bound
           < History.groupCount (History.clearEach ids History.create)).
Proof.
  split; [ | split ].
  - intros chatId m. apply history_clear_untracked.
  - intros ids m. apply history_clearEach_untracked.
  - intros o bound.
    exists (List.map Sample.fresh (seq 0 (S (History.maxGroups o + bound)))).
    rewrite history_clearEach_untracked.
    + rewrite length_map, length_seq.
      unfold History.groupCount, History.create, JSMap.size, JSMap.empty.
      simpl. lia.
    + apply sample_fresh_nodup.
    + intros id _. reflexivity.
Qed.

(** Three conversations cleared on the empty manager. *)
Lemma history_clear_inserts_untracked_witness :
  NoDup ["oc_a"; "oc_b"; "oc_c"]
  /\ History.groupCount
       (History.clearEach ["oc_a"; "oc_b"; "oc_c"] History.create)
     = History.groupCount History.create + 3.
Proof.
  assert (Hnd : NoDup ["oc_a"; "oc_b"; "oc_c"]).
  { repeat constructor; simpl; intuition discriminate. }
  split; [ exact Hnd | ].
  apply (proj1 (proj2 history_clear_inserts_untracked)
           ["oc_a"; "oc_b"; "oc_c"] History.create Hnd).
  intros id _. reflexivity.
Defined.

(** C1.  Recording into 101 distinct conversations under the default cap of
    100 leaves all 101 tracked, the least recently touched one with its
    entry: [record] tests [size > maxGroups] before it inserts.  The oldest
    conversation goes only at the 102nd call. *)
Theorem history_101_conversations_all_tracked :
  let m101 :=
    History.recordAll History.defaults (Sample.distinct_records 101)
      History.create in
  let m102 :=
    History.recordAll History.defaults (Sample.distinct_records 102)
      History.create in
  History.maxGroups History.defaults = 100
  /\ History.groupCount m101 = 101
  /\ History.get (Sample.chat 0) m101 = [Sample.entry (Sample.chat 0)]
  /\ History.groupCount m102 = 101
  /\ History.get (Sample.chat 0) m102 = [].
Proof. vm_compute. repeat split; reflexivity. Qed.

(** ** dedupe.ts *)

Lemma falsy_is_empty (s : string) : JS.falsy s = true -> s = "".
Proof. destruct s; simpl; [ reflexivity | discriminate ]. Qed.

Lemma includes_In (x : string) (s : list string) :
  JS.includes x s = true <-> In x s.
Proof.
  induction s as [|y rest IH]; simpl.
  - split; [ discriminate | contradiction ].
  - destruct (String.eqb y x) eqn:Hy.
    + apply String.eqb_eq in Hy. split; auto.
    + apply String.eqb_neq in Hy. rewrite IH. split; auto.
      intros [H|H]; [ contradiction | assumption ].
Qed.

Lemma JSSet_delete_notin (x : string) (s : JSSet.t) :
  ~ In x s -> JSSet.delete x s = s.
Proof.
  induction s as [|y rest IH]; simpl; intros H; auto.
  destruct (String.eqb y x) eqn:Hy.
  - apply String.eqb_eq in Hy. subst. exfalso. apply H. now left.
  - f_equal. apply IH. intros Hin. apply H. now right.
Qed.

Lemma JSSet_delete_app (x : string) (a b : JSSet.t) :
  JSSet.delete x (a ++ b) = JSSet.delete x a ++ JSSet.delete x b.
Proof.
  induction a as [|y rest IH]; simpl; auto.
  destruct (String.eqb y x); simpl; now rewrite IH.
Qed.

Lemma JSSet_delete_incl (x y : string) (s : JSSet.t) :
  In y (JSSet.delete x s) -> In y s.
Proof.
  induction s as [|z rest IH]; simpl; auto.
  destruct (String.eqb z x); simpl; intuition.
Qed.

Lemma JSSet_delete_NoDup (x : string) (s : JSSet.t) :
  NoDup s -> NoDup (JSSet.delete x s).
Proof.
  induction 1 as [|y rest Hnotin Hnd IH]; simpl; [ constructor | ].
  destruct (String.eqb y x); auto.
  constructor; auto. intros Hin. apply Hnotin.
  eapply JSSet_delete_incl; eauto.
Qed.

Lemma JSSet_add_NoDup (x : string) (s : JSSet.t) :
  NoDup s -> NoDup (JSSet.add x s).
Proof.
  intros Hnd. unfold JSSet.add, JSSet.has.
  destruct (JS.includes x s) eqn:Hin; auto.
  apply NoDup_app; auto.
  - repeat constructor. simpl. tauto.
  - intros y Hy [Hx|[]]. subst y.
    apply includes_In in Hy. congruence.
Qed.

Lemma JSSet_add_size (x : string) (s : JSSet.t) :
  JSSet.size (JSSet.add x s) <= S (JSSet.size s).
Proof.
  unfold JSSet.add, JSSet.size. destruct (JSSet.has x s); auto.
  rewrite length_app. simpl. lia.
Qed.

(** What the cleanup loop leaves of a duplicate-free set: of the first
    [n] values only the falsy ones, and everything after them. *)
Lemma dedupe_cleanup_loop_shape (n : nat) :
  forall pre c : list string,
    NoDup (pre ++ c) ->
    Dedupe.cleanup_loop (firstn n c) (pre ++ c)
    = pre ++ filter JS.falsy (firstn n c) ++ skipn n c.
Proof.
  induction n as [|n IH]; intros pre c Hnd.
  - reflexivity.
  - destruct c as [|x c']; [ reflexivity | ].
    cbn [firstn skipn Dedupe.cleanup_loop filter].
    unfold JS.falsy at 1. destruct (JS.truthy x) eqn:Hx; cbn [negb].
    + assert (Hnotin : ~ In x (pre ++ c')) by now apply NoDup_remove_2.
      rewrite JSSet_delete_app. cbn [JSSet.delete].
      rewrite String.eqb_refl.
      rewrite !JSSet_delete_notin
        by (intros Hin; apply Hnotin; apply in_or_app; auto).
      apply IH. now apply NoDup_remove_1 in Hnd.
    + replace (pre ++ x :: c') with ((pre ++ [x]) ++ c')
        by (rewrite <- app_assoc; reflexivity).
      rewrite IH by (rewrite <- app_assoc; exact Hnd).
      rewrite <- app_assoc. reflexivity.
Qed.

Lemma dedupe_cleanup_shape (n : nat) (c : Dedupe.cache) :
  NoDup c ->
  Dedupe.cleanup n c = filter JS.falsy (firstn n c) ++ skipn n c.
Proof.
  intros Hnd. unfold Dedupe.cleanup.
  exact (dedupe_cleanup_loop_shape n [] c Hnd).
Qed.

Lemma filter_falsy_absent (l : list string) :
  ~ In "" l -> filter JS.falsy l = [].
Proof.
  induction l as [|x rest IH]; simpl; intros H; auto.
  destruct (JS.falsy x) eqn:Hx.
  - apply falsy_is_empty in Hx. subst. exfalso. apply H. now left.
  - apply IH. intros Hin. apply H. now right.
Qed.

Lemma filter_falsy_NoDup (l : list string) :
  NoDup l -> List.length (filter JS.falsy l) <= 1.
Proof.
  induction 1 as [|x rest Hnotin Hnd IH]; simpl; auto.
  destruct (JS.falsy x) eqn:Hx; auto.
  apply falsy_is_empty in Hx. subst x.
  rewrite filter_falsy_absent by assumption. simpl. lia.
Qed.

Lemma filter_falsy_truthy (l : list string) :
  Forall (fun x => JS.truthy x = true) l -> filter JS.falsy l = [].
Proof.
  induction 1 as [|x rest Hx _ IH]; simpl; auto.
  unfold JS.falsy at 1. now rewrite Hx.
Qed.

Lemma firstn_NoDup {A : Type} (n : nat) (l : list A) :
  NoDup l -> NoDup (firstn n l).
Proof.
  intros H. rewrite <- (firstn_skipn n l) in H.
  now apply NoDup_app_remove_r in H.
Qed.

Lemma dedupe_cleanup_NoDup (ys : list string) :
  forall c : Dedupe.cache, NoDup c -> NoDup (Dedupe.cleanup_loop ys c).
Proof.
  induction ys as [|y rest IH]; intros c Hnd; simpl; auto.
  apply IH. destruct (JS.truthy y); auto using JSSet_delete_NoDup.
Qed.

Lemma dedupe_markProcessed_NoDup (o : Dedupe.DedupeCacheOptions)
    (id : string) (c : Dedupe.cache) :
  NoDup c -> NoDup (Dedupe.markProcessed o id c).
Proof.
  intros Hnd. unfold Dedupe.markProcessed.
  apply JSSet_add_NoDup.
  destruct (Dedupe.maxSize o <=? JSSet.size c)%nat; auto.
  now apply dedupe_cleanup_NoDup.
Qed.

(** X2.  With identifiers that are not empty, a call at or over capacity
    evicts exactly the [size - cleanupThreshold] oldest entries, then
    inserts. *)
Lemma dedupe_markProcessed_evicts_oldest (o : Dedupe.DedupeCacheOptions)
    (id : string) (c : Dedupe.cache) :
  NoDup c ->
  Forall (fun x => JS.truthy x = true) c ->
  Dedupe.maxSize o <= Dedupe.size c ->
  Dedupe.markProcessed o id c
  = JSSet.add id (skipn (Dedupe.size c - Dedupe.cleanupThreshold o) c).
Proof.
  intros Hnd Hall Hfull. unfold Dedupe.markProcessed, Dedupe.size in *.
  apply Nat.leb_le in Hfull. rewrite Hfull.
  rewrite dedupe_cleanup_shape by assumption.
  rewrite filter_falsy_truthy; [ reflexivity | ].
  rewrite <- (firstn_skipn (JSSet.size c - Dedupe.cleanupThreshold o) c)
    in Hall.
  now apply Forall_app in Hall.
Qed.

(** One call keeps the size within [maxSize] when the low-water mark leaves
    room for the empty identifier the cleanup skips and for the new one. *)
Lemma dedupe_markProcessed_bounded (o : Dedupe.DedupeCacheOptions)
    (id : string) (c : Dedupe.cache) :
  Dedupe.cleanupThreshold o + 2 <= Dedupe.maxSize o ->
  NoDup c ->
  Dedupe.size c <= Dedupe.maxSize o ->
  Dedupe.size (Dedupe.markProcessed o id c) <= Dedupe.maxSize o.
Proof.
  intros Hroom Hnd Hsize. unfold Dedupe.markProcessed, Dedupe.size in *.
  destruct (Dedupe.maxSize o <=? JSSet.size c)%nat eqn:Hfull.
  - apply Nat.leb_le in Hfull.
    etransitivity; [ apply JSSet_add_size | ].
    rewrite dedupe_cleanup_shape by assumption.
    unfold JSSet.size in *. rewrite length_app, length_skipn.
    pose proof (filter_falsy_NoDup
                  (firstn (List.length c - Dedupe.cleanupThreshold o) c)
                  (firstn_NoDup _ _ Hnd)).
    lia.
  - apply Nat.leb_gt in Hfull.
    etransitivity; [ apply JSSet_add_size | ]. lia.
Qed.

(** X1.  From the empty cache, no run of [markProcessed] calls makes the
    size exceed [maxSize], whatever the identifiers, when
    [cleanupThreshold + 2 <= maxSize] (as under the defaults). *)
Lemma dedupe_size_never_exceeds_maxSize (o : Dedupe.DedupeCacheOptions)
    (ids : list string) :
  Dedupe.cleanupThreshold o + 2 <= Dedupe.maxSize o ->
  Dedupe.size (Dedupe.markAll o ids Dedupe.create) <= Dedupe.maxSize o.
Proof.
  intros Hroom.
  assert (H : forall c, NoDup c -> Dedupe.size c <= Dedupe.maxSize o ->
                NoDup (Dedupe.markAll o ids c)
                /\ Dedupe.size (Dedupe.markAll o ids c) <= Dedupe.maxSize o).
  { induction ids as [|id rest IH]; intros c Hnd Hsize; simpl; auto.
    apply IH.
    - now apply dedupe_markProcessed_NoDup.
    - now apply dedupe_markProcessed_bounded. }
  apply H; [ constructor | simpl; lia ].
Qed.

(** C3.  At capacity with the empty identifier among the oldest entries,
    [markProcessed] evicts 199 entries, not [size - cleanupThreshold] = 200:
    the loop spends one of its 200 turns on the empty identifier, which
    [if (value)] refuses to delete, so the empty identifier stays first and
    802 entries remain after the insertion. *)
Theorem dedupe_cleanup_skips_empty_id :
  let full :=
    Dedupe.markAll Dedupe.defaults ("" :: Sample.msgids 999) Dedupe.create in
  let after := Dedupe.markProcessed Dedupe.defaults (Sample.msgid 999) full in
  let toDelete := Dedupe.size full - Dedupe.cleanupThreshold Dedupe.defaults in
  Dedupe.size full = Dedupe.maxSize Dedupe.defaults
  /\ toDelete = 200
  /\ Dedupe.size full - Dedupe.size (Dedupe.cleanup toDelete full) = 199
  /\ Dedupe.size after = 802
  /\ firstn 2 after = [""; Sample.msgid 199]
  /\ Dedupe.isProcessed "" after = true.
Proof. vm_compute. repeat split; reflexivity. Qed.

(** ** context.ts: the access gate *)

Lemma truthy_or_else (a b : option string) :
  JS.truthy_opt (JS.or_else a b) = JS.truthy_opt a || JS.truthy_opt b.
Proof.
  unfold JS.or_else. destruct (JS.truthy_opt a) eqn:Ha; simpl; auto.
Qed.

(** [buildFeishuMessageContext] returns [null] exactly when the gate
    blocks, whatever the agent runtime makes of the rest. *)
Lemma buildFeishuMessageContext_null (Ctx : Type)
    (assemble :
       Message.FeishuInboundMessage -> Types.ResolvedFeishuAccount ->
       option string -> option string -> list History.HistoryEntry -> Ctx)
    (message : Message.FeishuInboundMessage)
    (account : Types.ResolvedFeishuAccount)
    (botOpenId botName : option string)
    (pendingHistory : list History.HistoryEntry) :
  Context.buildFeishuMessageContext Ctx assemble message account botOpenId
    botName pendingHistory = None
  <-> Context.allows (Context.gate message account botOpenId botName) = false.
Proof.
  unfold Context.buildFeishuMessageContext.
  destruct (Context.gate message account botOpenId botName); cbn;
    split; intros H; try reflexivity; discriminate H.
Qed.

(** X9.  What the DM block decides, policy by policy: "disabled" blocks,
    "open" passes, "allowlist" passes exactly the senders an empty or
    matching [allowFrom] accepts, and "pairing" (also the default) passes
    every sender. *)
Lemma dm_gate_decision (message : Message.FeishuInboundMessage)
    (account : Types.ResolvedFeishuAccount)
    (botOpenId botName : option string) :
  Message.chatType message = Message.Direct ->
  let allowFrom := JS.nullish (Types.allowFrom (Types.config account)) [] in
  let sender :=
    JS.nullish (Message.senderOpenId message) (Message.senderId message) in
  let decision := Context.gate message account botOpenId botName in
  match JS.nullish (Types.dmPolicy (Types.config account)) Types.DmPairing with
  | Types.DmDisabled => decision = Context.Blocked Context.DmDisabledBlock
  | Types.DmOpen => decision = Context.Passed false
  | Types.DmAllowlist =>
      Context.allows decision = true
      <-> (allowFrom = [] \/ JS.includes sender allowFrom = true)
  | Types.DmPairing => decision = Context.Passed false
  end.
Proof.
  intros Hdm. unfold Context.gate. rewrite Hdm. unfold Context.dmGate.
  destruct (JS.nullish (Types.dmPolicy (Types.config account)) Types.DmPairing);
    cbn [Types.FeishuDmPolicy_eqb negb andb]; try reflexivity.
  - rewrite andb_false_r. reflexivity.
  - rewrite andb_true_r.
    destruct (JS.nullish (Types.allowFrom (Types.config account)) [])
      as [|a rest] eqn:Hallow; cbn.
    + split; auto.
    + destruct (if String.eqb a _ then true else JS.includes _ rest) eqn:Hin;
        cbn; split; auto; try discriminate.
      intros [H|H]; discriminate.
Qed.

(** C2.  Under "pairing" a sender absent from a non-empty [allowFrom] is let
    through: the block returns [null] only when [dmPolicy === "allowlist"].
    The same sender is blocked under "allowlist". *)
Theorem dm_pairing_passes_unlisted_sender :
  let message :=
    Sample.inbound Message.Direct "ou_stranger" "ou_stranger" "hi" None None in
  let pairing :=
    Sample.policy (Some Types.DmPairing) (Some ["ou_admin"]) None true
      Types.RenderAuto in
  let allowlist :=
    Sample.policy (Some Types.DmAllowlist) (Some ["ou_admin"]) None true
      Types.RenderAuto in
  JS.includes "ou_stranger" ["ou_admin"] = false
  /\ Context.gate message pairing (Some "ou_bot") (Some "OpenClaw")
     = Context.Passed false
  /\ Context.gate message allowlist (Some "ou_bot") (Some "OpenClaw")
     = Context.Blocked Context.UnauthorizedDmSender.
Proof. repeat split; reflexivity. Qed.

Lemma existsb_none {A : Type} (f : A -> bool) (l : list A) :
  existsb f l = false <-> forall x, In x l -> f x = false.
Proof.
  induction l as [|a rest IH]; cbn.
  - split; [ intros _ x [] | reflexivity ].
  - rewrite orb_false_iff, IH. split.
    + intros [Ha Hrest] x [<- | Hx]; auto.
    + intros H. split; [ apply H; now left | intros x Hx; apply H; now right ].
Qed.

(** An event that does not mention the responder in the sense of the
    specification, and whose text does not name it when it has mentions,
    fails the mention test of the gate. *)
Lemma unmentioned_fails_gate_test (message : Message.FeishuInboundMessage)
    (botOpenId botName : option string) :
  Tagging.mentioned message botOpenId botName = false ->
  Message.no_mentions message = true
  \/ Tagging.namedInText message botName = false ->
  Context.isBotMentioned message botOpenId botName = false.
Proof.
  intros Hnot Htext. unfold Context.isBotMentioned.
  destruct (Message.no_mentions message) eqn:Hnone; [ reflexivity | ].
  destruct Htext as [H | Htext]; [ discriminate H | ].
  unfold Tagging.mentioned in Hnot. rewrite existsb_none in Hnot.
  assert (Hid : JS.truthy_opt botOpenId
                && existsb
                     (fun m => String.eqb (Message.id m)
                                 (JS.nullish botOpenId ""))
                     (Message.mention_list message) = false).
  { destruct botOpenId as [bot|]; [ | reflexivity ].
    apply andb_false_iff. right. apply existsb_none. intros m Hm.
    specialize (Hnot m Hm). apply orb_false_iff in Hnot as [Hnot _].
    apply orb_false_iff in Hnot as [Hnot _]. exact Hnot. }
  rewrite Hid.
  destruct botName as [bot|]; [ | reflexivity ].
  destruct (JS.truthy_opt (Some bot)); [ | reflexivity ].
  cbn [JS.nullish].
  assert (Hname : existsb
                    (fun m =>
                       JS.truthy (Message.name m)
                       && String.eqb
                            (Context.normalizeMentionName (Message.name m))
                            (Context.normalizeMentionName bot))
                    (Message.mention_list message) = false).
  { apply existsb_none. intros m Hm.
    specialize (Hnot m Hm). apply orb_false_iff in Hnot as [Hnot _].
    apply orb_false_iff in Hnot as [_ Hnot].
    cbn [Tagging.byName] in Hnot. rewrite Hnot. apply andb_false_r. }
  rewrite Hname. exact Htext.
Qed.

(** C4, as amended.  For a group event that reaches the mention check
    (group policy not "disabled") under a policy whose [requireMention] is
    true, when the responder is not mentioned and the text of an event
    with mentions does not hold "@" followed by its name: the event is
    blocked if the responder's open id or name was resolved, and it is
    let through, with the warning, exactly when neither was. *)
Theorem group_gate_unmentioned_fail_open
    (message : Message.FeishuInboundMessage)
    (account : Types.ResolvedFeishuAccount)
    (botOpenId botName : option string) :
  Message.chatType message = Message.Group ->
  JS.nullish (Types.groupPolicy (Types.config account)) Types.GroupAllowlist
  <> Types.GroupDisabled ->
  Types.requireMention account = true ->
  Tagging.mentioned message botOpenId botName = false ->
  Message.no_mentions message = true
  \/ Tagging.namedInText message botName = false ->
  let decision := Context.gate message account botOpenId botName in
  (JS.truthy_opt botOpenId = true \/ JS.truthy_opt botName = true ->
   decision = Context.Blocked Context.NoMention)
  /\ (Context.allows decision = true
      <-> JS.truthy_opt botOpenId = false /\ JS.truthy_opt botName = false)
  /\ (Context.allows decision = true -> decision = Context.Passed true).
Proof.
  intros Hgroup Hpolicy Hreq Hnot Htext.
  pose proof (unmentioned_fails_gate_test message botOpenId botName Hnot Htext)
    as Hflag.
  unfold Context.gate. rewrite Hgroup.
  unfold Context.groupGate. rewrite Hreq, Hflag, truthy_or_else.
  destruct (JS.nullish (Types.groupPolicy (Types.config account))
              Types.GroupAllowlist);
    [ | | contradiction ]; cbn [Types.FeishuGroupPolicy_eqb andb negb];
    destruct (JS.truthy_opt botOpenId), (JS.truthy_opt botName); cbn;
    repeat split; intros; try reflexivity; try discriminate;
    try tauto; intuition discriminate.
Qed.

(** An open group, mention required, another member mentioned, the
    responder identified by its open id. *)
Lemma group_gate_unmentioned_fail_open_witness :
  Context.gate
    (Sample.inbound Message.Group "oc_team" "ou_member" "@Ann lunch?"
       (Some [{| Message.key := "@_user_1"; Message.id := "ou_ann";
                 Message.name := "Ann" |}])
       None)
    (Sample.policy None None (Some Types.GroupOpen) true Types.RenderAuto)
    (Some "ou_bot") None
  = Context.Blocked Context.NoMention.
Proof.
  apply (group_gate_unmentioned_fail_open
           (Sample.inbound Message.Group "oc_team" "ou_member" "@Ann lunch?"
              (Some [{| Message.key := "@_user_1"; Message.id := "ou_ann";
                        Message.name := "Ann" |}])
              None)
           (Sample.policy None None (Some Types.GroupOpen) true
              Types.RenderAuto)
           (Some "ou_bot") None).
  - reflexivity.
  - simpl. discriminate.
  - reflexivity.
  - reflexivity.
  - right. reflexivity.
  - left. reflexivity.
Defined.

(** The claim fails as stated: in a group that is not disabled, with
    [requireMention] true and the identity of the responder resolved, an
    event that tags only another member is let through when its text
    holds "@" followed by the name of the responder. *)
Lemma group_gate_passes_on_name_in_text :
  let message :=
    Sample.inbound Message.Group "oc_team" "ou_member" "@Ann ask @helper"
      (Some [{| Message.key := "@_user_1"; Message.id := "ou_ann";
                Message.name := "Ann" |}])
      None in
  let account :=
    Sample.policy None None (Some Types.GroupOpen) true Types.RenderAuto in
  Message.chatType message = Message.Group
  /\ Types.requireMention account = true
  /\ Tagging.mentioned message (Some "ou_bot") (Some "Helper") = false
  /\ JS.truthy_opt (Some "ou_bot") = true
  /\ Context.gate message account (Some "ou_bot") (Some "Helper")
     = Context.Passed false
  /\ Context.allows
       (Context.gate message account (Some "ou_bot") (Some "Helper"))
     = true.
Proof. repeat split; reflexivity. Qed.

(** With the group policy "disabled" the event is blocked before the
    mention check, also when [requireMention] is true, the responder is
    not mentioned and neither its open id nor its name is resolved. *)
Lemma group_gate_disabled_blocks_unidentified :
  let message :=
    Sample.inbound Message.Group "oc_team" "ou_member" "hello" None None in
  let account :=
    Sample.policy None None (Some Types.GroupDisabled) true Types.RenderAuto in
  Message.chatType message = Message.Group
  /\ Types.requireMention account = true
  /\ Context.isBotMentioned message None None = false
  /\ JS.truthy_opt (JS.or_else None None) = false
  /\ Context.allows (Context.gate message account None None) = false.
Proof. repeat split; reflexivity. Qed.

(** The [isBotMentioned] of webhook.ts counts an "@everyone" token as a
    mention, whatever the identity of the responder. *)
Lemma webhook_isBotMentioned_at_all (message : Message.FeishuInboundMessage)
    (mention : Message.Mention) (botOpenId botName : option string) :
  In mention (Message.mention_list message) ->
  Message.key mention = "@_all" ->
  Webhook.isBotMentioned message botOpenId botName = true.
Proof.
  intros Hin Hkey. unfold Webhook.isBotMentioned, Message.no_mentions.
  unfold Message.mention_list in *.
  destruct (Message.mentions message) as [[|m ms]|]; cbn in Hin;
    try contradiction.
  cbn [JS.nullish]. apply existsb_exists. exists mention.
  split; [ exact Hin | ].
  rewrite Hkey. cbn.
  destruct (JS.truthy_opt botOpenId && _); auto.
  destruct (JS.truthy_opt botName && _); auto.
Qed.

(** C5.  A group message whose only mention is the "@everyone" token does
    not count as mentioning the responder at the gate: the [isBotMentioned]
    of context.ts, which the gate calls, has no "@_all" case, while the one
    exported by webhook.ts has. *)
Theorem gate_ignores_at_all_mention :
  let message :=
    Sample.inbound Message.Group "oc_team" "ou_member" "@everyone hello"
      (Some [Sample.at_all]) None in
  let account :=
    Sample.policy None None (Some Types.GroupOpen) true Types.RenderAuto in
  Message.key Sample.at_all = "@_all"
  /\ Webhook.isBotMentioned message (Some "ou_bot") (Some "OpenClaw") = true
  /\ Context.isBotMentioned message (Some "ou_bot") (Some "OpenClaw") = false
  /\ Context.gate message account (Some "ou_bot") (Some "OpenClaw")
     = Context.Blocked Context.NoMention.
Proof. repeat split; reflexivity. Qed.

(** ** websocket.ts: reconnection of the native client *)

Lemma ws_connect_keeps_attempts (o : Websocket.ConnectOutcome)
    (c : Websocket.client) :
  Websocket.reconnectAttempts (fst (Websocket.connect o c))
  = Websocket.reconnectAttempts c.
Proof. destruct o; reflexivity. Qed.

Lemma ws_onclose_attempts (c : Websocket.client) :
  Websocket.reconnectAttempts (fst (Websocket.onclose c))
  = Nat.min (S (Websocket.reconnectAttempts c))
      (Nat.max (Websocket.reconnectAttempts c) Websocket.maxReconnectAttempts).
Proof.
  unfold Websocket.onclose, Websocket.setState, Websocket.cleanup.
  cbn [Websocket.reconnectAttempts].
  destruct (Websocket.reconnectAttempts c <? Websocket.maxReconnectAttempts)%nat
    eqn:Hlt; cbn [fst Websocket.reconnectAttempts].
  - apply Nat.ltb_lt in Hlt. lia.
  - apply Nat.ltb_ge in Hlt. lia.
Qed.

Lemma ws_onclose_schedules (c : Websocket.client) :
  Websocket.reconnectAttempts c < Websocket.maxReconnectAttempts ->
  let delay :=
    (Websocket.baseReconnectDelay
     * 2 ^ Z.of_nat (Websocket.reconnectAttempts c))%Z in
  snd (Websocket.onclose c)
  = [Websocket.StateChange Websocket.disconnected;
     Websocket.StateChange Websocket.reconnecting;
     Websocket.SetTimeout delay]
  /\ Websocket.state (fst (Websocket.onclose c)) = Websocket.reconnecting
  /\ Websocket.reconnectTimeout (fst (Websocket.onclose c)) = Some delay.
Proof.
  intros Hlt.
  unfold Websocket.onclose, Websocket.setState, Websocket.cleanup.
  cbn [Websocket.reconnectAttempts].
  apply Nat.ltb_lt in Hlt. rewrite Hlt.
  cbn [fst snd app Websocket.state Websocket.reconnectTimeout
       Websocket.reconnectAttempts].
  auto.
Qed.

Lemma ws_onclose_gives_up (c : Websocket.client) :
  Websocket.maxReconnectAttempts <= Websocket.reconnectAttempts c ->
  snd (Websocket.onclose c) = [Websocket.StateChange Websocket.disconnected]
  /\ Websocket.state (fst (Websocket.onclose c)) = Websocket.disconnected
  /\ Websocket.reconnectTimeout (fst (Websocket.onclose c)) = None.
Proof.
  intros Hge.
  unfold Websocket.onclose, Websocket.setState, Websocket.cleanup.
  cbn [Websocket.reconnectAttempts].
  apply Nat.ltb_ge in Hge. rewrite Hge.
  cbn [fst snd Websocket.state Websocket.reconnectTimeout]. auto.
Qed.

Lemma ws_run_step (e : Websocket.event) (rest : list Websocket.event)
    (c : Websocket.client) :
  fst (Websocket.run (e :: rest) c)
  = fst (Websocket.run rest (fst (Websocket.step e c))).
Proof.
  cbn [Websocket.run]. destruct (Websocket.step e c) as [c1 a1].
  cbn [fst]. destruct (Websocket.run rest c1) as [c2 a2]. reflexivity.
Qed.


(** The counter never exceeds the maximum, with or without [stop]. *)
Lemma ws_attempts_bounded (evs : list Websocket.event) :
  forall c : Websocket.client,
    Websocket.reconnectAttempts c <= Websocket.maxReconnectAttempts ->
    Websocket.reconnectAttempts (fst (Websocket.run evs c))
    <= Websocket.maxReconnectAttempts.
Proof.
  induction evs as [|e rest IH]; intros c Hc; auto.
  rewrite ws_run_step. apply IH.
  destruct e; cbn [Websocket.step].
  - now rewrite ws_connect_keeps_attempts.
  - destruct (Websocket.reconnectTimeout c); auto.
    now rewrite ws_connect_keeps_attempts.
  - cbn. unfold Websocket.maxReconnectAttempts. lia.
  - rewrite ws_onclose_attempts. lia.
  - cbn. lia.
Qed.



(** ** inbound.ts: reply context *)

(** How [api.getMessage] reports a failed fetch: a thrown request is
    rethrown, an error code and an empty item list give [ok: false]. *)
Lemma api_getMessage_failure (E : Json.Engine)
    (response : Json.Throws Api.FeishuApiResponse) :
  (forall err, response = Json.Throw err ->
     Api.getMessage E response = Json.Throw err)
  /\ (forall r, response = Json.Ok r ->
        Api.code r <> 0%Z \/ JS.nullish (Api.items r) [] = [] ->
        exists result,
          Api.getMessage E response = Json.Ok result
          /\ Api.ok result = false /\ Api.message result = None).
Proof.
  split.
  - intros err ->. reflexivity.
  - intros r -> Hfail. unfold Api.getMessage, Json.bind.
    destruct (Api.code r =? 0)%Z eqn:Hcode; cbn [negb].
    + destruct Hfail as [Hne | Hnone].
      * apply Z.eqb_eq in Hcode. contradiction.
      * rewrite Hnone. eexists. repeat split; reflexivity.
    + eexists. repeat split; reflexivity.
Qed.

(** C8.  [fetchReplyContext] returns the event it was given when the event
    has no parent id, when [getMessage] throws, and when its result is not
    ok or carries no message; with [api.getMessage] as the collaborator
    that covers a thrown request, an error code of the platform and a
    message that is not found. *)
Theorem reply_context_failure_returns_event
    (inbound : Message.FeishuInboundMessage) :
  (forall getMessage : string -> Json.Throws Api.GetMessageResult,
      let parent := JS.nullish (Message.parentId inbound) "" in
      JS.truthy_opt (Message.parentId inbound) = false
      \/ (exists err, getMessage parent = Json.Throw err)
      \/ (exists result,
            getMessage parent = Json.Ok result
            /\ (Api.ok result = false \/ Api.message result = None)) ->
      fst (Inbound.fetchReplyContext getMessage inbound) = inbound)
  /\ (forall (E : Json.Engine)
             (request : string -> Json.Throws Api.FeishuApiResponse),
         let parent := JS.nullish (Message.parentId inbound) "" in
         (exists err, request parent = Json.Throw err)
         \/ (exists r,
               request parent = Json.Ok r
               /\ (Api.code r <> 0%Z \/ JS.nullish (Api.items r) [] = [])) ->
         fst (Inbound.fetchReplyContext
                (fun id => Api.getMessage E (request id)) inbound)
         = inbound).
Proof.
  assert (Hgen :
    forall getMessage : string -> Json.Throws Api.GetMessageResult,
      JS.truthy_opt (Message.parentId inbound) = false
      \/ (exists err,
            getMessage (JS.nullish (Message.parentId inbound) "")
            = Json.Throw err)
      \/ (exists result,
            getMessage (JS.nullish (Message.parentId inbound) "")
            = Json.Ok result
            /\ (Api.ok result = false \/ Api.message result = None)) ->
      fst (Inbound.fetchReplyContext getMessage inbound) = inbound).
  { intros getMessage H. unfold Inbound.fetchReplyContext.
    destruct (JS.truthy_opt (Message.parentId inbound)) eqn:Hparent;
      cbn [negb]; [ | reflexivity ].
    destruct H as [H | [[err H] | [result [H Hbad]]]].
    - discriminate H.
    - rewrite H. reflexivity.
    - rewrite H. destruct Hbad as [Hok | Hmsg].
      + rewrite Hok. reflexivity.
      + rewrite Hmsg. destruct (Api.ok result); reflexivity. }
  split.
  - exact Hgen.
  - intros E request parent H. apply Hgen. right.
    destruct (api_getMessage_failure E (request parent)) as [Hthrow Hfail].
    destruct H as [[err H] | [r [H Hbad]]].
    + left. exists err. now apply Hthrow.
    + right. destruct (Hfail r H Hbad) as [result (Hres & Hok & Hmsg)].
      exists result. split; [ exact Hres | now left ].
Qed.

(** A reply whose parent the platform does not find. *)
Lemma reply_context_failure_returns_event_witness :
  let inbound :=
    Sample.inbound Message.Group "oc_team" "ou_member" "hello" None
      (Some "om_parent") in
  let getMessage :=
    fun _ : string =>
      Json.Ok {| Api.ok := false; Api.message := None;
                 Api.error := Some "Message not found" |} in
  fst (Inbound.fetchReplyContext getMessage inbound) = inbound.
Proof.
  apply (proj1 (reply_context_failure_returns_event
                  (Sample.inbound Message.Group "oc_team" "ou_member" "hello"
                     None (Some "om_parent")))).
  right. right. eexists. split; [ reflexivity | left; reflexivity ].
Defined.

(** ** webhook.ts: normalization *)




(** When every placeholder compiles, the loop returns. *)
Lemma replaceMentions_returns (E : Json.Engine)
    (mentions : list Message.Mention) :
  Forall (fun m => exists re, Json.RegExp_new E (Message.key m) = inr re)
    mentions ->
  forall displayText,
  exists d, Webhook.replaceMentions E mentions displayText = Json.Ok d.
Proof.
  induction 1 as [|m rest [re Hre] _ IH]; intros displayText.
  - now exists displayText.
  - cbn [Webhook.replaceMentions]. rewrite Hre. apply IH.
Qed.





(** ** api.ts and dispatch.ts: render mode *)

(** [sendSmart] and [replyMessage] honour the mode "raw": whatever the
    text, the message is not a card. *)
Lemma send_raw_is_plain (account : Types.ResolvedFeishuAccount)
    (target text : string) :
  Api.sendSmart account target text (Some Types.RenderRaw)
  = Api.SendText target (Api.markdownTableToAscii text)
  /\ Api.replyMessage account target text (Some Types.RenderRaw)
     = Api.ReplyText target text.
Proof. split; reflexivity. Qed.

(** [deliver] overrides the mode of the account for every text the
    classifier finds rich. *)
Lemma deliver_rich_text_as_card (account : Types.ResolvedFeishuAccount)
    (chatId messageId text : string) (isGroup : bool) :
  Api.shouldUseCardRendering text = true ->
  exists o,
    Dispatch.deliver account chatId isGroup messageId text = Some o
    /\ Api.is_card o = true /\ Api.sent_text o = text.
Proof.
  intros Hrich.
  unfold Dispatch.deliver, Dispatch.deliverPayload, Dispatch.deliverRenderMode.
  cbn [JS.nullish JS.truthy_opt]. rewrite Hrich.
  destruct (JS.truthy text) eqn:Htext.
  - unfold Dispatch.defaultReplySender.
    destruct isGroup, (JS.truthy_opt (Some messageId));
      cbn [andb JS.truthy_opt]; eexists; repeat split; reflexivity.
  - destruct text; [ discriminate Hrich | discriminate Htext ].
Qed.

(** C6.  With the account in mode "raw", a reply holding a markdown table
    is delivered as a card, in a direct chat and in a group, and the card
    carries the table as it was: [deliver] replaces the mode by "card"
    whenever [shouldUseCardRendering] holds of the text. *)
Theorem raw_mode_table_reply_sent_as_card :
  let account := Sample.policy None None None true Types.RenderRaw in
  let direct :=
    Dispatch.deliver account "ou_member" false "om_1" Sample.table in
  let group := Dispatch.deliver account "oc_team" true "om_1" Sample.table in
  Types.renderMode account = Types.RenderRaw
  /\ direct
     = Some (Api.SendCard "ou_member" (Api.createMarkdownCard Sample.table))
  /\ group
     = Some (Api.ReplyCard "om_1" (Api.createMarkdownCard Sample.table))
  /\ option_map Api.is_card direct = Some true
  /\ option_map Api.sent_text direct = Some Sample.table
  /\ Regex.test Api.re_table Sample.table = true.
Proof. vm_compute. repeat split; reflexivity. Qed.

(** *** The table conversion of the mode "raw" *)

Lemma replace_pipe_pads (l : list ascii) :
  Regex.replace_from Api.re_pipe (fun _ => list_ascii_of_string " | ") 0 l
  = flat_map Api.pad_pipe l.
Proof.
  induction l as [|c rest IH]; [ reflexivity | ].
  cbn [Regex.replace_from flat_map].
  unfold Api.re_pipe at 1.
  cbn [Regex.match_here Regex.quant Regex.class Regex.once].
  unfold Api.pad_pipe at 1, Regex.chr at 1.
  destruct (Ascii.eqb c "|") eqn:Hc.
  - replace (List.length (c :: rest) - List.length rest) with 1
      by (cbn [List.length]; lia).
    cbn [firstn]. now rewrite IH.
  - now rewrite IH.
Qed.

Lemma pad_pipe_spaced (l : list ascii) :
  Api.pipes_spaced (flat_map Api.pad_pipe l) = true
  /\ match flat_map Api.pad_pipe l with
     | [] => True
     | b :: _ => Regex.chr "|" b = false
     end.
Proof.
  induction l as [|c rest [IHs IHh]]; [ split; [ reflexivity | exact I ] | ].
  cbn [flat_map]. unfold Api.pad_pipe at 1 3.
  destruct (Ascii.eqb c "|") eqn:Hc.
  - cbn [list_ascii_of_string app]. split; [ | reflexivity ].
    destruct (flat_map Api.pad_pipe rest) as [|b more] eqn:Hrest.
    + reflexivity.
    + cbn [Api.pipes_spaced] in *. rewrite IHs.
      unfold Regex.chr in IHh. vm_compute Regex.one_of.
      cbn. reflexivity.
  - cbn [app]. split; [ | unfold Regex.chr; exact Hc ].
    destruct (flat_map Api.pad_pipe rest) as [|b more] eqn:Hrest.
    + reflexivity.
    + cbn [Api.pipes_spaced] in *. rewrite IHs.
      unfold Regex.chr in *. rewrite IHh, Hc, andb_false_r. reflexivity.
Qed.

Lemma pipes_spaced_tail (a : ascii) (l : list ascii) :
  Api.pipes_spaced (a :: l) = true -> Api.pipes_spaced l = true.
Proof.
  cbn [Api.pipes_spaced]. intros H.
  apply andb_true_iff in H. apply H.
Qed.

(** After a "-" or ":", the rest of [/[-:]+\|[-:| ]+/] finds no "|" to go
    on with. *)
Lemma separator_tail_fails (rest : list ascii) :
  forall a : ascii,
    Regex.one_of "-:" a = true ->
    Api.pipes_spaced (a :: rest) = true ->
    Regex.greedy (Regex.one_of "-:")
      (Regex.match_here
         [Regex.once (Regex.chr "|"); Regex.plus (Regex.one_of "-:| ")])
      rest
    = None.
Proof.
  induction rest as [|c r IH]; intros a Ha Hsp; [ reflexivity | ].
  pose proof (pipes_spaced_tail a (c :: r) Hsp) as Hrest.
  cbn [Api.pipes_spaced] in Hsp.
  apply andb_true_iff in Hsp as [Hpair _].
  apply andb_true_iff in Hpair as [Hdash _].
  rewrite Ha in Hdash. cbn [andb negb] in Hdash.
  apply negb_true_iff in Hdash.
  assert (Hk : Regex.match_here
                 [Regex.once (Regex.chr "|");
                  Regex.plus (Regex.one_of "-:| ")] (c :: r) = None).
  { cbn [Regex.match_here Regex.quant Regex.class Regex.once].
    now rewrite Hdash. }
  cbn [Regex.greedy].
  destruct (Regex.one_of "-:" c) eqn:Hc.
  - rewrite (IH c Hc Hrest). exact Hk.
  - exact Hk.
Qed.

Lemma separator_never_matches (l : list ascii) :
  Api.pipes_spaced l = true -> Regex.match_here Api.re_separator l = None.
Proof.
  intros Hsp. unfold Api.re_separator.
  cbn [Regex.match_here Regex.quant Regex.class Regex.plus].
  destruct l as [|a rest]; [ reflexivity | ].
  destruct (Regex.one_of "-:" a) eqn:Ha; [ | reflexivity ].
  now apply separator_tail_fails with (a := a).
Qed.

Lemma replace_without_match (p : Regex.pattern)
    (f : list ascii -> list ascii) (l : list ascii) :
  (forall pre suf, l = pre ++ suf -> Regex.match_here p suf = None) ->
  Regex.replace_from p f 0 l = l.
Proof.
  induction l as [|c rest IH]; intros Hno; [ reflexivity | ].
  cbn [Regex.replace_from].
  rewrite (Hno [] (c :: rest) eq_refl).
  f_equal. apply IH. intros pre suf ->.
  apply (Hno (c :: pre) suf). reflexivity.
Qed.

Lemma pipes_spaced_suffix (pre suf : list ascii) :
  Api.pipes_spaced (pre ++ suf) = true -> Api.pipes_spaced suf = true.
Proof.
  induction pre as [|a pre IH]; intros H; [ exact H | ].
  apply IH. now apply pipes_spaced_tail with (a := a).
Qed.

(** After a "|" and the run of [.+], the rest of the table pattern needs a
    "|" directly followed by a line break. *)
Lemma table_tail_fails (l : list ascii) :
  Api.pipes_spaced l = true ->
  Regex.greedy Regex.dot
    (Regex.match_here
       [Regex.once (Regex.chr "|"); Regex.plus Regex.crlf;
        Regex.once (Regex.chr "|"); Regex.plus (Regex.one_of "-:| ");
        Regex.once (Regex.chr "|")])
    l
  = None.
Proof.
  induction l as [|c r IH]; intros Hsp; [ reflexivity | ].
  assert (Hk : Regex.match_here
                 [Regex.once (Regex.chr "|"); Regex.plus Regex.crlf;
                  Regex.once (Regex.chr "|");
                  Regex.plus (Regex.one_of "-:| ");
                  Regex.once (Regex.chr "|")] (c :: r) = None).
  { cbn [Regex.match_here Regex.quant Regex.class Regex.once Regex.plus].
    destruct (Regex.chr "|" c) eqn:Hc; [ | reflexivity ].
    destruct r as [|d r']; [ reflexivity | ].
    pose proof Hsp as Hpair. cbn [Api.pipes_spaced] in Hpair.
    apply andb_true_iff in Hpair as [Hpair _].
    apply andb_true_iff in Hpair as [_ Hbreak].
    rewrite Hc in Hbreak. cbn [andb] in Hbreak.
    apply negb_true_iff in Hbreak. now rewrite Hbreak. }
  cbn [Regex.greedy].
  destruct (Regex.dot c).
  - rewrite (IH (pipes_spaced_tail c r Hsp)). exact Hk.
  - exact Hk.
Qed.

Lemma table_never_matches (l : list ascii) :
  Api.pipes_spaced l = true -> Regex.test_from Api.re_table l = false.
Proof.
  induction l as [|c rest IH]; intros Hsp.
  - reflexivity.
  - cbn [Regex.test_from].
    assert (Hhere : Regex.match_here Api.re_table (c :: rest) = None).
    { unfold Api.re_table.
      cbn [Regex.match_here Regex.quant Regex.class Regex.once Regex.plus].
      destruct (Regex.chr "|" c); [ | reflexivity ].
      destruct rest as [|d rest']; [ reflexivity | ].
      destruct (Regex.dot d); [ | reflexivity ].
      apply table_tail_fails.
      apply (pipes_spaced_suffix [c; d] rest'). exact Hsp. }
    rewrite Hhere. apply IH. now apply pipes_spaced_tail with (a := c).
Qed.

(** The text [markdownTableToAscii] returns is the input with every "|"
    padded by spaces: the second replacement finds nothing to replace. *)
Lemma markdownTableToAscii_pads (markdown : string) :
  Api.markdownTableToAscii markdown
  = string_of_list_ascii
      (flat_map Api.pad_pipe (list_ascii_of_string markdown)).
Proof.
  unfold Api.markdownTableToAscii, Regex.replace.
  rewrite list_ascii_of_string_of_list_ascii, replace_pipe_pads.
  f_equal. apply replace_without_match.
  intros pre suf Hsplit. apply separator_never_matches.
  apply (pipes_spaced_suffix pre suf). rewrite <- Hsplit.
  apply pad_pipe_spaced.
Qed.

(** X17.  Called with the mode "raw", [sendSmart] sends plain text that
    the table pattern of the classifier does not match, whatever the
    input. *)
Lemma sendSmart_raw_has_no_table (account : Types.ResolvedFeishuAccount)
    (target text : string) :
  let o := Api.sendSmart account target text (Some Types.RenderRaw) in
  Api.is_card o = false
  /\ Regex.test Api.re_table (Api.sent_text o) = false.
Proof.
  cbn. split; [ reflexivity | ].
  rewrite markdownTableToAscii_pads. unfold Regex.test.
  rewrite list_ascii_of_string_of_list_ascii.
  apply table_never_matches. apply pad_pipe_spaced.
Qed.

(** ** The fixtures of the specification, run on the embedding *)

(** The per-conversation trim keeps the newest [limit] entries. *)
Lemma history_trim_keeps_last (limit : nat)
    (history : list History.HistoryEntry) :
  History.trim limit history
  = skipn (List.length history - limit) history.
Proof.
  induction history as [|e rest IH]; [ reflexivity | ].
  cbn [History.trim].
  destruct (limit <? List.length (e :: rest))%nat eqn:Hover.
  - apply Nat.ltb_lt in Hover. cbn [List.length] in *.
    rewrite IH.
    replace (S (List.length rest) - limit)
      with (S (List.length rest - limit)) by lia.
    reflexivity.
  - apply Nat.ltb_ge in Hover.
    replace (List.length (e :: rest) - limit) with 0 by lia.
    reflexivity.
Qed.

Example history_eleven_entries_keep_last_ten :
  let calls :=
    List.map (fun i => ("oc_team", Sample.entry (Sample.msgid i))) (seq 0 11) in
  History.get "oc_team"
    (History.recordAll History.defaults calls History.create)
  = List.map (fun i => Sample.entry (Sample.msgid i)) (seq 1 10).
Proof. vm_compute. reflexivity. Qed.

Example dedupe_membership :
  Dedupe.isProcessed "om_1" Dedupe.create = false
  /\ Dedupe.isProcessed "om_1"
       (Dedupe.markProcessed Dedupe.defaults "om_1" Dedupe.create) = true.
Proof. split; reflexivity. Qed.

Example dedupe_thousand_and_one :
  let c := Dedupe.markAll Dedupe.defaults (Sample.msgids 1001) Dedupe.create in
  Dedupe.size c = 801
  /\ hd "" c = Sample.msgid 200
  /\ Dedupe.isProcessed (Sample.msgid 1000) c = true.
Proof. vm_compute. repeat split; reflexivity. Qed.

Example render_fixtures :
  Api.shouldUseCardRendering "plain short text" = false
  /\ Api.shouldUseCardRendering "```x```" = true
  /\ Api.shouldUseCardRendering
       (string_of_list_ascii (repeat "a"%char 600)) = true
  /\ Api.shouldUseCardRendering "see [the docs](https://example.com)" = true
  /\ Api.shouldUseCardRendering Sample.table = true.
Proof. vm_compute. repeat split; reflexivity. Qed.

Example gate_fixtures :
  let dm :=
    Sample.inbound Message.Direct "ou_member" "ou_member" "hi" None None in
  let grp :=
    Sample.inbound Message.Group "oc_team" "ou_member" "hi" None None in
  Context.gate grp
    (Sample.policy None None (Some Types.GroupDisabled) false Types.RenderAuto)
    (Some "ou_bot") None
  = Context.Blocked Context.GroupDisabledBlock
  /\ Context.gate dm
       (Sample.policy (Some Types.DmAllowlist) (Some []) None true
          Types.RenderAuto) None None
     = Context.Passed false
  /\ Context.gate dm
       (Sample.policy (Some Types.DmAllowlist) (Some ["ou_admin"]) None true
          Types.RenderAuto) None None
     = Context.Blocked Context.UnauthorizedDmSender
  /\ Context.gate grp
       (Sample.policy None None None true Types.RenderAuto)
       (Some "ou_bot") (Some "OpenClaw")
     = Context.Blocked Context.NoMention.
Proof. repeat split; reflexivity. Qed.

(* ================================================================== *)
(** * Part III: further properties of the embedded code *)
(* ================================================================== *)

(** ** dedupe.ts *)

Lemma includes_app (x : string) (a b : list string) :
  JS.includes x (a ++ b) = JS.includes x a || JS.includes x b.
Proof.
  induction a as [|y rest IH]; simpl; auto.
  destruct (String.eqb y x); auto.
Qed.

Lemma JSSet_has_add_same (x : string) (s : JSSet.t) :
  JSSet.has x (JSSet.add x s) = true.
Proof.
  unfold JSSet.add, JSSet.has.
  destruct (JS.includes x s) eqn:Hin; auto.
  rewrite includes_app. simpl. rewrite String.eqb_refl.
  apply orb_true_r.
Qed.

Lemma JSSet_has_add_keeps (x y : string) (s : JSSet.t) :
  JSSet.has y s = true -> JSSet.has y (JSSet.add x s) = true.
Proof.
  unfold JSSet.add, JSSet.has. intros Hy.
  destruct (JS.includes x s); auto.
  rewrite includes_app, Hy. reflexivity.
Qed.

(** X3.  [markProcessed(id)] makes [isProcessed(id)] true in every state of
    the cache; below capacity it forgets no identifier, and marking an
    identifier that is already present changes nothing. *)
Theorem dedupe_mark_then_processed (o : Dedupe.DedupeCacheOptions)
    (id : string) (c : Dedupe.cache) :
  Dedupe.isProcessed id (Dedupe.markProcessed o id c) = true
  /\ (Dedupe.size c < Dedupe.maxSize o ->
      (forall y, Dedupe.isProcessed y c = true ->
                 Dedupe.isProcessed y (Dedupe.markProcessed o id c) = true)
      /\ (Dedupe.isProcessed id c = true -> Dedupe.markProcessed o id c = c)).
Proof.
  unfold Dedupe.isProcessed, Dedupe.markProcessed, Dedupe.size.
  split; [ apply JSSet_has_add_same | ].
  intros Hroom. apply Nat.leb_gt in Hroom. rewrite Hroom.
  split.
  - intros y Hy. now apply JSSet_has_add_keeps.
  - intros Hid. unfold JSSet.add. now rewrite Hid.
Qed.

(** Two marks on the empty cache, the second a repetition. *)
Lemma dedupe_mark_then_processed_witness :
  let c := Dedupe.markProcessed Dedupe.defaults "om_1" Dedupe.create in
  Dedupe.size c < Dedupe.maxSize Dedupe.defaults
  /\ Dedupe.markProcessed Dedupe.defaults "om_1" c = c.
Proof.
  assert (Hroom : Dedupe.size
                    (Dedupe.markProcessed Dedupe.defaults "om_1" Dedupe.create)
                  < Dedupe.maxSize Dedupe.defaults)
    by (vm_compute; lia).
  split; [ exact Hroom | ].
  apply (proj2 (dedupe_mark_then_processed Dedupe.defaults "om_1"
                  (Dedupe.markProcessed Dedupe.defaults "om_1" Dedupe.create))
           Hroom).
  reflexivity.
Defined.

(** The defaults leave the room the bound needs. *)
Lemma dedupe_size_never_exceeds_maxSize_witness :
  Dedupe.cleanupThreshold Dedupe.defaults + 2 <= Dedupe.maxSize Dedupe.defaults
  /\ Dedupe.size
       (Dedupe.markAll Dedupe.defaults ["om_1"; ""; "om_2"] Dedupe.create)
     <= Dedupe.maxSize Dedupe.defaults.
Proof.
  assert (Hroom : Dedupe.cleanupThreshold Dedupe.defaults + 2
                  <= Dedupe.maxSize Dedupe.defaults)
    by (vm_compute; lia).
  split; [ exact Hroom | ].
  exact (dedupe_size_never_exceeds_maxSize Dedupe.defaults
           ["om_1"; ""; "om_2"] Hroom).
Defined.

(** A cache of three identifiers with capacity 3 and low-water mark 1. *)
Lemma dedupe_markProcessed_evicts_oldest_witness :
  let o := {| Dedupe.maxSize := 3; Dedupe.cleanupThreshold := 1 |} in
  let c := ["om_1"; "om_2"; "om_3"] in
  Dedupe.markProcessed o "om_4" c = ["om_3"; "om_4"].
Proof.
  assert (Hnd : NoDup ["om_1"; "om_2"; "om_3"]).
  { repeat constructor; simpl; intuition discriminate. }
  assert (Hall : Forall (fun x => JS.truthy x = true) ["om_1"; "om_2"; "om_3"])
    by (repeat constructor).
  assert (Hfull : 3 <= Dedupe.size ["om_1"; "om_2"; "om_3"])
    by (vm_compute; lia).
  exact (dedupe_markProcessed_evicts_oldest
           {| Dedupe.maxSize := 3; Dedupe.cleanupThreshold := 1 |}
           "om_4" ["om_1"; "om_2"; "om_3"] Hnd Hall Hfull).
Defined.

(** ** history.ts *)

Lemma JSMap_get_app_absent {V : Type} (k : string) (a b : JSMap.t V) :
  JSMap.has k a = false -> JSMap.get k (a ++ b) = JSMap.get k b.
Proof.
  unfold JSMap.has.
  induction a as [|[k' v'] rest IH]; simpl; intros H; auto.
  destruct (String.eqb k' k); [ discriminate H | auto ].
Qed.

Lemma JSMap_get_app_present {V : Type} (k : string) (a b : JSMap.t V) :
  JSMap.has k a = true -> JSMap.get k (a ++ b) = JSMap.get k a.
Proof.
  unfold JSMap.has.
  induction a as [|[k' v'] rest IH]; simpl; intros H.
  - discriminate H.
  - destruct (String.eqb k' k); auto.
Qed.

Lemma JSMap_get_delete_other {V : Type} (k k' : string) (m : JSMap.t V) :
  k <> k' -> JSMap.get k' (JSMap.delete k m) = JSMap.get k' m.
Proof.
  intros Hne. induction m as [|[k0 v0] rest IH]; simpl; auto.
  destruct (String.eqb k0 k) eqn:Hk0; simpl.
  - apply String.eqb_eq in Hk0. subst k0.
    destruct (String.eqb k k') eqn:Hk; auto.
    apply String.eqb_eq in Hk. contradiction.
  - destruct (String.eqb k0 k'); auto.
Qed.

Lemma JSMap_has_delete_same {V : Type} (k : string) (m : JSMap.t V) :
  JSMap.has k (JSMap.delete k m) = false.
Proof.
  apply JSMap_has_false_keys. intros Hin.
  apply JSMap_keys_delete in Hin. tauto.
Qed.

Lemma JSMap_keys_set_present {V : Type} (k : string) (v : V) (m : JSMap.t V) :
  JSMap.has k m = true -> JSMap.keys (JSMap.set k v m) = JSMap.keys m.
Proof.
  unfold JSMap.has, JSMap.keys.
  induction m as [|[k' v'] rest IH]; simpl; intros H.
  - discriminate H.
  - destruct (String.eqb k' k) eqn:Hk; simpl; auto.
    f_equal. now apply IH.
Qed.

(** X4.  After [record(chatId, entry)], whatever the state before, the
    conversation is the most recently touched one (the last key of the
    map), it holds at most [historyLimit] entries, and when the limit is
    at least one the newest of them is the entry just recorded. *)
Theorem history_record_keeps_newest (o : History.GroupHistoryManagerOptions)
    (chatId : string) (entry : History.HistoryEntry) (m : History.manager) :
  let m' := History.record o chatId entry m in
  List.length (History.get chatId m') <= History.historyLimit o
  /\ (exists older, JSMap.keys m' = older ++ [chatId])
  /\ (1 <= History.historyLimit o ->
      exists older, History.get chatId m' = older ++ [entry]).
Proof.
  intros m'. subst m'. rewrite history_record_shape.
  set (m1 := if (History.maxGroups o <? JSMap.size m)%nat
             then History.evict (JSMap.size m - History.maxGroups o) m
             else m).
  set (h := History.get chatId m1).
  assert (Hget : History.get chatId
                   (JSMap.delete chatId m1
                    ++ [(chatId,
                         History.trim (History.historyLimit o) (h ++ [entry]))])
                 = History.trim (History.historyLimit o) (h ++ [entry])).
  { unfold History.get at 1.
    rewrite JSMap_get_app_absent by apply JSMap_has_delete_same.
    simpl. now rewrite String.eqb_refl. }
  rewrite Hget, history_trim_keeps_last.
  split; [ | split ].
  - rewrite length_skipn. lia.
  - exists (JSMap.keys (JSMap.delete chatId m1)).
    unfold JSMap.keys. rewrite map_app. reflexivity.
  - intros Hlimit.
    exists (skipn (List.length (h ++ [entry]) - History.historyLimit o) h).
    rewrite skipn_app.
    replace (List.length (h ++ [entry]) - History.historyLimit o
             - List.length h) with 0
      by (rewrite length_app; cbn [List.length]; lia).
    reflexivity.
Qed.

(** X6.  While the number of tracked conversations is at most [maxGroups],
    recording into one conversation leaves the entries of every other
    conversation as they were. *)
Theorem history_record_isolated (o : History.GroupHistoryManagerOptions)
    (chatId other : string) (entry : History.HistoryEntry)
    (m : History.manager) :
  History.groupCount m <= History.maxGroups o ->
  chatId <> other ->
  History.get other (History.record o chatId entry m) = History.get other m.
Proof.
  intros Hsize Hne. rewrite history_record_shape.
  unfold History.groupCount in Hsize.
  apply Nat.ltb_ge in Hsize. rewrite Hsize.
  unfold History.get at 1 3.
  destruct (JSMap.has other (JSMap.delete chatId m)) eqn:Hhas.
  - rewrite JSMap_get_app_present by assumption.
    now rewrite JSMap_get_delete_other.
  - rewrite JSMap_get_app_absent by assumption.
    cbn [JSMap.get].
    destruct (String.eqb chatId other) eqn:Heq;
      [ apply String.eqb_eq in Heq; contradiction | ].
    unfold JSMap.has in Hhas.
    rewrite JSMap_get_delete_other in Hhas by assumption.
    destruct (JSMap.get other m); [ discriminate Hhas | reflexivity ].
Qed.

(** Two conversations; a record into the second. *)
Lemma history_record_isolated_witness :
  let m :=
    History.record History.defaults "oc_a" (Sample.entry "oc_a")
      History.create in
  History.groupCount m <= History.maxGroups History.defaults
  /\ History.get "oc_a"
       (History.record History.defaults "oc_b" (Sample.entry "oc_b") m)
     = History.get "oc_a" m.
Proof.
  assert (Hsize : History.groupCount
                    (History.record History.defaults "oc_a"
                       (Sample.entry "oc_a") History.create)
                  <= History.maxGroups History.defaults)
    by (vm_compute; lia).
  split; [ exact Hsize | ].
  apply (history_record_isolated History.defaults "oc_b" "oc_a"
           (Sample.entry "oc_b") _ Hsize).
  discriminate.
Defined.

(** X7.  [clear] on a tracked conversation empties its entries in place:
    the conversations and their order (hence the recency used for
    eviction) stay as they were, and so do the entries of the others. *)
Theorem history_clear_tracked_in_place (chatId : string)
    (m : History.manager) :
  JSMap.has chatId m = true ->
  JSMap.keys (History.clear chatId m) = JSMap.keys m
  /\ History.groupCount (History.clear chatId m) = History.groupCount m
  /\ History.get chatId (History.clear chatId m) = []
  /\ (forall other, chatId <> other ->
        History.get other (History.clear chatId m) = History.get other m).
Proof.
  intros Hhas. unfold History.clear, History.groupCount, History.get.
  split; [ now apply JSMap_keys_set_present | ].
  split; [ now apply JSMap_size_set_old | ].
  split.
  - now rewrite JSMap_get_set_same.
  - intros other Hne. now rewrite JSMap_get_set_other.
Qed.

(** A conversation with one entry, cleared. *)
Lemma history_clear_tracked_in_place_witness :
  let m :=
    History.record History.defaults "oc_a" (Sample.entry "oc_a")
      History.create in
  JSMap.has "oc_a" m = true
  /\ JSMap.keys (History.clear "oc_a" m) = JSMap.keys m.
Proof.
  split; [ reflexivity | ].
  apply (history_clear_tracked_in_place "oc_a"
           (History.record History.defaults "oc_a" (Sample.entry "oc_a")
              History.create)).
  reflexivity.
Defined.

Lemma filter_falsy_keys_none (m : History.manager) :
  Forall (fun k => JS.truthy k = true) (JSMap.keys m) ->
  filter (fun kv : string * list History.HistoryEntry => JS.falsy (fst kv)) m
  = [].
Proof.
  induction m as [|[k v] rest IH]; simpl; intros H; auto.
  inversion H as [|? ? Hk Hrest]; subst.
  unfold JS.falsy at 1. rewrite Hk. cbn [negb]. now apply IH.
Qed.

(** X8.  When more than [maxGroups] conversations are tracked (all with
    non-empty ids), recording into an untracked conversation drops the
    [size - maxGroups] least recently touched ones, keeps the others in
    order and appends the new one. *)
Theorem history_record_evicts_oldest (o : History.GroupHistoryManagerOptions)
    (chatId : string) (entry : History.HistoryEntry) (m : History.manager) :
  NoDup (JSMap.keys m) ->
  Forall (fun k => JS.truthy k = true) (JSMap.keys m) ->
  History.maxGroups o < History.groupCount m ->
  JSMap.has chatId m = false ->
  History.record o chatId entry m
  = skipn (History.groupCount m - History.maxGroups o) m
    ++ [(chatId, History.trim (History.historyLimit o) [entry])].
Proof.
  intros Hnd Hall Hover Hnew. rewrite history_record_shape.
  unfold History.groupCount in *.
  apply Nat.ltb_lt in Hover. rewrite Hover.
  rewrite history_evict_shape by assumption.
  set (n := JSMap.size m - History.maxGroups o).
  rewrite filter_falsy_keys_none.
  2:{ unfold JSMap.keys in *. rewrite <- firstn_map.
      rewrite <- (firstn_skipn n (List.map fst m)) in Hall.
      now apply Forall_app in Hall. }
  cbn [app].
  assert (Hfree : JSMap.has chatId (skipn n m) = false).
  { apply JSMap_has_false_keys. intros Hin.
    apply JSMap_has_false_keys in Hnew. apply Hnew.
    unfold JSMap.keys in *. rewrite <- (firstn_skipn n m), map_app.
    apply in_or_app. now right. }
  rewrite (JSMap_delete_absent chatId _ Hfree).
  unfold History.get.
  assert (Hget : JSMap.get chatId (skipn n m) = None).
  { unfold JSMap.has in Hfree.
    destruct (JSMap.get chatId (skipn n m)); congruence. }
  rewrite Hget. reflexivity.
Qed.

(** Three conversations under a cap of two; a fourth is recorded. *)
Lemma history_record_evicts_oldest_witness :
  let o := {| History.historyLimit := 10; History.maxGroups := 2 |} in
  let m : History.manager := [("oc_a", []); ("oc_b", []); ("oc_c", [])] in
  History.record o "oc_d" (Sample.entry "oc_d") m
  = [("oc_b", []); ("oc_c", []); ("oc_d", [Sample.entry "oc_d"])].
Proof.
  apply (history_record_evicts_oldest
           {| History.historyLimit := 10; History.maxGroups := 2 |}
           "oc_d" (Sample.entry "oc_d")
           [("oc_a", []); ("oc_b", []); ("oc_c", [])]).
  - repeat constructor; simpl; intuition discriminate.
  - repeat constructor.
  - vm_compute. lia.
  - reflexivity.
Defined.

(** ** context.ts *)

(** A direct message under "allowlist" from a listed sender. *)
Lemma dm_gate_decision_witness :
  Context.allows
    (Context.gate
       (Sample.inbound Message.Direct "ou_admin" "ou_admin" "hi" None None)
       (Sample.policy (Some Types.DmAllowlist) (Some ["ou_admin"]) None true
          Types.RenderAuto)
       None None)
  = true
  <-> (["ou_admin"] = [] \/ JS.includes "ou_admin" ["ou_admin"] = true).
Proof.
  exact (dm_gate_decision
           (Sample.inbound Message.Direct "ou_admin" "ou_admin" "hi" None None)
           (Sample.policy (Some Types.DmAllowlist) (Some ["ou_admin"]) None
              true Types.RenderAuto)
           None None eq_refl).
Defined.

(** X10.  What the gate reads.  For a group event the account matters only
    through [requireMention] and whether [groupPolicy] is "disabled":
    "allowlist" and "open" decide alike (the [groups] table is not
    consulted) and [dmPolicy] and [allowFrom] play no part.  For a direct
    message the decision depends neither on the group settings nor on the
    identity of the responder. *)
Theorem gate_reads_only_its_branch (message : Message.FeishuInboundMessage)
    (a1 a2 : Types.ResolvedFeishuAccount)
    (botOpenId botName botOpenId' botName' : option string) :
  (Message.chatType message = Message.Group ->
   Types.requireMention a1 = Types.requireMention a2 ->
   Types.FeishuGroupPolicy_eqb
     (JS.nullish (Types.groupPolicy (Types.config a1)) Types.GroupAllowlist)
     Types.GroupDisabled
   = Types.FeishuGroupPolicy_eqb
       (JS.nullish (Types.groupPolicy (Types.config a2)) Types.GroupAllowlist)
       Types.GroupDisabled ->
   Context.gate message a1 botOpenId botName
   = Context.gate message a2 botOpenId botName)
  /\ (Message.chatType message = Message.Direct ->
      Types.dmPolicy (Types.config a1) = Types.dmPolicy (Types.config a2) ->
      Types.allowFrom (Types.config a1) = Types.allowFrom (Types.config a2) ->
      Context.gate message a1 botOpenId botName
      = Context.gate message a2 botOpenId' botName').
Proof.
  split.
  - intros Hgroup Hreq Hpolicy. unfold Context.gate. rewrite Hgroup.
    unfold Context.groupGate. now rewrite Hreq, Hpolicy.
  - intros Hdm Hpol Hallow. unfold Context.gate. rewrite Hdm.
    unfold Context.dmGate. now rewrite Hpol, Hallow.
Qed.

(** The same group message under "allowlist" (the default) and "open". *)
Lemma gate_reads_only_its_branch_witness :
  let message :=
    Sample.inbound Message.Group "oc_team" "ou_member" "hello" None None in
  Context.gate message
    (Sample.policy None None None true Types.RenderAuto) (Some "ou_bot") None
  = Context.gate message
      (Sample.policy (Some Types.DmDisabled) (Some ["ou_admin"])
         (Some Types.GroupOpen) true Types.RenderRaw)
      (Some "ou_bot") None.
Proof.
  apply (proj1 (gate_reads_only_its_branch
                  (Sample.inbound Message.Group "oc_team" "ou_member" "hello"
                     None None)
                  (Sample.policy None None None true Types.RenderAuto)
                  (Sample.policy (Some Types.DmDisabled) (Some ["ou_admin"])
                     (Some Types.GroupOpen) true Types.RenderRaw)
                  (Some "ou_bot") None None None));
    reflexivity.
Defined.

(** X11.  The mention test of the gate.  Without mentions, or without a
    resolved identity of the responder, it is false; a mention whose id is
    the responder's open id makes it true, and so does a mention whose name
    equals the responder's name up to case and surrounding white space. *)
Theorem gate_mention_detection (message : Message.FeishuInboundMessage)
    (botOpenId botName : option string) :
  (Message.no_mentions message = true ->
   Context.isBotMentioned message botOpenId botName = false)
  /\ (JS.truthy_opt botOpenId = false -> JS.truthy_opt botName = false ->
      Context.isBotMentioned message botOpenId botName = false)
  /\ (forall (m : Message.Mention) (bot : string),
         In m (Message.mention_list message) ->
         botOpenId = Some bot -> JS.truthy bot = true ->
         Message.id m = bot ->
         Context.isBotMentioned message botOpenId botName = true)
  /\ (forall (m : Message.Mention) (bot : string),
         In m (Message.mention_list message) ->
         botName = Some bot -> JS.truthy bot = true ->
         JS.truthy (Message.name m) = true ->
         Context.normalizeMentionName (Message.name m)
         = Context.normalizeMentionName bot ->
         Context.isBotMentioned message botOpenId botName = true).
Proof.
  assert (Hsome : forall m, In m (Message.mention_list message) ->
                    Message.no_mentions message = false).
  { unfold Message.mention_list, Message.no_mentions.
    destruct (Message.mentions message) as [[|x xs]|]; cbn; tauto. }
  split; [ | split; [ | split ] ].
  - intros Hnone. unfold Context.isBotMentioned. now rewrite Hnone.
  - intros Hid Hname. unfold Context.isBotMentioned.
    rewrite Hid, Hname. cbn [andb].
    destruct (Message.no_mentions message); reflexivity.
  - intros m bot Hin -> Hbot Hm. unfold Context.isBotMentioned.
    rewrite (Hsome m Hin). cbn [JS.truthy_opt JS.nullish]. rewrite Hbot.
    cbn [andb].
    assert (Hex : existsb (fun m0 => String.eqb (Message.id m0) bot)
                    (Message.mention_list message) = true).
    { apply existsb_exists. exists m. split; [ exact Hin | ].
      rewrite Hm. apply String.eqb_refl. }
    now rewrite Hex.
  - intros m bot Hin -> Hbot Hname Hnorm. unfold Context.isBotMentioned.
    rewrite (Hsome m Hin).
    destruct (JS.truthy_opt botOpenId
              && existsb
                   (fun m0 => String.eqb (Message.id m0)
                                (JS.nullish botOpenId ""))
                   (Message.mention_list message)); [ reflexivity | ].
    cbn [JS.truthy_opt JS.nullish]. rewrite Hbot.
    assert (Hex : existsb
                    (fun m0 =>
                       JS.truthy (Message.name m0)
                       && String.eqb
                            (Context.normalizeMentionName (Message.name m0))
                            (Context.normalizeMentionName bot))
                    (Message.mention_list message) = true).
    { apply existsb_exists. exists m. split; [ exact Hin | ].
      rewrite Hname, Hnorm. cbn [andb]. apply String.eqb_refl. }
    now rewrite Hex.
Qed.

(** A mention of " OpenClaw " for the responder named "openclaw". *)
Lemma gate_mention_detection_witness :
  let m :=
    {| Message.key := "@_user_1"; Message.id := "ou_other";
       Message.name := " OpenClaw " |} in
  let message :=
    Sample.inbound Message.Group "oc_team" "ou_member" "@_user_1 hello"
      (Some [m]) None in
  Context.normalizeMentionName (Message.name m)
  = Context.normalizeMentionName "openclaw"
  /\ Context.isBotMentioned message None (Some "openclaw") = true.
Proof.
  split; [ reflexivity | ].
  apply (proj2 (proj2 (proj2 (gate_mention_detection
           (Sample.inbound Message.Group "oc_team" "ou_member"
              "@_user_1 hello"
              (Some [{| Message.key := "@_user_1"; Message.id := "ou_other";
                        Message.name := " OpenClaw " |}]) None)
           None (Some "openclaw"))))
         {| Message.key := "@_user_1"; Message.id := "ou_other";
            Message.name := " OpenClaw " |} "openclaw");
    try reflexivity.
  left. reflexivity.
Defined.

(** ** webhook.ts *)

(** X12.  URL verification through [parseWebhookEvent]: when the account
    has a non-empty verification token, a request presenting another
    token is answered with the error "Invalid verification token" and not
    with the challenge; a request presenting that token, and every request
    when no token (or an empty one) is configured, gets its challenge
    echoed. *)
Theorem url_verification_checks_token (E : Json.Engine)
    (e : Event.FeishuUrlVerificationEvent)
    (account : Types.ResolvedFeishuAccount) :
  (forall secret,
      Types.verificationToken account = Some secret ->
      JS.truthy secret = true ->
      Event.token e <> secret ->
      Webhook.parseWebhookEvent E (Event.UrlVerification e) account
      = Webhook.ErrorResult "Invalid verification token")
  /\ (Types.verificationToken account = Some (Event.token e) ->
      Webhook.parseWebhookEvent E (Event.UrlVerification e) account
      = Webhook.ChallengeResult (Event.challenge e))
  /\ (JS.truthy_opt (Types.verificationToken account) = false ->
      Webhook.parseWebhookEvent E (Event.UrlVerification e) account
      = Webhook.ChallengeResult (Event.challenge e)).
Proof.
  unfold Webhook.parseWebhookEvent, Webhook.parseWebhookEvent_try,
    Json.try_catch, Webhook.handleUrlVerification.
  split; [ | split ].
  - intros secret Hs Htruthy Hne. rewrite Hs. cbn [JS.truthy_opt JS.nullish].
    rewrite Htruthy.
    apply String.eqb_neq in Hne. now rewrite Hne.
  - intros Hs. rewrite Hs. cbn [JS.nullish].
    rewrite String.eqb_refl, andb_false_r. reflexivity.
  - intros Hnone. now rewrite Hnone.
Qed.

(** A request with the wrong token for an account whose token is "s3cret". *)
Lemma url_verification_checks_token_witness :
  let account :=
    {| Types.accountId := "default";
       Types.verificationToken := Some "s3cret";
       Types.renderMode := Types.RenderAuto;
       Types.requireMention := true;
       Types.config :=
         {| Types.dmPolicy := None; Types.allowFrom := None;
            Types.groupPolicy := None |} |} in
  Webhook.parseWebhookEvent Sample.inertEngine
    (Event.UrlVerification
       {| Event.challenge := "c-1"; Event.token := "guess" |})
    account
  = Webhook.ErrorResult "Invalid verification token".
Proof.
  apply (proj1 (url_verification_checks_token Sample.inertEngine
                  {| Event.challenge := "c-1"; Event.token := "guess" |}
                  {| Types.accountId := "default";
                     Types.verificationToken := Some "s3cret";
                     Types.renderMode := Types.RenderAuto;
                     Types.requireMention := true;
                     Types.config :=
                       {| Types.dmPolicy := None; Types.allowFrom := None;
                          Types.groupPolicy := None |} |})
           "s3cret");
    [ reflexivity | reflexivity | discriminate ].
Defined.

Lemma bind_Ok_inv {A B : Type} (c : Json.Throws A)
    (k : A -> Json.Throws B) (b : B) :
  Json.bind c k = Json.Ok b -> exists a, c = Json.Ok a /\ k a = Json.Ok b.
Proof.
  destruct c as [a | msg]; cbn; intros H; [ eauto | discriminate H ].
Qed.

(** X13.  Routing of event callbacks.  [parseWebhookEvent] yields a message
    only for a callback of type "im.message.receive_v1" that carries the
    members of a message event; a callback whose header is [null] yields an
    error result, and one of a type without a case yields "unknown"
    whatever it carries. *)
Theorem callback_routing (E : Json.Engine)
    (account : Types.ResolvedFeishuAccount) :
  (forall body m,
      Webhook.parseWebhookEvent E body account = Webhook.MessageResult m ->
      exists header event,
        body = Event.EventCallback (Some header) (Event.MessagePayload event)
        /\ Event.event_type header = "im.message.receive_v1")
  /\ (forall payload,
         exists msg,
           Webhook.parseWebhookEvent E (Event.EventCallback None payload)
             account
           = Webhook.ErrorResult msg)
  /\ (forall header payload,
         ~ In (Event.event_type header)
             ["im.message.receive_v1"; "im.chat.member.bot.added_v1";
              "im.chat.member.bot.deleted_v1"] ->
         Webhook.parseWebhookEvent E
           (Event.EventCallback (Some header) payload) account
         = Webhook.UnknownResult).
Proof.
  split; [ | split ].
  - intros body m H.
    unfold Webhook.parseWebhookEvent, Json.try_catch in H.
    destruct (Webhook.parseWebhookEvent_try E body account) as [r | msg] eqn:Htry;
      [ subst r | discriminate H ].
    destruct body as [e | header payload |];
      cbn [Webhook.parseWebhookEvent_try] in Htry.
    + injection Htry as Htry. unfold Webhook.handleUrlVerification in Htry.
      destruct (_ && _) in Htry; discriminate Htry.
    + destruct header as [h|]; [ | discriminate Htry ].
      unfold Webhook.handleEventCallback in Htry. revert Htry.
      destruct (String.eqb (Event.event_type h) "im.message.receive_v1")
        eqn:Hty.
      * apply String.eqb_eq in Hty.
        destruct payload as [| event | c]; cbn; intros Htry;
          try discriminate Htry.
        exists h, event. split; [ reflexivity | exact Hty ].
      * destruct (String.eqb (Event.event_type h)
                    "im.chat.member.bot.added_v1").
        { intros Htry. apply bind_Ok_inv in Htry as [c [_ Hc]].
          discriminate Hc. }
        destruct (String.eqb (Event.event_type h)
                    "im.chat.member.bot.deleted_v1").
        { intros Htry. apply bind_Ok_inv in Htry as [c [_ Hc]].
          discriminate Hc. }
        intros Htry. discriminate Htry.
    + discriminate Htry.
  - intros payload. eexists. reflexivity.
  - intros header payload Hty.
    unfold Webhook.parseWebhookEvent, Webhook.parseWebhookEvent_try,
      Webhook.handleEventCallback.
    cbn in Hty.
    repeat match goal with
    | |- context [String.eqb (Event.event_type header) ?k] =>
        let Hk := fresh "Hk" in
        destruct (String.eqb (Event.event_type header) k) eqn:Hk;
        [ apply String.eqb_eq in Hk; exfalso; apply Hty; rewrite Hk; tauto | ]
    end.
    reflexivity.
Qed.

(** A reaction event: a type without a case. *)
Lemma callback_routing_witness :
  Webhook.parseWebhookEvent Sample.inertEngine
    (Event.EventCallback
       (Some {| Event.event_type := "im.message.reaction.created_v1" |})
       Event.NoPayload)
    (Sample.policy None None None true Types.RenderAuto)
  = Webhook.UnknownResult.
Proof.
  apply (proj2 (proj2 (callback_routing Sample.inertEngine
                         (Sample.policy None None None true
                            Types.RenderAuto)))
           {| Event.event_type := "im.message.reaction.created_v1" |}
           Event.NoPayload).
  cbn. intros [H | [H | [H | []]]]; discriminate H.
Defined.

(** X14.  A message event without mentions always normalizes to a message:
    its display text is its text, it is direct exactly when the chat type
    is "p2p", and its sender id is the first non-empty one of the open,
    user and union ids, hence empty only when all three are empty or
    absent. *)
Theorem normalization_without_mentions (E : Json.Engine)
    (event : Event.MessageReceive) :
  JS.nullish (Event.mentions (Event.message event)) [] = [] ->
  exists m,
    Webhook.handleMessageReceive E event = Json.Ok (Webhook.MessageResult m)
    /\ Message.displayText m = Message.text m
    /\ (Message.chatType m = Message.Direct
        <-> Event.chat_type (Event.message event) = "p2p")
    /\ (Message.senderId m = ""
        <-> JS.truthy_opt (Event.open_id (Event.sender_id (Event.sender event)))
            = false
            /\ JS.truthy_opt
                 (Event.user_id (Event.sender_id (Event.sender event)))
               = false
            /\ JS.truthy_opt
                 (Event.union_id (Event.sender_id (Event.sender event)))
               = false)
    /\ (forall id,
           Event.open_id (Event.sender_id (Event.sender event)) = Some id ->
           JS.truthy id = true -> Message.senderId m = id).
Proof.
  intros Hnone. unfold Webhook.handleMessageReceive.
  assert (Hdisplay :
    forall t : Json.jsval,
      match option_map (List.map Webhook.mapMention)
              (Event.mentions (Event.message event)) with
      | Some (m0 :: ms) =>
          if Json.truthy t
          then match t with
               | Some (Json.JString t0) =>
                   Json.bind (Webhook.replaceMentions E (m0 :: ms) t0)
                     (fun d => Json.Ok (Json.str d))
               | _ => Webhook.replaceInNonString E (m0 :: ms)
               end
          else Json.Ok t
      | _ => Json.Ok t
      end = Json.Ok t).
  { intros t. destruct (Event.mentions (Event.message event)) as [[|x xs]|];
      cbn in *; try discriminate Hnone; reflexivity. }
  rewrite Hdisplay. cbn [Json.bind].
  eexists. split; [ reflexivity | ].
  cbn [Message.displayText Message.text Message.chatType Message.senderId].
  split; [ reflexivity | ].
  split.
  - destruct (String.eqb (Event.chat_type (Event.message event)) "p2p")
      eqn:Hp2p.
    + apply String.eqb_eq in Hp2p. tauto.
    + apply String.eqb_neq in Hp2p. split; [ discriminate | contradiction ].
  - unfold Webhook.pick_id.
    destruct (Event.sender_id (Event.sender event)) as [un us op]. cbn.
    split.
    + destruct op as [[|c s]|], us as [[|c' s']|], un as [[|c'' s'']|]; cbn;
        split; intros H; try discriminate H; auto;
        destruct H as (H1 & H2 & H3); discriminate.
    + intros id -> Hid. cbn. now rewrite Hid.
Qed.

(** A text event without mentions from a sender with only a user id. *)
Lemma normalization_without_mentions_witness :
  JS.nullish
    (Event.mentions
       (Event.message (Sample.messageReceive "text" "not json" None))) []
  = []
  /\ exists m,
       Webhook.handleMessageReceive Sample.inertEngine
         (Sample.messageReceive "text" "not json" None)
       = Json.Ok (Webhook.MessageResult m)
       /\ Message.displayText m = Message.text m.
Proof.
  split; [ reflexivity | ].
  destruct (normalization_without_mentions Sample.inertEngine
              (Sample.messageReceive "text" "not json" None) eq_refl)
    as [m (Hres & Hdisplay & _)].
  exists m. split; assumption.
Defined.

(** ** api.ts: the classifier and the senders *)

Lemma test_from_skips_prefix (p : Regex.pattern) (pre s : list ascii) :
  Regex.test_from p s = true -> Regex.test_from p (pre ++ s) = true.
Proof.
  intros Hs. induction pre as [|c rest IH]; [ exact Hs | ].
  cbn [app Regex.test_from].
  destruct (Regex.match_here p (c :: rest ++ s)); auto.
Qed.

Lemma test_from_match_here (p : Regex.pattern) (s r : list ascii) :
  Regex.match_here p s = Some r -> Regex.test_from p s = true.
Proof.
  intros H. destruct s; cbn [Regex.test_from]; now rewrite H.
Qed.

(** A lazy repetition finds the continuation wherever it first succeeds. *)
Lemma lazy_reaches (cls : ascii -> bool)
    (k : list ascii -> option (list ascii)) (run s r : list ascii) :
  Forall (fun c => cls c = true) run ->
  k s = Some r ->
  exists r', Regex.lazy cls k (run ++ s) = Some r'.
Proof.
  intros Hrun Hk. induction Hrun as [|c rest Hc _ IH].
  - exists r. destruct s; cbn [app Regex.lazy]; now rewrite Hk.
  - cbn [app Regex.lazy].
    destruct (k (c :: rest ++ s)) as [r0|]; [ now exists r0 | ].
    now rewrite Hc.
Qed.

Lemma list_ascii_app (a b : string) :
  list_ascii_of_string (a ++ b)
  = list_ascii_of_string a ++ list_ascii_of_string b.
Proof.
  induction a as [|c rest IH]; cbn; [ reflexivity | now rewrite IH ].
Qed.

(** X15.  A reply is classified as rich whenever it holds a fenced block
    (two fences of three backquotes, anything or nothing between them,
    anywhere in the text), and whenever it is longer than 500 code
    units. *)
Theorem fenced_or_long_text_is_rich :
  (forall before inside after : string,
      Api.shouldUseCardRendering
        (before ++ "```" ++ inside ++ "```" ++ after)%string
      = true)
  /\ (forall text : string,
         500 < String.length text ->
         Api.shouldUseCardRendering text = true).
Proof.
  split.
  - intros before inside after.
    assert (Htest : Regex.test Api.re_code_block
                      (before ++ "```" ++ inside ++ "```" ++ after)%string
                    = true).
    { unfold Regex.test. rewrite !list_ascii_app.
      apply test_from_skips_prefix.
      destruct (lazy_reaches Regex.any
                  (Regex.match_here
                     [Regex.once (Regex.chr "`"); Regex.once (Regex.chr "`");
                      Regex.once (Regex.chr "`")])
                  (list_ascii_of_string inside)
                  (list_ascii_of_string "```" ++ list_ascii_of_string after)
                  (list_ascii_of_string after)) as [r Hr].
      - apply Forall_forall. reflexivity.
      - reflexivity.
      - apply test_from_match_here with (r := r). exact Hr. }
    unfold Api.shouldUseCardRendering. now rewrite Htest.
  - intros text Hlong. unfold Api.shouldUseCardRendering.
    apply Nat.ltb_lt in Hlong. rewrite Hlong.
    destruct (Regex.test Api.re_code_block text); auto.
    destruct (Regex.test Api.re_table text); auto.
    destruct (Regex.test Api.re_link text); auto.
Qed.

(** A text of 501 code units. *)
Lemma fenced_or_long_text_is_rich_witness :
  500 < String.length (string_of_list_ascii (repeat "a"%char 501))
  /\ Api.shouldUseCardRendering (string_of_list_ascii (repeat "a"%char 501))
     = true.
Proof.
  assert (Hlong : 500 < String.length
                          (string_of_list_ascii (repeat "a"%char 501)))
    by (vm_compute; lia).
  split; [ exact Hlong | ].
  exact (proj2 fenced_or_long_text_is_rich _ Hlong).
Defined.

(** A pattern that starts with one given code unit matches nowhere in a
    text that does not hold that unit. *)
Lemma test_without_first_unit (c : ascii) (p : Regex.pattern)
    (s : list ascii) :
  Forall (fun x => Ascii.eqb x c = false) s ->
  Regex.test_from (Regex.once (Regex.chr c) :: p) s = false.
Proof.
  induction 1 as [|x rest Hx _ IH]; [ reflexivity | ].
  cbn [Regex.test_from Regex.match_here Regex.quant Regex.class Regex.once].
  unfold Regex.chr at 1. rewrite Hx. exact IH.
Qed.

Lemma count_without_first_unit (c : ascii) (p : Regex.pattern)
    (s : list ascii) :
  Forall (fun x => Ascii.eqb x c = false) s ->
  Regex.count_from (Regex.once (Regex.chr c) :: p) 0 s = 0.
Proof.
  induction 1 as [|x rest Hx _ IH]; [ reflexivity | ].
  cbn [Regex.count_from Regex.match_here Regex.quant Regex.class Regex.once].
  unfold Regex.chr at 1. rewrite Hx. exact IH.
Qed.

(** X16.  A reply of at most 500 code units that holds no backquote, no
    vertical bar, no opening bracket and no line feed is classified as
    plain. *)
Theorem unmarked_short_text_is_plain (text : string) :
  String.length text <= 500 ->
  Forall
    (fun x =>
       Ascii.eqb x "`" = false /\ Ascii.eqb x "|" = false
       /\ Ascii.eqb x "[" = false /\ Ascii.eqb x Regex.LF = false)
    (list_ascii_of_string text) ->
  Api.shouldUseCardRendering text = false.
Proof.
  intros Hshort Hall. unfold Api.shouldUseCardRendering, Regex.test, Regex.count.
  unfold Api.re_code_block, Api.re_table, Api.re_link, Api.re_blank_line.
  rewrite (test_without_first_unit "`")
    by (eapply Forall_impl; [ | exact Hall ]; cbn; tauto).
  rewrite (test_without_first_unit "|")
    by (eapply Forall_impl; [ | exact Hall ]; cbn; tauto).
  rewrite (test_without_first_unit "[")
    by (eapply Forall_impl; [ | exact Hall ]; cbn; tauto).
  rewrite (count_without_first_unit Regex.LF)
    by (eapply Forall_impl; [ | exact Hall ]; cbn; tauto).
  apply Nat.ltb_ge in Hshort. rewrite Hshort. reflexivity.
Qed.

(** The fixture of the specification. *)
Lemma unmarked_short_text_is_plain_witness :
  Api.shouldUseCardRendering "plain short text" = false.
Proof.
  apply (unmarked_short_text_is_plain "plain short text").
  - vm_compute. lia.
  - repeat constructor.
Defined.

(** X18.  [replyMessage] and [sendSmart] choose card or text alike, for
    every text and every mode given or inherited from the account; they
    send the same text except in the mode "raw", where [replyMessage]
    sends the text as it is and [sendSmart] the text with its vertical
    bars padded. *)
Theorem reply_and_send_choose_alike (account : Types.ResolvedFeishuAccount)
    (messageId receiveId text : string)
    (mode : option Types.FeishuRenderMode) :
  let reply := Api.replyMessage account messageId text mode in
  let sent := Api.sendSmart account receiveId text mode in
  Api.is_card reply = Api.is_card sent
  /\ (JS.nullish mode (Types.renderMode account) <> Types.RenderRaw ->
      Api.sent_text reply = Api.sent_text sent)
  /\ (JS.nullish mode (Types.renderMode account) = Types.RenderRaw ->
      Api.sent_text reply = text
      /\ Api.sent_text sent = Api.markdownTableToAscii text).
Proof.
  unfold Api.replyMessage, Api.sendSmart.
  destruct (JS.nullish mode (Types.renderMode account)); cbn;
    try destruct (Api.shouldUseCardRendering text); cbn;
    repeat split; intros; try reflexivity; try contradiction;
    try discriminate.
Qed.

(** The account in mode "raw", no mode given. *)
Lemma reply_and_send_choose_alike_witness :
  let account := Sample.policy None None None true Types.RenderRaw in
  Api.sent_text (Api.replyMessage account "om_1" Sample.table None)
  = Sample.table
  /\ Api.sent_text (Api.sendSmart account "oc_team" Sample.table None)
     = Api.markdownTableToAscii Sample.table.
Proof.
  apply (proj2 (proj2 (reply_and_send_choose_alike
                         (Sample.policy None None None true Types.RenderRaw)
                         "om_1" "oc_team" Sample.table None))).
  reflexivity.
Defined.

(** X19.  What [getMessage] does with a response.  It throws exactly
    when the code is 0 and the first item lacks [body] or [sender] (the
    read of a member of [undefined]).  Otherwise its result is ok exactly
    when the code is 0 and there is an item; a result that is ok carries
    the message built from the first item (its id, the id of its sender
    and its raw content), one that is not ok carries none. *)
Theorem getMessage_outcomes (E : Json.Engine) (r : Api.FeishuApiResponse) :
  let incomplete :=
    Api.code r = 0%Z
    /\ exists item rest,
         JS.nullish (Api.items r) [] = item :: rest
         /\ (Api.Item.body item = None \/ Api.Item.sender item = None) in
  match Api.getMessage E (Json.Ok r) with
  | Json.Throw _ => incomplete
  | Json.Ok result =>
      ~ incomplete
      /\ (Api.ok result = true
          <-> Api.code r = 0%Z /\ JS.nullish (Api.items r) [] <> [])
      /\ (Api.ok result = false -> Api.message result = None)
      /\ (Api.ok result = true ->
          exists item rest b sd parent,
            JS.nullish (Api.items r) [] = item :: rest
            /\ Api.Item.body item = Some b
            /\ Api.Item.sender item = Some sd
            /\ Api.message result = Some parent
            /\ Api.messageId parent = Api.Item.message_id item
            /\ Api.senderId parent = Api.Item.id sd
            /\ Api.content parent = Api.Item.content b)
  end.
Proof.
  cbv zeta. unfold Api.getMessage, Json.bind.
  destruct (Api.code r =? 0)%Z eqn:Hcode; cbn [negb].
  - apply Z.eqb_eq in Hcode.
    destruct (JS.nullish (Api.items r) []) as [|item rest] eqn:Hitems.
    + cbn [Api.ok Api.message].
      split; [ intros (_ & i & rs & H & _); discriminate H | ].
      split; [ split | split ].
      * intros H. discriminate H.
      * intros [_ H]. now contradiction H.
      * reflexivity.
      * intros H. discriminate H.
    + destruct (Api.Item.body item) as [b|] eqn:Hbody.
      * destruct (Api.Item.sender item) as [sd|] eqn:Hsender.
        -- cbn [Api.ok Api.message].
           split.
           { intros (_ & i & rs & H & Hmiss). injection H as <- <-.
             rewrite Hbody, Hsender in Hmiss.
             destruct Hmiss as [H | H]; discriminate H. }
           split; [ split | split ].
           ++ intros _. split; [ exact Hcode | discriminate ].
           ++ reflexivity.
           ++ intros H. discriminate H.
           ++ intros _. exists item, rest, b, sd. eexists.
              split; [ reflexivity | ]. split; [ exact Hbody | ].
              split; [ exact Hsender | ]. split; [ reflexivity | ].
              cbn [Api.messageId Api.senderId Api.content].
              split; [ reflexivity | split; reflexivity ].
        -- split; [ exact Hcode | ]. exists item, rest. auto.
      * split; [ exact Hcode | ]. exists item, rest. auto.
  - apply Z.eqb_neq in Hcode. cbn [Api.ok Api.message].
    split; [ intros (H & _); contradiction | ].
    split; [ split | split ].
    + intros H. discriminate H.
    + intros [H _]. contradiction.
    + reflexivity.
    + intros H. discriminate H.
Qed.

(** ** dispatch.ts *)

Lemma replyMessage_is_reply (account : Types.ResolvedFeishuAccount)
    (messageId text : string) (mode : option Types.FeishuRenderMode) :
  let o := Api.replyMessage account messageId text mode in
  Api.is_reply o = true /\ Api.target o = messageId
  /\ Api.sent_text o = text.
Proof.
  unfold Api.replyMessage.
  destruct (JS.nullish mode (Types.renderMode account));
    try destruct (Api.shouldUseCardRendering text);
    repeat split; reflexivity.
Qed.

Lemma sendSmart_is_new_message (account : Types.ResolvedFeishuAccount)
    (receiveId text : string) (mode : option Types.FeishuRenderMode) :
  let o := Api.sendSmart account receiveId text mode in
  Api.is_reply o = false /\ Api.target o = receiveId
  /\ (Api.sent_text o = text
      \/ Api.is_card o = false
         /\ Api.sent_text o = Api.markdownTableToAscii text).
Proof.
  unfold Api.sendSmart.
  destruct (JS.nullish mode (Types.renderMode account));
    try destruct (Api.shouldUseCardRendering text);
    cbn; auto.
Qed.

(** X20.  What [deliver] sends for a payload of the agent, with the
    default senders.  Nothing is sent exactly when the payload has no
    media URL and no text.  In a direct chat the message is a new one to
    the chat; in a group it is a reply to the inbound message when that
    has an id, and a new one to the chat otherwise.  What is sent is the
    text, for a payload with a media URL the URL (after the text and an
    empty line when there is a text); a card and a reply carry it as it
    is, a new plain message carries it as it is or with its tables
    converted. *)
Theorem deliver_quotes_only_in_groups (account : Types.ResolvedFeishuAccount)
    (chatId messageId : string) (text mediaUrl : option string) :
  let sent isGroup :=
    Dispatch.deliverPayload account chatId isGroup messageId text mediaUrl in
  let body :=
    if JS.truthy_opt mediaUrl then
      if JS.truthy (JS.nullish text "")
      then (JS.nullish text ""
            ++ String (ascii_of_nat 10)
                 (String (ascii_of_nat 10) (JS.nullish mediaUrl "")))%string
      else JS.nullish mediaUrl ""
    else JS.nullish text "" in
  (forall isGroup,
      sent isGroup = None
      <-> JS.truthy_opt mediaUrl = false
          /\ JS.truthy (JS.nullish text "") = false)
  /\ (forall o, sent false = Some o ->
        Api.is_reply o = false /\ Api.target o = chatId)
  /\ (forall o, sent true = Some o ->
        if JS.truthy messageId
        then Api.is_reply o = true /\ Api.target o = messageId
        else Api.is_reply o = false /\ Api.target o = chatId)
  /\ (forall isGroup o, sent isGroup = Some o ->
        Api.sent_text o = body
        \/ Api.is_reply o = false /\ Api.is_card o = false
           /\ Api.sent_text o = Api.markdownTableToAscii body).
Proof.
  cbv zeta. unfold Dispatch.deliverPayload, Dispatch.defaultMediaSender,
    Dispatch.defaultReplySender.
  cbn [JS.truthy_opt].
  destruct (JS.truthy_opt mediaUrl) eqn:Hmedia.
  - set (body := if JS.truthy (JS.nullish text "")
                 then (JS.nullish text ""
                       ++ String (ascii_of_nat 10)
                            (String (ascii_of_nat 10)
                               (JS.nullish mediaUrl "")))%string
                 else JS.nullish mediaUrl "").
    split; [ | split; [ | split ] ].
    + intros isGroup. split; [ discriminate | intros [H _]; discriminate H ].
    + intros o H. injection H as <-. cbn [andb].
      destruct (sendSmart_is_new_message account chatId body None)
        as (Hr & Ht & _). auto.
    + intros o H. injection H as <-. cbn [JS.nullish].
      destruct (JS.truthy messageId); cbn [andb].
      * destruct (replyMessage_is_reply account messageId body None)
          as (Hr & Ht & _). auto.
      * destruct (sendSmart_is_new_message account chatId body None)
          as (Hr & Ht & _). auto.
    + intros isGroup o H. injection H as <-.
      destruct (JS.truthy_opt (if isGroup then Some messageId else None)
                && isGroup).
      * left. apply replyMessage_is_reply.
      * destruct (sendSmart_is_new_message account chatId body None)
          as (Hr & _ & [Hs | [Hc Hs]]); auto.
  - destruct (JS.truthy (JS.nullish text "")) eqn:Htext.
    + split; [ | split; [ | split ] ].
      * intros isGroup. split; [ discriminate | intros [_ H]; discriminate H ].
      * intros o H. injection H as <-. cbn [andb].
        destruct (sendSmart_is_new_message account chatId (JS.nullish text "")
                    (Some (Dispatch.deliverRenderMode account
                             (JS.nullish text ""))))
          as (Hr & Ht & _). auto.
      * intros o H. injection H as <-. cbn [JS.nullish].
        destruct (JS.truthy messageId); cbn [andb].
        -- destruct (replyMessage_is_reply account messageId
                       (JS.nullish text "")
                       (Some (Dispatch.deliverRenderMode account
                                (JS.nullish text ""))))
             as (Hr & Ht & _). auto.
        -- destruct (sendSmart_is_new_message account chatId
                       (JS.nullish text "")
                       (Some (Dispatch.deliverRenderMode account
                                (JS.nullish text ""))))
             as (Hr & Ht & _). auto.
      * intros isGroup o H. injection H as <-.
        destruct (JS.truthy_opt (if isGroup then Some messageId else None)
                  && isGroup).
        -- left. apply replyMessage_is_reply.
        -- destruct (sendSmart_is_new_message account chatId
                       (JS.nullish text "")
                       (Some (Dispatch.deliverRenderMode account
                                (JS.nullish text ""))))
             as (Hr & _ & [Hs | [Hc Hs]]); auto.
    + split; [ | split; [ | split ] ].
      * intros isGroup. split; auto.
      * intros o H. discriminate H.
      * intros o H. discriminate H.
      * intros isGroup o H. discriminate H.
Qed.

(** A payload with a picture, in a group. *)
Lemma deliver_quotes_only_in_groups_witness :
  let o := Api.ReplyText "om_1" "https://example.org/a.png" in
  Dispatch.deliverPayload
    (Sample.policy None None None true Types.RenderRaw) "oc_team" true
    "om_1" None (Some "https://example.org/a.png")
  = Some o
  /\ Api.is_reply o = true /\ Api.target o = "om_1".
Proof.
  split; [ reflexivity | ].
  exact (proj1 (proj2 (proj2 (deliver_quotes_only_in_groups
           (Sample.policy None None None true Types.RenderRaw)
           "oc_team" "om_1" None (Some "https://example.org/a.png"))))
           (Api.ReplyText "om_1" "https://example.org/a.png") eq_refl).
Defined.

(** ** websocket.ts: the whole trace of the native client *)

Lemma ws_delays_app (a b : list Websocket.action) :
  Websocket.delays (a ++ b) = Websocket.delays a ++ Websocket.delays b.
Proof.
  induction a as [|x rest IH]; [ reflexivity | ].
  destruct x; cbn [app Websocket.delays]; now rewrite IH.
Qed.

Lemma ws_run_step_actions (e : Websocket.event) (rest : list Websocket.event)
    (c : Websocket.client) :
  snd (Websocket.run (e :: rest) c)
  = snd (Websocket.step e c)
    ++ snd (Websocket.run rest (fst (Websocket.step e c))).
Proof.
  cbn [Websocket.run]. destruct (Websocket.step e c) as [c1 a1].
  cbn [fst snd]. destruct (Websocket.run rest c1) as [c2 a2]. reflexivity.
Qed.

Lemma ws_connect_sets_no_timer (o : Websocket.ConnectOutcome)
    (c : Websocket.client) :
  Websocket.delays (snd (Websocket.connect o c)) = [].
Proof. destruct o; reflexivity. Qed.

(** Once the counter is at the maximum, nothing but an open brings a
    reconnection back. *)
Lemma ws_exhausted_stays_quiet (evs : list Websocket.event) :
  forall c : Websocket.client,
    forallb (fun e => negb (Websocket.is_open e)) evs = true ->
    Websocket.reconnectAttempts c = Websocket.maxReconnectAttempts ->
    Websocket.delays (snd (Websocket.run evs c)) = []
    /\ Websocket.reconnectAttempts (fst (Websocket.run evs c))
       = Websocket.maxReconnectAttempts.
Proof.
  induction evs as [|e rest IH]; intros c Hno Hc; [ split; auto | ].
  cbn [forallb] in Hno. apply andb_true_iff in Hno as [He Hrest].
  rewrite ws_run_step, ws_run_step_actions, ws_delays_app.
  assert (Hstep : Websocket.delays (snd (Websocket.step e c)) = []
                  /\ Websocket.reconnectAttempts (fst (Websocket.step e c))
                     = Websocket.maxReconnectAttempts).
  { destruct e; cbn [Websocket.step]; try discriminate He.
    - now rewrite ws_connect_sets_no_timer, ws_connect_keeps_attempts.
    - destruct (Websocket.reconnectTimeout c); [ | now split ].
      now rewrite ws_connect_sets_no_timer, ws_connect_keeps_attempts.
    - destruct (ws_onclose_gives_up c) as (Hacts & _); [ lia | ].
      rewrite Hacts, ws_onclose_attempts, Hc.
      split; [ reflexivity | lia ].
    - split; reflexivity. }
  destruct Hstep as [Hd Ha].
  destruct (IH (fst (Websocket.step e c)) Hrest Ha) as [Hd' Ha'].
  rewrite Hd, Hd'. split; [ reflexivity | exact Ha' ].
Qed.

(** X21.  [stop] ends reconnection for good: whatever the client was
    doing, after [stop] it is disconnected with no socket, no heartbeat
    and no pending timer, and no later event schedules a reconnection,
    not even a new [start] whose socket closes, until a socket opens. *)
Theorem native_ws_stop_ends_reconnection (c : Websocket.client)
    (evs : list Websocket.event) :
  forallb (fun e => negb (Websocket.is_open e)) evs = true ->
  let stopped := fst (Websocket.step Websocket.Stop c) in
  Websocket.state stopped = Websocket.disconnected
  /\ Websocket.ws stopped = false
  /\ Websocket.heartbeatInterval stopped = false
  /\ Websocket.reconnectTimeout stopped = None
  /\ Websocket.delays (snd (Websocket.run (Websocket.Stop :: evs) c)) = [].
Proof.
  intros Hno stopped.
  repeat (split; [ reflexivity | ]).
  rewrite ws_run_step_actions, ws_delays_app.
  destruct (ws_exhausted_stays_quiet evs stopped Hno) as [Hd _];
    [ reflexivity | ].
  fold stopped. rewrite Hd. reflexivity.
Qed.

(** A client stopped while it waits to reconnect, then started again with
    a socket that closes before it opens. *)
Lemma native_ws_stop_ends_reconnection_witness :
  Websocket.delays
    (snd (Websocket.run
            [Websocket.Stop; Websocket.TimerFired Websocket.SocketCreated;
             Websocket.Start Websocket.SocketCreated; Websocket.OnClose]
            (fst (Websocket.run
                    [Websocket.Start Websocket.SocketCreated;
                     Websocket.OnOpen; Websocket.OnClose]
                    Websocket.create))))
  = [].
Proof.
  apply (native_ws_stop_ends_reconnection
           (fst (Websocket.run
                   [Websocket.Start Websocket.SocketCreated;
                    Websocket.OnOpen; Websocket.OnClose]
                   Websocket.create))
           [Websocket.TimerFired Websocket.SocketCreated;
            Websocket.Start Websocket.SocketCreated; Websocket.OnClose]).
  reflexivity.
Defined.

Lemma backoff_step (a k : nat) :
  a < 10 ->
  Trace.backoff a (S k) = (1000 * 2 ^ Z.of_nat a)%Z :: Trace.backoff (S a) k.
Proof.
  intros Ha. unfold Trace.backoff.
  replace (Nat.min (S k) (10 - a)) with (S (Nat.min k (10 - S a))) by lia.
  reflexivity.
Qed.

Lemma ws_backoff_trace (evs : list Websocket.event) :
  forall c : Websocket.client,
    forallb (fun e => negb (Websocket.is_open e || Websocket.is_stop e)) evs
    = true ->
    Websocket.reconnectAttempts c <= 10 ->
    Websocket.delays (snd (Websocket.run evs c))
    = Trace.backoff (Websocket.reconnectAttempts c)
        (List.length (filter Trace.is_close evs)).
Proof.
  induction evs as [|e rest IH]; intros c Hno Hc.
  - unfold Trace.backoff. reflexivity.
  - cbn [forallb] in Hno. apply andb_true_iff in Hno as [He Hrest].
    rewrite ws_run_step_actions, ws_delays_app.
    destruct e; cbn [Websocket.step filter Trace.is_close]; try discriminate He.
    + rewrite ws_connect_sets_no_timer, IH, ws_connect_keeps_attempts; auto.
      now rewrite ws_connect_keeps_attempts.
    + destruct (Websocket.reconnectTimeout c); cbn [fst snd].
      * rewrite ws_connect_sets_no_timer, IH, ws_connect_keeps_attempts;
          auto.
        now rewrite ws_connect_keeps_attempts.
      * now rewrite IH.
    + cbn [List.length].
      destruct (Nat.eq_dec (Websocket.reconnectAttempts c) 10) as [Hten|Hlt].
      * destruct (ws_onclose_gives_up c) as (Hacts & _);
          [ unfold Websocket.maxReconnectAttempts; lia | ].
        rewrite Hacts, IH; auto.
        -- rewrite ws_onclose_attempts, Hten. unfold Trace.backoff.
           unfold Websocket.maxReconnectAttempts.
           replace (Nat.min 11 (Nat.max 10 10)) with 10 by lia.
           replace (10 - 10) with 0 by lia.
           now rewrite !Nat.min_0_r.
        -- rewrite ws_onclose_attempts.
           unfold Websocket.maxReconnectAttempts. lia.
      * destruct (ws_onclose_schedules c) as (Hacts & _);
          [ unfold Websocket.maxReconnectAttempts; lia | ].
        rewrite Hacts, IH; auto.
        -- rewrite ws_onclose_attempts.
           unfold Websocket.maxReconnectAttempts.
           replace (Nat.min (S (Websocket.reconnectAttempts c))
                      (Nat.max (Websocket.reconnectAttempts c) 10))
             with (S (Websocket.reconnectAttempts c)) by lia.
           rewrite backoff_step by lia. reflexivity.
        -- rewrite ws_onclose_attempts.
           unfold Websocket.maxReconnectAttempts. lia.
Qed.

(** X22.  While no socket opens and the client is not stopped, the
    reconnections a run schedules are, in order, after 1000, 2000, 4000,
    ... ms, doubling with every close, and there are never more than ten
    of them however often the socket closes. *)
Theorem native_ws_backoff_sequence (evs : list Websocket.event) :
  forallb (fun e => negb (Websocket.is_open e || Websocket.is_stop e)) evs
  = true ->
  let scheduled := Websocket.delays (snd (Websocket.run evs Websocket.create)) in
  let closes := List.length (filter Trace.is_close evs) in
  scheduled
  = map (fun i => (1000 * 2 ^ Z.of_nat i)%Z) (seq 0 (Nat.min closes 10))
  /\ List.length scheduled <= 10.
Proof.
  intros Hno scheduled closes.
  assert (Hs : scheduled
               = map (fun i => (1000 * 2 ^ Z.of_nat i)%Z)
                   (seq 0 (Nat.min closes 10))).
  { subst scheduled closes.
    rewrite (ws_backoff_trace evs Websocket.create Hno)
      by (cbn; lia).
    reflexivity. }
  split; [ exact Hs | ].
  rewrite Hs, length_map, length_seq. lia.
Qed.

(** Three failed connections in a row. *)
Lemma native_ws_backoff_sequence_witness :
  Websocket.delays
    (snd (Websocket.run
            [Websocket.Start Websocket.SocketCreated; Websocket.OnClose;
             Websocket.TimerFired Websocket.SocketCreated; Websocket.OnClose;
             Websocket.TimerFired Websocket.HandshakeFailed;
             Websocket.TimerFired Websocket.SocketCreated; Websocket.OnClose]
            Websocket.create))
  = [1000; 2000; 4000]%Z.
Proof.
  apply (native_ws_backoff_sequence
           [Websocket.Start Websocket.SocketCreated; Websocket.OnClose;
            Websocket.TimerFired Websocket.SocketCreated; Websocket.OnClose;
            Websocket.TimerFired Websocket.HandshakeFailed;
            Websocket.TimerFired Websocket.SocketCreated; Websocket.OnClose]).
  reflexivity.
Defined.

(** ** auth.ts: the token cache *)

(** What a token fetch does to the world: it answers no API request,
    makes at most one request, a token request, and touches the cache
    only when it returns, with the token and lifetime of the response. *)
Lemma fetchTenantAccessToken_effect {R : Type} (account : Auth.Account)
    (w : Auth.World R) :
  let r := Auth.fetchTenantAccessToken account w in
  Auth.apiReplies (fst r) = Auth.apiReplies w
  /\ (exists new,
         Auth.requests (fst r) = Auth.requests w ++ new
         /\ List.length new <= 1
         /\ forallb Auth.is_token new = true)
  /\ match snd r with
     | Json.Throw _ => Auth.tokenCache (fst r) = Auth.tokenCache w
     | Json.Ok tk =>
         exists elapsed status statusText data lifetime,
           Auth.tokenReplies w
           = (elapsed,
              Auth.TokenResponse true status statusText (Json.Ok data))
             :: Auth.tokenReplies (fst r)
           /\ Auth.code data = 0%Z
           /\ Auth.expire data = Some lifetime
           /\ lifetime <> 0%Z
           /\ Auth.tenant_access_token data = Some tk
           /\ tk <> ""
           /\ Auth.now (fst r) = (Auth.now w + elapsed)%Z
           /\ Auth.tokenCache (fst r)
              = JSMap.set (Auth.accountId account)
                  {| Auth.token := tk;
                     Auth.expiresAt :=
                       (Auth.now w + elapsed + lifetime * 1000)%Z |}
                  (Auth.tokenCache w)
     end.
Proof.
  unfold Auth.fetchTenantAccessToken, Auth.bind, Auth.fetch_token,
    Auth.throw, Auth.ret, Auth.Date_now, Auth.cache_update.
  destruct (negb (JS.truthy_opt (Auth.appId account))
            || negb (JS.truthy_opt (Auth.appSecret account))).
  { cbn [fst snd]. split; [ reflexivity | split; [ | reflexivity ] ].
    exists []. rewrite app_nil_r. repeat split; auto. }
  assert (Hone : forall rq : Auth.Request,
             Auth.is_token rq = true ->
             exists new,
               Auth.requests w ++ [rq] = Auth.requests w ++ new
               /\ List.length new <= 1
               /\ forallb Auth.is_token new = true).
  { intros rq Hrq. exists [rq]. cbn. rewrite Hrq. repeat split; auto. }
  destruct (Auth.tokenReplies w) as [|[elapsed reply] rest] eqn:Hreplies.
  { cbn [fst snd Auth.apiReplies Auth.requests Auth.tokenCache].
    split; [ reflexivity | split; [ now apply Hone | reflexivity ] ]. }
  destruct reply as [err | ok status statusText json].
  { cbn [fst snd Auth.apiReplies Auth.requests Auth.tokenCache].
    split; [ reflexivity | split; [ now apply Hone | reflexivity ] ]. }
  destruct ok; cbn [negb];
    [ | cbn [fst snd Auth.apiReplies Auth.requests Auth.tokenCache];
        split; [ reflexivity | split; [ now apply Hone | reflexivity ] ] ].
  destruct json as [data | err];
    [ | cbn [fst snd Auth.apiReplies Auth.requests Auth.tokenCache];
        split; [ reflexivity | split; [ now apply Hone | reflexivity ] ] ].
  destruct (Auth.code data =? 0)%Z eqn:Hcode; cbn [negb];
    [ | cbn [fst snd Auth.apiReplies Auth.requests Auth.tokenCache];
        split; [ reflexivity | split; [ now apply Hone | reflexivity ] ] ].
  destruct (Auth.tenant_access_token data) as [tk|] eqn:Htk;
    cbn [JS.truthy_opt negb orb];
    [ | cbn [fst snd Auth.apiReplies Auth.requests Auth.tokenCache];
        split; [ reflexivity | split; [ now apply Hone | reflexivity ] ] ].
  destruct (JS.truthy tk) eqn:Htruthy; cbn [negb orb];
    [ | cbn [fst snd Auth.apiReplies Auth.requests Auth.tokenCache];
        split; [ reflexivity | split; [ now apply Hone | reflexivity ] ] ].
  destruct (Auth.expire data) as [lifetime|] eqn:Hexp;
    cbn [Auth.truthy_num negb];
    [ | cbn [fst snd Auth.apiReplies Auth.requests Auth.tokenCache];
        split; [ reflexivity | split; [ now apply Hone | reflexivity ] ] ].
  destruct (lifetime =? 0)%Z eqn:Hzero; cbn [negb];
    [ cbn [fst snd Auth.apiReplies Auth.requests Auth.tokenCache];
      split; [ reflexivity | split; [ now apply Hone | reflexivity ] ] | ].
  cbn [fst snd Auth.apiReplies Auth.requests Auth.tokenCache Auth.now
       Auth.tokenReplies JS.nullish].
  split; [ reflexivity | split; [ now apply Hone | ] ].
  exists elapsed, status, statusText, data, lifetime.
  apply Z.eqb_eq in Hcode. apply Z.eqb_neq in Hzero.
  repeat split; auto.
  intros ->. discriminate Htruthy.
Qed.

(** X23.  A token, once fetched, is served from the cache without a
    request exactly until five minutes before its lifetime is over, and
    fetched anew from then on; a token whose lifetime is five minutes or
    less is never served from the cache. *)
Theorem token_reuse_window {R : Type} (account : Auth.Account)
    (w w1 : Auth.World R) (tk : string) :
  Auth.fetchTenantAccessToken account w = (w1, Json.Ok tk) ->
  exists elapsed status statusText data lifetime,
    hd_error (Auth.tokenReplies w)
    = Some (elapsed,
            Auth.TokenResponse true status statusText (Json.Ok data))
    /\ Auth.expire data = Some lifetime
    /\ Auth.tenant_access_token data = Some tk
    /\ Auth.now w1 = (Auth.now w + elapsed)%Z
    /\ forall w2 : Auth.World R,
         Auth.tokenCache w2 = Auth.tokenCache w1 ->
         ((Auth.now w2 < Auth.now w1 + lifetime * 1000 - 300000)%Z ->
          Auth.getTenantAccessToken account w2 = (w2, Json.Ok tk))
         /\ ((Auth.now w1 + lifetime * 1000 - 300000 <= Auth.now w2)%Z ->
             Auth.getTenantAccessToken account w2
             = Auth.fetchTenantAccessToken account w2)
         /\ ((lifetime <= 300)%Z -> (Auth.now w1 <= Auth.now w2)%Z ->
             Auth.getTenantAccessToken account w2
             = Auth.fetchTenantAccessToken account w2).
Proof.
  intros Hfetch.
  pose proof (fetchTenantAccessToken_effect account w) as Heff.
  rewrite Hfetch in Heff. cbn [fst snd] in Heff.
  destruct Heff as (_ & _ & elapsed & status & statusText & data & lifetime
                    & Hreplies & _ & Hexp & _ & Htk & _ & Hnow & Hcache).
  exists elapsed, status, statusText, data, lifetime.
  split; [ now rewrite Hreplies | ].
  split; [ exact Hexp | split; [ exact Htk | split; [ exact Hnow | ] ] ].
  intros w2 Hsame.
  assert (Hget : JSMap.get (Auth.accountId account) (Auth.tokenCache w2)
                 = Some {| Auth.token := tk;
                           Auth.expiresAt :=
                             (Auth.now w + elapsed + lifetime * 1000)%Z |}).
  { rewrite Hsame, Hcache. apply JSMap_get_set_same. }
  unfold Auth.getTenantAccessToken. rewrite Hget.
  cbn [Auth.expiresAt Auth.token]. unfold Auth.TOKEN_REFRESH_BUFFER_MS.
  rewrite Hnow.
  split; [ | split ].
  - intros Hin.
    replace (Auth.now w2 <? Auth.now w + elapsed + lifetime * 1000 - 5 * 60 * 1000)%Z
      with true by (symmetry; apply Z.ltb_lt; lia).
    reflexivity.
  - intros Hout.
    replace (Auth.now w2 <? Auth.now w + elapsed + lifetime * 1000 - 5 * 60 * 1000)%Z
      with false by (symmetry; apply Z.ltb_ge; lia).
    reflexivity.
  - intros Hshort Hlater.
    replace (Auth.now w2 <? Auth.now w + elapsed + lifetime * 1000 - 5 * 60 * 1000)%Z
      with false by (symmetry; apply Z.ltb_ge; lia).
    reflexivity.
Qed.

(** X24.  A call of [getTenantAccessToken] that throws leaves the cache
    as it was, so that a token cached before stays; a call that returns
    leaves the returned token in the cache under the account's id; and no
    call touches the tokens of other accounts. *)
Theorem token_failure_keeps_cache {R : Type} (account : Auth.Account)
    (w : Auth.World R) :
  let r := Auth.getTenantAccessToken account w in
  (forall message, snd r = Json.Throw message ->
     Auth.tokenCache (fst r) = Auth.tokenCache w)
  /\ (forall tk, snd r = Json.Ok tk ->
        exists cached,
          JSMap.get (Auth.accountId account) (Auth.tokenCache (fst r))
          = Some cached
          /\ Auth.token cached = tk)
  /\ (forall other, Auth.accountId account <> other ->
        JSMap.get other (Auth.tokenCache (fst r))
        = JSMap.get other (Auth.tokenCache w)).
Proof.
  assert (Hfetch :
    let r := Auth.fetchTenantAccessToken account w in
    (forall message, snd r = Json.Throw message ->
       Auth.tokenCache (fst r) = Auth.tokenCache w)
    /\ (forall tk, snd r = Json.Ok tk ->
          exists cached,
            JSMap.get (Auth.accountId account) (Auth.tokenCache (fst r))
            = Some cached
            /\ Auth.token cached = tk)
    /\ (forall other, Auth.accountId account <> other ->
          JSMap.get other (Auth.tokenCache (fst r))
          = JSMap.get other (Auth.tokenCache w))).
  { pose proof (fetchTenantAccessToken_effect account w) as Heff.
    cbv zeta in Heff |- *.
    destruct Heff as (_ & _ & Hcache).
    destruct (snd (Auth.fetchTenantAccessToken account w)) as [tk0|m0].
    - destruct Hcache as (elapsed & status & statusText & data & lifetime
                          & _ & _ & _ & _ & _ & _ & _ & Hcache).
      split; [ intros message H; discriminate H | split ].
      + intros tk H. injection H as <-. rewrite Hcache.
        eexists. split; [ apply JSMap_get_set_same | reflexivity ].
      + intros other Hother. rewrite Hcache.
        now apply JSMap_get_set_other.
    - split; [ intros _ _; exact Hcache | split ].
      + intros tk H. discriminate H.
      + intros other _. now rewrite Hcache. }
  unfold Auth.getTenantAccessToken.
  destruct (JSMap.get (Auth.accountId account) (Auth.tokenCache w))
    as [cached|] eqn:Hget; [ | exact Hfetch ].
  destruct (Auth.now w <? Auth.expiresAt cached - Auth.TOKEN_REFRESH_BUFFER_MS)%Z;
    [ | exact Hfetch ].
  cbn [fst snd]. split; [ reflexivity | split; [ | reflexivity ] ].
  intros tk H. injection H as <-. now exists cached.
Qed.

(** A token that lives two hours, fetched at time 0 and there after
    40 ms. *)
Lemma token_reuse_window_witness :
  exists elapsed status statusText data lifetime,
    hd_error
      (Auth.tokenReplies
         (Fixture.world [] 0 [(40%Z, Fixture.tokenData "t-1" 7200)] []))
    = Some (elapsed,
            Auth.TokenResponse true status statusText (Json.Ok data))
    /\ Auth.expire data = Some lifetime.
Proof.
  destruct (token_reuse_window Fixture.account
              (Fixture.world [] 0 [(40%Z, Fixture.tokenData "t-1" 7200)] [])
              (fst (Auth.fetchTenantAccessToken Fixture.account
                      (Fixture.world [] 0
                         [(40%Z, Fixture.tokenData "t-1" 7200)] [])))
              "t-1")
    as (elapsed & status & statusText & data & lifetime & Hhd & Hexp & _).
  - reflexivity.
  - exists elapsed, status, statusText, data, lifetime. now split.
Defined.

(** ** api.ts: the request layer *)

Lemma getTenantAccessToken_effect {R : Type} (account : Auth.Account)
    (w : Auth.World R) :
  let r := Auth.getTenantAccessToken account w in
  Auth.apiReplies (fst r) = Auth.apiReplies w
  /\ exists new,
       Auth.requests (fst r) = Auth.requests w ++ new
       /\ List.length new <= 1
       /\ forallb Auth.is_token new = true.
Proof.
  pose proof (fetchTenantAccessToken_effect account w) as (Hapi & Hnew & _).
  unfold Auth.getTenantAccessToken.
  destruct (JSMap.get (Auth.accountId account) (Auth.tokenCache w))
    as [cached|]; [ | now split ].
  destruct (Auth.now w <? Auth.expiresAt cached - Auth.TOKEN_REFRESH_BUFFER_MS)%Z;
    [ | now split ].
  cbn [fst]. split; [ reflexivity | ].
  exists []. rewrite app_nil_r. repeat split; auto.
Qed.

Lemma filter_token_requests (new : list Auth.Request) :
  forallb Auth.is_token new = true ->
  filter Auth.is_api new = [] /\ filter Auth.is_token new = new.
Proof.
  induction new as [|rq rest IH]; [ now split | ].
  cbn [forallb filter]. intros H. apply andb_true_iff in H as [Hrq Hrest].
  destruct (IH Hrest) as [Ha Ht]. rewrite Hrq, Ht.
  unfold Auth.is_token in Hrq. apply negb_true_iff in Hrq.
  now rewrite Hrq.
Qed.

Lemma token_requests_carry (method url : string)
    (query : option (list (string * string)))
    (body : option Auth.FeishuSendMessageRequest)
    (new : list Auth.Request) :
  forallb Auth.is_token new = true ->
  Forall (Request.carries method url query body) new.
Proof.
  induction new as [|rq rest IH]; [ constructor | ].
  cbn [forallb]. intros H. apply andb_true_iff in H as [Hrq Hrest].
  constructor; [ | now apply IH ].
  destruct rq; [ exact I | discriminate Hrq ].
Qed.

(** One pass makes at most one token request and at most one API request,
    the one it was asked to make. *)
Lemma feishuRequest_pass_effect {T : Type} (account : Auth.Account)
    (method endpoint : string) (body : option Auth.FeishuSendMessageRequest)
    (queryParams : option (list (string * string)))
    (w : Auth.World (Request.ApiReply T)) :
  let r := Request.feishuRequest_pass account method endpoint body
             queryParams None w in
  exists new,
    Auth.requests (fst r) = Auth.requests w ++ new
    /\ List.length (filter Auth.is_api new) <= 1
    /\ List.length (filter Auth.is_token new) <= 1
    /\ Forall
         (Request.carries method (Auth.getApiBase account ++ endpoint)
            queryParams body)
         new.
Proof.
  unfold Request.feishuRequest_pass, Auth.bind.
  pose proof (getTenantAccessToken_effect account w) as (_ & new & Hnew & Hlen & Htok).
  destruct (Auth.getTenantAccessToken account w) as [w1 [tk|m]];
    cbn [fst] in Hnew |- *.
  - destruct (filter_token_requests new Htok) as [Ha Ht].
    pose proof (token_requests_carry method
                  (Auth.getApiBase account ++ endpoint) queryParams body
                  new Htok) as Hcarry.
    unfold Request.fetch_api.
    destruct (match Auth.apiReplies w1 with
              | [] => (0%Z, Request.ApiRejected "fetch failed", [])
              | (elapsed, reply) :: rest => (elapsed, reply, rest)
              end) as [[elapsed reply] rest].
    assert (Hgoal :
      exists new0,
        Auth.requests w1
        ++ [Auth.ApiRequest method (Auth.getApiBase account ++ endpoint)
              queryParams tk body]
        = Auth.requests w ++ new0
        /\ List.length (filter Auth.is_api new0) <= 1
        /\ List.length (filter Auth.is_token new0) <= 1
        /\ Forall
             (Request.carries method (Auth.getApiBase account ++ endpoint)
                queryParams body)
             new0).
    { eexists. rewrite Hnew, <- app_assoc. split; [ reflexivity | ].
      rewrite !filter_app, Ha, Ht. cbn. rewrite length_app. cbn.
      split; [ lia | split; [ lia | ] ].
      apply Forall_app. split; [ exact Hcarry | ].
      constructor; [ cbn; auto | constructor ]. }
    destruct reply as [err | [data | err]]; cbn [fst]; try exact Hgoal.
    destruct (Request.tokenExpired data); cbn [fst]; exact Hgoal.
  - destruct (filter_token_requests new Htok) as [Ha Ht].
    exists new. rewrite Ha, Ht. cbn. split; [ exact Hnew | ].
    split; [ lia | split; [ exact Hlen | ] ].
    now apply token_requests_carry.
Qed.

Lemma feishuRequest_effect {T : Type}
    (account : Auth.Account) (method endpoint : string)
    (body : option Auth.FeishuSendMessageRequest)
    (queryParams : option (list (string * string)))
    (retryOnAuthError : bool) (w : Auth.World (Request.ApiReply T)) :
  let r := Request.feishuRequest account method endpoint body queryParams
             retryOnAuthError w in
  let rounds := if retryOnAuthError then 2 else 1 in
  exists new,
    Auth.requests (fst r) = Auth.requests w ++ new
    /\ List.length (filter Auth.is_api new) <= rounds
    /\ List.length (filter Auth.is_token new) <= rounds
    /\ Forall
         (Request.carries method (Auth.getApiBase account ++ endpoint)
            queryParams body)
         new.
Proof.
  unfold Request.feishuRequest.
  destruct retryOnAuthError;
    [ | exact (feishuRequest_pass_effect account method endpoint body
                 queryParams w) ].
  cbv zeta.
  unfold Request.feishuRequest_pass at 1. unfold Auth.bind.
  pose proof (getTenantAccessToken_effect account w)
    as (_ & new & Hnew & Hlen & Htok).
  destruct (filter_token_requests new Htok) as [Ha Ht].
  pose proof (token_requests_carry method
                (Auth.getApiBase account ++ endpoint) queryParams body
                new Htok) as Hcarry.
  destruct (Auth.getTenantAccessToken account w) as [w1 [tk|m]];
    cbn [fst] in Hnew |- *.
  - unfold Request.fetch_api.
    destruct (match Auth.apiReplies w1 with
              | [] => (0%Z, Request.ApiRejected "fetch failed", [])
              | (elapsed, reply) :: rest => (elapsed, reply, rest)
              end) as [[elapsed reply] rest].
    set (rq := Auth.ApiRequest method (Auth.getApiBase account ++ endpoint)
                 queryParams tk body).
    assert (Hone :
      exists new0,
        Auth.requests w1 ++ [rq] = Auth.requests w ++ new0
        /\ List.length (filter Auth.is_api new0) <= 2
        /\ List.length (filter Auth.is_token new0) <= 2
        /\ Forall
             (Request.carries method (Auth.getApiBase account ++ endpoint)
                queryParams body)
             new0).
    { eexists. rewrite Hnew, <- app_assoc. split; [ reflexivity | ].
      rewrite !filter_app, Ha, Ht. cbn. rewrite length_app. cbn.
      split; [ lia | split; [ lia | ] ].
      apply Forall_app. split; [ exact Hcarry | ].
      constructor; [ cbn; auto | constructor ]. }
    destruct reply as [err | [data | err]]; cbn [fst]; try exact Hone.
    destruct (Request.tokenExpired data); cbn [fst]; [ | exact Hone ].
    unfold Auth.invalidateToken, Auth.cache_update.
    match goal with
    | |- context [Request.feishuRequest_pass _ _ _ _ _ None ?w0] =>
        set (w2 := w0);
        pose proof (feishuRequest_pass_effect account method endpoint body
                      queryParams w2) as (new2 & Hnew2 & Hapi2 & Htok2 & Hc2)
    end.
    exists (new ++ [rq] ++ new2).
    rewrite Hnew2. subst w2. cbn [Auth.requests].
    rewrite Hnew, <- !app_assoc. split; [ reflexivity | ].
    rewrite !filter_app, Ha, Ht, !length_app. cbn [filter Auth.is_api Auth.is_token rq negb List.length app].
    split; [ lia | split; [ lia | ] ].
    apply Forall_app. split; [ exact Hcarry | ].
    constructor; [ cbn; auto | exact Hc2 ].
  - exists new. rewrite Ha, Ht. cbn. split; [ exact Hnew | ].
    split; [ lia | split; [ lia | exact Hcarry ] ].
Qed.

(** X25.  Whatever the network answers, a call of [feishuRequest] makes
    at most two API requests and at most two token requests (one of each
    when [retryOnAuthError] is off), and every API request it makes has
    the method, address, parameters and body it was called with. *)
Theorem feishuRequest_retries_at_most_once {T : Type}
    (account : Auth.Account) (method endpoint : string)
    (body : option Auth.FeishuSendMessageRequest)
    (queryParams : option (list (string * string)))
    (retryOnAuthError : bool) (w : Auth.World (Request.ApiReply T)) :
  let r := Request.feishuRequest account method endpoint body queryParams
             retryOnAuthError w in
  let rounds := if retryOnAuthError then 2 else 1 in
  exists new,
    Auth.requests (fst r) = Auth.requests w ++ new
    /\ List.length (filter Auth.is_api new) <= rounds
    /\ List.length (filter Auth.is_token new) <= rounds
    /\ Forall
         (Request.carries method (Auth.getApiBase account ++ endpoint)
            queryParams body)
         new.
Proof.
  exact (feishuRequest_effect account method endpoint body queryParams
           retryOnAuthError w).
Qed.

Lemma JSMap_get_delete_same {V : Type} (k : string) (m : JSMap.t V) :
  JSMap.get k (JSMap.delete k m) = None.
Proof.
  pose proof (JSMap_has_delete_same k m) as H. unfold JSMap.has in H.
  destruct (JSMap.get k (JSMap.delete k m)); [ discriminate H | reflexivity ].
Qed.

(** X26.  A cached token the server no longer accepts is replaced within
    the call: when the answer to a request made with a token from the
    cache has the code 99991663 or 99991664, the token is dropped, one is
    fetched, the request is made again with it, and the second answer is
    what the call returns, whatever code it has.  The new token is in the
    cache afterwards. *)
Theorem stale_token_is_replaced {T : Type} (account : Auth.Account)
    (method endpoint : string) (body : option Auth.FeishuSendMessageRequest)
    (queryParams : option (list (string * string)))
    (cache : JSMap.t Auth.FeishuTokenCache) (t : Z)
    (cached : Auth.FeishuTokenCache)
    (first second : Request.FeishuApiResponse T)
    (fresh note statusText : string) (lifetime status d1 d2 dt : Z)
    (tokensLater : list (Z * Auth.TokenReply))
    (answersLater : list (Z * Request.ApiReply T))
    (log : list Auth.Request) :
  JSMap.get (Auth.accountId account) cache = Some cached ->
  (t < Auth.expiresAt cached - 300000)%Z ->
  Auth.hasValidCredentials account = true ->
  Request.tokenExpired first = true ->
  JS.truthy fresh = true ->
  lifetime <> 0%Z ->
  let w :=
    {| Auth.tokenCache := cache;
       Auth.now := t;
       Auth.tokenReplies :=
         (dt, Auth.TokenResponse true status statusText
                (Json.Ok {| Auth.code := 0; Auth.msg := note;
                            Auth.tenant_access_token := Some fresh;
                            Auth.expire := Some lifetime |}))
         :: tokensLater;
       Auth.apiReplies :=
         (d1, Request.ApiResponse (Json.Ok first))
         :: (d2, Request.ApiResponse (Json.Ok second)) :: answersLater;
       Auth.requests := log |} in
  let r := Request.feishuRequest account method endpoint body queryParams
             true w in
  let url := (Auth.getApiBase account ++ endpoint)%string in
  snd r = Json.Ok second
  /\ Auth.requests (fst r)
     = log
       ++ [Auth.ApiRequest method url queryParams (Auth.token cached) body;
           Auth.TokenRequest
             (Auth.getApiBase account
              ++ "/auth/v3/tenant_access_token/internal")
             (JS.nullish (Auth.appId account) "")
             (JS.nullish (Auth.appSecret account) "");
           Auth.ApiRequest method url queryParams fresh body]
  /\ JSMap.get (Auth.accountId account) (Auth.tokenCache (fst r))
     = Some {| Auth.token := fresh;
               Auth.expiresAt := (t + d1 + dt + lifetime * 1000)%Z |}
  /\ Auth.apiReplies (fst r) = answersLater.
Proof.
  intros Hget Hvalid Hcred Hexpired Hfresh Hlife w r url.
  assert (Hr :
    r = ({| Auth.tokenCache :=
              JSMap.set (Auth.accountId account)
                {| Auth.token := fresh;
                   Auth.expiresAt := (t + d1 + dt + lifetime * 1000)%Z |}
                (JSMap.delete (Auth.accountId account) cache);
            Auth.now := (t + d1 + dt + d2)%Z;
            Auth.tokenReplies := tokensLater;
            Auth.apiReplies := answersLater;
            Auth.requests :=
              ((log
                ++ [Auth.ApiRequest method url queryParams
                      (Auth.token cached) body])
               ++ [Auth.TokenRequest
                     (Auth.getApiBase account
                      ++ "/auth/v3/tenant_access_token/internal")
                     (JS.nullish (Auth.appId account) "")
                     (JS.nullish (Auth.appSecret account) "")])
              ++ [Auth.ApiRequest method url queryParams fresh body] |},
         Json.Ok second)).
  { subst r w url.
    unfold Request.feishuRequest, Request.feishuRequest_pass, Auth.bind.
    unfold Auth.getTenantAccessToken at 1.
    cbn [Auth.tokenCache Auth.now]. rewrite Hget.
    unfold Auth.TOKEN_REFRESH_BUFFER_MS.
    replace (t <? Auth.expiresAt cached - 5 * 60 * 1000)%Z with true
      by (symmetry; apply Z.ltb_lt; lia).
    unfold Request.fetch_api at 1.
    cbn [Auth.apiReplies Auth.tokenCache Auth.now Auth.tokenReplies
         Auth.requests].
    rewrite Hexpired.
    unfold Auth.invalidateToken, Auth.cache_update.
    cbn [Auth.apiReplies Auth.tokenCache Auth.now Auth.tokenReplies
         Auth.requests].
    unfold Auth.getTenantAccessToken.
    cbn [Auth.tokenCache Auth.now]. rewrite JSMap_get_delete_same.
    unfold Auth.fetchTenantAccessToken, Auth.bind, Auth.fetch_token,
      Auth.throw, Auth.ret, Auth.Date_now, Auth.cache_update.
    unfold Auth.hasValidCredentials in Hcred.
    apply andb_true_iff in Hcred as [Hid Hsecret]. rewrite Hid, Hsecret.
    cbn [negb orb Auth.apiReplies Auth.tokenCache Auth.now Auth.tokenReplies
         Auth.requests Auth.code Auth.msg Auth.tenant_access_token
         Auth.expire Z.eqb JS.truthy_opt Auth.truthy_num JS.nullish].
    rewrite Hfresh.
    replace (lifetime =? 0)%Z with false
      by (symmetry; now apply Z.eqb_neq).
    cbn [negb orb Auth.apiReplies Auth.tokenCache Auth.now
         Auth.tokenReplies Auth.requests].
    unfold Request.fetch_api.
    cbn [Auth.apiReplies Auth.tokenCache Auth.now Auth.tokenReplies
         Auth.requests].
    destruct (Request.tokenExpired second); reflexivity. }
  rewrite Hr. cbn [fst snd Auth.apiReplies Auth.tokenCache Auth.requests].
  split; [ reflexivity | ].
  split; [ repeat rewrite <- app_assoc; reflexivity | ].
  split; [ apply JSMap_get_set_same | reflexivity ].
Qed.

(** A token valid by the clock that the server rejects once. *)
Lemma stale_token_is_replaced_witness :
  snd (Request.feishuRequest Fixture.account "POST" "/im/v1/messages" None
         None true
         (Fixture.world
            [("default", {| Auth.token := "t-old"; Auth.expiresAt := 9000000 |})]
            0
            [(40%Z, Fixture.tokenData "t-new" 7200)]
            [(25%Z, Fixture.apiData 99991663 None);
             (25%Z, Fixture.apiData 0 (Some "om_9"))]))
  = Json.Ok {| Request.code := 0; Request.msg := "";
               Request.data := Some {| Fixture.message_id := Some "om_9" |} |}.
Proof.
  apply (stale_token_is_replaced Fixture.account "POST" "/im/v1/messages"
           None None
           [("default", {| Auth.token := "t-old"; Auth.expiresAt := 9000000 |})]
           0 {| Auth.token := "t-old"; Auth.expiresAt := 9000000 |}
           {| Request.code := 99991663; Request.msg := "";
              Request.data := Some {| Fixture.message_id := None |} |}
           {| Request.code := 0; Request.msg := "";
              Request.data := Some {| Fixture.message_id := Some "om_9" |} |}
           "t-new" "ok" "OK" 7200 200 25 25 40 [] [] []).
  - reflexivity.
  - reflexivity.
  - reflexivity.
  - reflexivity.
  - reflexivity.
  - discriminate.
Defined.

Lemma sendMessage_requests (T : Type) (message_id : T -> option string)
    (account : Auth.Account)
    (receiveId msgType content receiveIdType : string) (uuid : string)
    (w : Auth.World (Request.ApiReply T)) :
  let r := Request.sendMessage T message_id account receiveId msgType content
             receiveIdType None uuid w in
  exists new,
    Auth.requests (fst r) = Auth.requests w ++ new
    /\ Forall
         (Request.carries "POST" (Auth.getApiBase account ++ "/im/v1/messages")
            (Some [("receive_id_type", receiveIdType)])
            (Some {| Auth.receive_id := Some receiveId;
                     Auth.msg_type := msgType;
                     Auth.content := content;
                     Auth.uuid := uuid |}))
         new.
Proof.
  unfold Request.sendMessage, Auth.bind. cbn [JS.truthy_opt].
  match goal with
  | |- context [Request.feishuRequest ?a ?m ?e ?b ?q true w] =>
      pose proof (feishuRequest_effect a m e b q true w)
        as (new & Hnew & _ & _ & Hcarry);
      destruct (Request.feishuRequest a m e b q true w) as [w1 [resp|err]]
  end; cbn [fst] in Hnew |- *.
  - exists new. split; [ | exact Hcarry ].
    destruct (negb (Request.code resp =? 0)%Z); exact Hnew.
  - exists new. split; [ exact Hnew | exact Hcarry ].
Qed.

Lemma replyRequest_requests (T : Type) (message_id : T -> option string)
    (account : Auth.Account)
    (messageId msgType content uuid : string)
    (w : Auth.World (Request.ApiReply T)) :
  let r := Request.replyRequest T message_id account messageId msgType
             content uuid w in
  exists new,
    Auth.requests (fst r) = Auth.requests w ++ new
    /\ Forall
         (Request.carries "POST"
            (Auth.getApiBase account
             ++ ("/im/v1/messages/" ++ messageId ++ "/reply"))
            None
            (Some {| Auth.receive_id := None;
                     Auth.msg_type := msgType;
                     Auth.content := content;
                     Auth.uuid := uuid |}))
         new.
Proof.
  unfold Request.replyRequest, Auth.bind.
  match goal with
  | |- context [Request.feishuRequest ?a ?m ?e ?b ?q true w] =>
      pose proof (feishuRequest_effect a m e b q true w)
        as (new & Hnew & _ & _ & Hcarry);
      destruct (Request.feishuRequest a m e b q true w) as [w1 [resp|err]]
  end; cbn [fst] in Hnew |- *.
  - exists new. split; [ | exact Hcarry ].
    destruct (negb (Request.code resp =? 0)%Z); exact Hnew.
  - exists new. split; [ exact Hnew | exact Hcarry ].
Qed.

(** X27.  Where the default reply sender sends: with a message to quote
    and in a group, every request goes to the reply address of that
    message, without parameters and without a receiver in the body;
    otherwise every request goes to the message address with the chat as
    receiver, typed "open_id" when the chat id starts with "ou_" and
    "chat_id" otherwise.  The body is a text or a card, and a repeated
    request has the same body, the uuid included. *)
Theorem reply_sender_addressing (T : Type)
    (message_id : T -> option string) (stringify_text : string -> string)
    (stringify_card : Api.FeishuInteractiveContent -> string)
    (account : Auth.Account)
    (chatId : string) (isGroup : bool) (text : string)
    (replyToId : option string) (renderMode : option Types.FeishuRenderMode)
    (uuid : string) (w : Auth.World (Request.ApiReply T)) :
  let r := Request.defaultReplySender T message_id stringify_text
             stringify_card account chatId isGroup text replyToId renderMode
             uuid w in
  let quoted := JS.truthy_opt replyToId && isGroup in
  let endpoint :=
    if quoted
    then ("/im/v1/messages/" ++ JS.nullish replyToId "" ++ "/reply")%string
    else "/im/v1/messages" in
  let query :=
    if quoted then None
    else Some [("receive_id_type",
                if String.prefix "ou_" chatId then "open_id" else "chat_id")] in
  exists new msgType content,
    Auth.requests (fst r) = Auth.requests w ++ new
    /\ (msgType = "text" \/ msgType = "interactive")
    /\ Forall
         (Request.carries "POST" (Auth.getApiBase account ++ endpoint) query
            (Some {| Auth.receive_id := if quoted then None else Some chatId;
                     Auth.msg_type := msgType;
                     Auth.content := content;
                     Auth.uuid := uuid |}))
         new.
Proof.
  unfold Request.defaultReplySender, Dispatch.defaultReplySender.
  destruct (JS.truthy_opt replyToId && isGroup); cbv zeta.
  - destruct (Api.replyMessage (Auth.resolved account)
                (JS.nullish replyToId "") text renderMode)
      as [rid t | rid c | mid t | mid c] eqn:Hout;
      unfold Api.replyMessage in Hout;
      try (destruct (match JS.nullish renderMode
                             (Types.renderMode (Auth.resolved account)) with
                     | Types.RenderCard => true
                     | Types.RenderAuto => Api.shouldUseCardRendering text
                     | Types.RenderRaw => false
                     end); discriminate Hout).
    + assert (Hmid : mid = JS.nullish replyToId "").
      { destruct (match JS.nullish renderMode
                          (Types.renderMode (Auth.resolved account)) with
                  | Types.RenderCard => true
                  | Types.RenderAuto => Api.shouldUseCardRendering text
                  | Types.RenderRaw => false
                  end); [ discriminate Hout | now injection Hout ]. }
      subst mid. cbn [Request.transmit].
      destruct (replyRequest_requests T message_id account (JS.nullish replyToId "")
                  "text" (stringify_text t) uuid w) as (new & Hnew & Hc).
      exists new, "text", (stringify_text t). auto.
    + assert (Hmid : mid = JS.nullish replyToId "").
      { destruct (match JS.nullish renderMode
                          (Types.renderMode (Auth.resolved account)) with
                  | Types.RenderCard => true
                  | Types.RenderAuto => Api.shouldUseCardRendering text
                  | Types.RenderRaw => false
                  end); [ now injection Hout | discriminate Hout ]. }
      subst mid. cbn [Request.transmit].
      destruct (replyRequest_requests T message_id account (JS.nullish replyToId "")
                  "interactive" (stringify_card c) uuid w)
        as (new & Hnew & Hc).
      exists new, "interactive", (stringify_card c). auto.
  - destruct (Api.sendSmart (Auth.resolved account) chatId text renderMode)
      as [rid t | rid c | mid t | mid c] eqn:Hout;
      unfold Api.sendSmart in Hout;
      destruct (JS.nullish renderMode
                  (Types.renderMode (Auth.resolved account)));
      try destruct (Api.shouldUseCardRendering text);
      try discriminate Hout;
      injection Hout as <- <-;
      cbn [Request.transmit];
      unfold Request.sendText, Request.sendCard; cbn [JS.nullish];
      match goal with
      | |- context [Request.sendMessage T message_id account chatId ?mt ?ct
                      ?ty None uuid w] =>
          destruct (sendMessage_requests T message_id account chatId mt ct ty uuid w)
            as (new & Hnew & Hc);
          exists new, mt, ct; auto
      end.
Qed.

(** ** channel.ts: the inbound handler *)

(** The reply context changes none of the fields the policy checks and
    the route read. *)
Lemma fetchReplyContext_keeps_gate_fields
    (getMessage : string -> Json.Throws Api.GetMessageResult)
    (inbound : Message.FeishuInboundMessage)
    (account : Types.ResolvedFeishuAccount) (botOpenId botName : option string) :
  let fetched := fst (Inbound.fetchReplyContext getMessage inbound) in
  Message.chatId fetched = Message.chatId inbound
  /\ Message.chatType fetched = Message.chatType inbound
  /\ Context.gate fetched account botOpenId botName
     = Context.gate inbound account botOpenId botName.
Proof.
  unfold Inbound.fetchReplyContext.
  destruct (negb (JS.truthy_opt (Message.parentId inbound)));
    [ cbn [fst]; auto | ].
  destruct (getMessage (JS.nullish (Message.parentId inbound) ""))
    as [result|err]; [ | cbn [fst]; auto ].
  destruct (Api.ok result); [ | cbn [fst]; auto ].
  destruct (Api.message result); cbn [fst]; auto.
Qed.

Lemma JSSet_delete_length (x : string) (s : JSSet.t) :
  List.length (JSSet.delete x s) <= List.length s.
Proof.
  induction s as [|y rest IH]; cbn; [ lia | ].
  destruct (String.eqb y x); cbn; lia.
Qed.

Lemma recent_weaken (j k : nat) (id : string) (c : Dedupe.cache) :
  j <= k -> Channel.recent j id c -> Channel.recent k id c.
Proof.
  intros Hjk (older & newer & Hc & Hold & Hlen).
  exists older, newer. repeat split; auto. lia.
Qed.

Lemma recent_has (j : nat) (id : string) (c : Dedupe.cache) :
  Channel.recent j id c -> Dedupe.isProcessed id c = true.
Proof.
  intros (older & newer & -> & _ & _).
  unfold Dedupe.isProcessed, JSSet.has. rewrite includes_app. cbn.
  rewrite String.eqb_refl. apply orb_true_r.
Qed.

Lemma recent_delete (j : nat) (id x : string) (c : Dedupe.cache) :
  x <> id -> Channel.recent j id c -> Channel.recent j id (JSSet.delete x c).
Proof.
  intros Hx (older & newer & -> & Hold & Hlen).
  exists (JSSet.delete x older), (JSSet.delete x newer).
  rewrite JSSet_delete_app. cbn [JSSet.delete].
  replace (String.eqb id x) with false
    by (symmetry; apply String.eqb_neq; congruence).
  split; [ reflexivity | split ].
  - intros Hin. apply Hold. eapply JSSet_delete_incl; eauto.
  - pose proof (JSSet_delete_length x newer). lia.
Qed.

Lemma recent_cleanup_loop (j : nat) (id : string) (yielded : list string) :
  ~ In id yielded ->
  forall c, Channel.recent j id c ->
            Channel.recent j id (Dedupe.cleanup_loop yielded c).
Proof.
  induction yielded as [|x rest IH]; intros Hnot c Hc; [ exact Hc | ].
  cbn [Dedupe.cleanup_loop]. apply IH.
  - intros Hin. apply Hnot. now right.
  - destruct (JS.truthy x); [ | exact Hc ].
    apply recent_delete; [ | exact Hc ].
    intros ->. apply Hnot. now left.
Qed.

Lemma recent_add (j : nat) (id x : string) (c : Dedupe.cache) :
  Channel.recent j id c -> Channel.recent (S j) id (JSSet.add x c).
Proof.
  intros Hc. unfold JSSet.add. destruct (JSSet.has x c).
  - apply (recent_weaken j); [ lia | exact Hc ].
  - destruct Hc as (older & newer & -> & Hold & Hlen).
    exists older, (newer ++ [x]). rewrite <- app_assoc. cbn [app].
    repeat split; auto. rewrite length_app. cbn. lia.
Qed.

(** An id with fewer than [cleanupThreshold] ids after it outlives a
    call of [markProcessed]: the eviction stops short of it. *)
Lemma recent_markProcessed (o : Dedupe.DedupeCacheOptions) (j : nat)
    (id x : string) (c : Dedupe.cache) :
  j < Dedupe.cleanupThreshold o ->
  Channel.recent j id c ->
  Channel.recent (S j) id (Dedupe.markProcessed o x c).
Proof.
  intros Hj Hc. unfold Dedupe.markProcessed. apply recent_add.
  destruct (Dedupe.maxSize o <=? JSSet.size c)%nat; [ | exact Hc ].
  unfold Dedupe.cleanup. apply recent_cleanup_loop; [ | exact Hc ].
  destruct Hc as (older & newer & -> & Hold & Hlen).
  unfold JSSet.size. rewrite length_app. cbn [List.length].
  rewrite firstn_app.
  replace (List.length older + S (List.length newer)
           - Dedupe.cleanupThreshold o - List.length older) with 0 by lia.
  cbn [firstn]. rewrite app_nil_r.
  intros Hin. apply Hold.
  rewrite <- (firstn_skipn
                (List.length older + S (List.length newer)
                 - Dedupe.cleanupThreshold o) older).
  apply in_or_app. now left.
Qed.

Lemma recent_after_first_mark (o : Dedupe.DedupeCacheOptions) (id : string)
    (c : Dedupe.cache) :
  Dedupe.isProcessed id c = false ->
  Channel.recent 0 id (Dedupe.markProcessed o id c).
Proof.
  intros Hnew. unfold Dedupe.markProcessed.
  set (c1 := if (Dedupe.maxSize o <=? JSSet.size c)%nat
             then Dedupe.cleanup (JSSet.size c - Dedupe.cleanupThreshold o) c
             else c).
  assert (Hnot : ~ In id c1).
  { assert (Hc : ~ In id c).
    { intros Hin. apply includes_In in Hin.
      unfold Dedupe.isProcessed, JSSet.has in Hnew. congruence. }
    subst c1. destruct (Dedupe.maxSize o <=? JSSet.size c)%nat; auto.
    unfold Dedupe.cleanup.
    generalize (firstn (JSSet.size c - Dedupe.cleanupThreshold o) c).
    intros yielded. revert c Hnew Hc.
    induction yielded as [|x rest IH]; intros c Hnew Hc; cbn; auto.
    destruct (JS.truthy x); [ | now apply IH ].
    assert (Hdel : ~ In id (JSSet.delete x c))
      by (intros Hin; apply Hc; eapply JSSet_delete_incl; eauto).
    apply IH; [ | exact Hdel ].
    unfold Dedupe.isProcessed, JSSet.has.
    destruct (JS.includes id (JSSet.delete x c)) eqn:Hin; auto.
    apply includes_In in Hin. contradiction. }
  unfold JSSet.add, JSSet.has.
  destruct (JS.includes id c1) eqn:Hin;
    [ apply includes_In in Hin; contradiction | ].
  exists c1, []. repeat split; auto.
Qed.

(** The cache after a call of the handler: untouched by a duplicate,
    else with the id of the message marked, however the call ends. *)
Lemma handler_dedupe (account : Types.ResolvedFeishuAccount)
    (botOpenId botName : option string) (FeishuMessageContext : Type)
    (resolveAgentRoute : string -> string -> Json.Throws unit)
    (assemble :
       Message.FeishuInboundMessage -> list History.HistoryEntry ->
       Json.Throws FeishuMessageContext)
    (dispatch : FeishuMessageContext -> Json.Throws unit)
    (getMessage : string -> Json.Throws Api.GetMessageResult)
    (inbound : Message.FeishuInboundMessage) (s : Channel.State) :
  Channel.dedupe
    (fst (Channel.handleInboundMessage account botOpenId botName
            FeishuMessageContext resolveAgentRoute assemble dispatch
            getMessage inbound s))
  = if Dedupe.isProcessed (Message.messageId inbound) (Channel.dedupe s)
    then Channel.dedupe s
    else Dedupe.markProcessed Dedupe.defaults (Message.messageId inbound)
           (Channel.dedupe s).
Proof.
  unfold Channel.handleInboundMessage.
  destruct (Dedupe.isProcessed (Message.messageId inbound)
              (Channel.dedupe s)); [ reflexivity | ].
  destruct (Channel.buildFeishuMessageContext _ _ _ _ _ _ _ _)
    as [[context|]|err]; cbn [fst Channel.dedupe]; auto.
  destruct (dispatch context); reflexivity.
Qed.

Lemma recent_handleEach (account : Types.ResolvedFeishuAccount)
    (botOpenId botName : option string) (FeishuMessageContext : Type)
    (resolveAgentRoute : string -> string -> Json.Throws unit)
    (assemble :
       Message.FeishuInboundMessage -> list History.HistoryEntry ->
       Json.Throws FeishuMessageContext)
    (dispatch : FeishuMessageContext -> Json.Throws unit)
    (id : string)
    (calls : list ((string -> Json.Throws Api.GetMessageResult)
                   * Message.FeishuInboundMessage)) :
  forall (j : nat) (s : Channel.State),
    j + List.length calls <= Dedupe.cleanupThreshold Dedupe.defaults ->
    Channel.recent j id (Channel.dedupe s) ->
    Channel.recent (j + List.length calls) id
      (Channel.dedupe
         (Channel.handleEach account botOpenId botName FeishuMessageContext
            resolveAgentRoute assemble dispatch calls s)).
Proof.
  induction calls as [|call rest IH]; intros j s Hlen Hs.
  - cbn. now rewrite Nat.add_0_r.
  - cbn [List.length] in *. cbn [Channel.handleEach fold_left].
    replace (j + S (List.length rest)) with (S j + List.length rest) by lia.
    apply IH; [ lia | ].
    rewrite handler_dedupe.
    destruct (Dedupe.isProcessed (Message.messageId (snd call))
                (Channel.dedupe s)).
    + apply (recent_weaken j); [ lia | exact Hs ].
    + apply recent_markProcessed; [ lia | exact Hs ].
Qed.

(** X28.  A message the handler has handled is not handled again while
    its id is in the cache: after a call for a message that was new,
    however the call ended (also when it failed in the runtime), and
    after up to 800 further calls of the handler, whatever they held, a
    message with the same id is skipped as a duplicate and changes
    nothing, whatever the runtime would do now. *)
Theorem message_handled_once (account : Types.ResolvedFeishuAccount)
    (botOpenId botName : option string) (FeishuMessageContext : Type)
    (resolveAgentRoute resolveAgentRoute' : string -> string -> Json.Throws unit)
    (assemble assemble' :
       Message.FeishuInboundMessage -> list History.HistoryEntry ->
       Json.Throws FeishuMessageContext)
    (dispatch dispatch' : FeishuMessageContext -> Json.Throws unit)
    (getMessage getMessage' : string -> Json.Throws Api.GetMessageResult)
    (inbound again : Message.FeishuInboundMessage)
    (between : list ((string -> Json.Throws Api.GetMessageResult)
                     * Message.FeishuInboundMessage))
    (s : Channel.State) :
  Dedupe.isProcessed (Message.messageId inbound) (Channel.dedupe s) = false ->
  List.length between <= 800 ->
  Message.messageId again = Message.messageId inbound ->
  let s1 :=
    fst (Channel.handleInboundMessage account botOpenId botName
           FeishuMessageContext resolveAgentRoute assemble dispatch
           getMessage inbound s) in
  let s2 :=
    Channel.handleEach account botOpenId botName FeishuMessageContext
      resolveAgentRoute assemble dispatch between s1 in
  Channel.handleInboundMessage account botOpenId botName
    FeishuMessageContext resolveAgentRoute' assemble' dispatch'
    getMessage' again s2
  = (s2, Channel.Duplicate).
Proof.
  intros Hnew Hlen Hid s1 s2.
  assert (H1 : Channel.recent 0 (Message.messageId inbound)
                 (Channel.dedupe s1)).
  { subst s1. rewrite handler_dedupe, Hnew.
    now apply recent_after_first_mark. }
  assert (H2 : Channel.recent (0 + List.length between)
                 (Message.messageId inbound) (Channel.dedupe s2)).
  { subst s2. apply recent_handleEach; [ | exact H1 ].
    unfold Dedupe.defaults, Dedupe.DEFAULT_DEDUPE_CLEANUP_THRESHOLD.
    cbn [Dedupe.cleanupThreshold]. lia. }
  apply recent_has in H2.
  unfold Channel.handleInboundMessage at 1. now rewrite Hid, H2.
Qed.

(** A message the runtime failed on, delivered again after another
    message. *)
Lemma message_handled_once_witness :
  let account := Sample.policy None None None true Types.RenderAuto in
  let offline := fun _ : string =>
                   @Json.Throw Api.GetMessageResult "offline" in
  let first := Fixture.inbound "om_1" Message.Direct "oc_dm" "ou_a" "hello" in
  let other := Fixture.inbound "om_2" Message.Group "oc_team" "ou_b" "hi" in
  let start :=
    {| Channel.dedupe := Dedupe.create; Channel.history := History.create |} in
  let s1 :=
    fst (Channel.handleInboundMessage account None None unit
           (fun _ _ => Json.Throw "no route") (fun _ _ => Json.Ok tt)
           (fun _ => Json.Ok tt) offline first start) in
  let s2 :=
    Channel.handleEach account None None unit
      (fun _ _ => Json.Throw "no route") (fun _ _ => Json.Ok tt)
      (fun _ => Json.Ok tt) [(offline, other)] s1 in
  Channel.handleInboundMessage account None None unit
    (fun _ _ => Json.Ok tt) (fun _ _ => Json.Ok tt) (fun _ => Json.Ok tt)
    offline first s2
  = (s2, Channel.Duplicate).
Proof.
  intros account offline first other start s1 s2.
  apply (message_handled_once account None None unit
           (fun _ _ => Json.Throw "no route") (fun _ _ => Json.Ok tt)
           (fun _ _ => Json.Ok tt) (fun _ _ => Json.Ok tt)
           (fun _ => Json.Ok tt) (fun _ => Json.Ok tt)
           offline offline first first [(offline, other)] start).
  - reflexivity.
  - cbn. lia.
  - reflexivity.
Defined.

Lemma history_get_after_record (o : History.GroupHistoryManagerOptions)
    (chatId : string) (entry : History.HistoryEntry) (m : History.manager) :
  1 <= History.historyLimit o ->
  exists older,
    History.get chatId (History.record o chatId entry m) = older ++ [entry].
Proof.
  intros Hlimit. rewrite history_record_shape.
  set (m1 := if (History.maxGroups o <? JSMap.size m)%nat
             then History.evict (JSMap.size m - History.maxGroups o) m
             else m).
  set (h := History.get chatId m1).
  unfold History.get at 1.
  rewrite JSMap_get_app_absent by apply JSMap_has_delete_same.
  cbn [JSMap.get]. rewrite String.eqb_refl. cbn [JS.nullish].
  rewrite history_trim_keeps_last.
  exists (skipn (List.length (h ++ [entry]) - History.historyLimit o) h).
  rewrite skipn_app.
  replace (List.length (h ++ [entry]) - History.historyLimit o
           - List.length h) with 0
    by (rewrite length_app; cbn [List.length]; lia).
  reflexivity.
Qed.

(** X29.  A new message the policy checks block is not dispatched; in a
    group it becomes the newest entry of the history of its chat, with
    the sender, text, time and id of the message, to serve as context
    later; in a direct chat the history is left as it is. *)
Theorem blocked_message_is_kept_as_context
    (account : Types.ResolvedFeishuAccount)
    (botOpenId botName : option string) (FeishuMessageContext : Type)
    (resolveAgentRoute : string -> string -> Json.Throws unit)
    (assemble :
       Message.FeishuInboundMessage -> list History.HistoryEntry ->
       Json.Throws FeishuMessageContext)
    (dispatch : FeishuMessageContext -> Json.Throws unit)
    (getMessage : string -> Json.Throws Api.GetMessageResult)
    (inbound : Message.FeishuInboundMessage) (s : Channel.State)
    (reason : Context.BlockReason) :
  Dedupe.isProcessed (Message.messageId inbound) (Channel.dedupe s) = false ->
  resolveAgentRoute
    (match Message.chatType inbound with
     | Message.Group => "group"
     | Message.Direct => "dm"
     end)
    (Message.chatId inbound)
  = Json.Ok tt ->
  Context.gate inbound account botOpenId botName = Context.Blocked reason ->
  let r := Channel.handleInboundMessage account botOpenId botName
             FeishuMessageContext resolveAgentRoute assemble dispatch
             getMessage inbound s in
  snd r = Channel.BlockedByPolicy
  /\ match Message.chatType inbound with
     | Message.Group =>
         exists older,
           History.get (Message.chatId inbound) (Channel.history (fst r))
           = older
             ++ [{| History.sender :=
                      JS.nullish (Message.senderOpenId inbound)
                        (Message.senderId inbound);
                    History.body :=
                      JS.nullish (Message.displayText inbound)
                        (JS.nullish (Message.text inbound) "");
                    History.timestamp := Message.createTime inbound;
                    History.messageId := Message.messageId inbound |}]
     | Message.Direct => Channel.history (fst r) = Channel.history s
     end.
Proof.
  intros Hnew Hroute Hgate r. subst r.
  unfold Channel.handleInboundMessage. rewrite Hnew.
  unfold Channel.buildFeishuMessageContext, Json.bind.
  destruct (fetchReplyContext_keeps_gate_fields getMessage inbound account
              botOpenId botName) as (Hchat & Hkind & Hsame).
  rewrite Hchat, Hkind, Hsame, Hgate.
  destruct (Message.chatType inbound); rewrite Hroute; cbn [fst snd Channel.history].
  - split; reflexivity.
  - split; [ reflexivity | ].
    apply history_get_after_record.
    unfold History.defaults, History.DEFAULT_GROUP_HISTORY_LIMIT.
    cbn [History.historyLimit]. lia.
Qed.

(** A group message that does not mention the bot. *)
Lemma blocked_message_is_kept_as_context_witness :
  let account := Sample.policy None None None true Types.RenderAuto in
  let inbound :=
    Sample.inbound Message.Group "oc_team" "ou_a" "lunch?" None None in
  snd (Channel.handleInboundMessage account (Some "ou_bot") None unit
         (fun _ _ => Json.Ok tt) (fun _ _ => Json.Ok tt)
         (fun _ => Json.Ok tt) (fun _ => Json.Throw "offline") inbound
         {| Channel.dedupe := Dedupe.create;
            Channel.history := History.create |})
  = Channel.BlockedByPolicy.
Proof.
  apply (blocked_message_is_kept_as_context
           (Sample.policy None None None true Types.RenderAuto)
           (Some "ou_bot") None unit
           (fun _ _ => Json.Ok tt) (fun _ _ => Json.Ok tt)
           (fun _ => Json.Ok tt) (fun _ => Json.Throw "offline")
           (Sample.inbound Message.Group "oc_team" "ou_a" "lunch?" None None)
           {| Channel.dedupe := Dedupe.create;
              Channel.history := History.create |}
           Context.NoMention).
  - reflexivity.
  - reflexivity.
  - reflexivity.
Defined.

